(** * OverlapPredator: registration service and result visualizer

    A shallow embedding of

    - [service/predator_server.py]: [ThreeDMatchDemo], [predator_infer]
      and [PredatorHandler.do_POST];
    - [web_pointcloud_visualizer.py]: the body of the loop of
      [PointCloudWebVisualizer.load_test_results].

    Conventions.
    - A Python [float] (and an element of a float tensor or array) is a
      rational number of [Q]: arithmetic is exact, and neither the rounding
      of single or double precision nor underflow and overflow are modelled.
      The statements below are chosen so as not to depend on this: where a
      value the program computes in single precision matters, the
      statement goes through the operator that computes it, or through
      [F32], the binary32 arithmetic of IEEE 754.
      The only non-finite values the modelled code creates come from the
      division by the sum of the weights; they are kept, as [fl].
    - A Python exception is a value of [exn]; code that may raise returns
      a [result].
    - NumPy's global random state is passed explicitly ([rng]).
    - Sequences are lists, indexed from 0. *)

From Stdlib Require Import String.
From Stdlib Require Import List ZArith QArith Qabs Lia Lqa Bool Arith PeanoNat.
From Stdlib Require Import SpecFloat.
Import ListNotations.

Set Implicit Arguments.

Local Open Scope Z_scope.

(** ** Exceptions and results *)

(** The exception classes the modelled code can raise, and [Custom] for
    a class defined elsewhere. *)
Inductive exn : Type :=
| IndexError
| ValueError
| RuntimeError
| KeyError
| Custom (cls : string).

Inductive result (A : Type) : Type :=
| Ok (a : A)
| Raise (e : exn).

Arguments Ok {A} a.
Arguments Raise {A} e.

Definition bind {A B : Type} (m : result A) (k : A -> result B) : result B :=
  match m with
  | Ok a => k a
  | Raise e => Raise e
  end.

Notation "x <- m ;; k" := (bind m (fun x => k))
  (at level 61, m at next level, right associativity).
Notation "' p <- m ;; k" := (bind m (fun x => match x with p => k end))
  (at level 61, p pattern, m at next level, right associativity).

(** ** Python sequences *)

Module Py.

(** The position a slice bound [k] denotes in a sequence of length [n]:
    a negative bound counts from the end, and the outcome is clipped
    to [0 .. n]. *)
Definition clip (n : nat) (k : Z) : nat :=
  if k <? 0 then Z.to_nat (Z.max 0 (k + Z.of_nat n))
  else Nat.min (Z.to_nat k) n.

(** [x[:k]] *)
Definition slice_to {A : Type} (k : Z) (x : list A) : list A :=
  firstn (clip (length x) k) x.

(** [x[k:]] *)
Definition slice_from {A : Type} (k : Z) (x : list A) : list A :=
  skipn (clip (length x) k) x.

(** Walks [x] and keeps an element each time the countdown [wait]
    reaches 0, restarting it at [gap]: with [wait = 0] and
    [gap = d - 1] this keeps every [d]-th element from the first on. *)
Fixpoint every {A : Type} (gap wait : nat) (x : list A) : list A :=
  match x with
  | [] => []
  | a :: r =>
      match wait with
      | O => a :: every gap gap r
      | S w => every gap w r
      end
  end.

(** [x[::d]].  A zero step raises [ValueError]; a negative step walks
    the sequence from its last element backwards. *)
Definition slice_step {A : Type} (d : Z) (x : list A) : result (list A) :=
  if d =? 0 then Raise ValueError
  else if 0 <? d then Ok (every (Z.to_nat d - 1) 0 x)
  else Ok (every (Z.to_nat (- d) - 1) 0 (rev x)).

(** [x[i]] for a non-negative [i]. *)
Definition getitem {A : Type} (x : list A) (i : nat) : result A :=
  match nth_error x i with
  | Some a => Ok a
  | None => Raise IndexError
  end.

(** [d[key]] on a dict given by the list of its items, whose keys are
    distinct. *)
Fixpoint lookup {A : Type} (key : string) (d : list (string * A)) : result A :=
  match d with
  | [] => Raise KeyError
  | (k, v) :: r => if String.eqb k key then Ok v else lookup key r
  end.

End Py.

(** ** Floating-point values *)

(** A float is a rational or one of the three non-finite values. *)
Inductive fl : Type :=
| Fin (q : Q)
| PInf
| NInf
| NaN.

Module Fl.

(** [w / s] for finite [w] and [s]: a zero divisor gives [nan] for
    [0 / 0] and a signed infinity otherwise. *)
Definition div (w s : Q) : fl :=
  if Qeq_bool s 0 then
    if Qeq_bool w 0 then NaN
    else if Qle_bool w 0 then NInf else PInf
  else Fin (w / s).

Definition add (a b : fl) : fl :=
  match a, b with
  | NaN, _ | _, NaN => NaN
  | PInf, NInf | NInf, PInf => NaN
  | PInf, _ | _, PInf => PInf
  | NInf, _ | _, NInf => NInf
  | Fin x, Fin y => Fin (x + y)
  end.

Definition isnan (a : fl) : bool :=
  match a with NaN => true | _ => false end.

Definition isfinite (a : fl) : bool :=
  match a with Fin _ => true | _ => false end.

(** [a < 0] *)
Definition neg (a : fl) : bool :=
  match a with
  | Fin q => negb (Qle_bool 0 q)
  | NInf => true
  | PInf | NaN => false
  end.

(** [a > 0] *)
Definition pos (a : fl) : bool :=
  match a with
  | Fin q => negb (Qle_bool q 0)
  | PInf => true
  | NInf | NaN => false
  end.

(** [abs(a - 1.) > tol] *)
Definition off_one (tol : Q) (a : fl) : bool :=
  match a with
  | Fin q => negb (Qle_bool (Qabs (q - 1)) tol)
  | PInf | NInf => true
  | NaN => false
  end.

(** The rational a finite float stands for. *)
Definition val (a : fl) : Q :=
  match a with Fin q => q | _ => 0%Q end.

End Fl.

(** ** Single precision

    The binary32 format of IEEE 754, by the specification of
    floating-point arithmetic of the Standard Library: 24 bits of
    precision, exponents below 128, and every operation rounding its exact
    result to the nearest value of the format, ties to even. *)

Module F32.

Definition prec : Z := 24.
Definition emax : Z := 128.

Definition mul (x y : spec_float) : spec_float := SFmul prec emax x y.
Definition add (x y : spec_float) : spec_float := SFadd prec emax x y.



End F32.

(** ** Torch tensors

    A 1-D float tensor is a [list Q]; a 2-D one is the list of its rows. *)

Module Torch.

(** [a * b] on 1-D tensors, with broadcasting of a length-1 operand;
    other length mismatches raise [RuntimeError].  The product of two
    elements is the exact one: that of the program is this product
    rounded to single precision. *)
Definition mul (a b : list Q) : result (list Q) :=
  if (length a =? length b)%nat then Ok (map (fun xy => (fst xy * snd xy)%Q) (combine a b))
  else match a, b with
       | [x], _ => Ok (map (fun y => (x * y)%Q) b)
       | _, [y] => Ok (map (fun x => (x * y)%Q) a)
       | _, _ => Raise RuntimeError
       end.

(** [a.sum()] *)
Definition sum (a : list Q) : Q := fold_right Qplus 0%Q a.

(** [a / s] for a 0-dimensional [s].  The quotients are the exact ones,
    by the exact sum: those of the program are rounded to single
    precision, so that a small positive quotient can be 0 there. *)
Definition div_scalar (a : list Q) (s : Q) : list fl :=
  map (fun w => Fl.div w s) a.

(** [x[idx]] for an integer index array [idx]: the rows of [x] at the
    positions of [idx], in the order of [idx]. *)
Fixpoint index {A : Type} (x : list A) (idx : list nat) : result (list A) :=
  match idx with
  | [] => Ok []
  | i :: r =>
      a <- Py.getitem x i ;;
      s <- index x r ;;
      Ok (a :: s)
  end.

End Torch.

(** ** NumPy: random sampling *)

Module Np.

(** The global generator: the stream of raw 53-bit outputs of the
    underlying bit generator, and the number of outputs consumed. *)
Record rng : Type := { raw : nat -> N; pos : nat }.

Definition two53 : positive := 9007199254740992%positive.

(** [random_sample()]: a 53-bit integer divided by [2^53], so a float
    of the half-open interval from 0 to 1. *)
Definition random_sample (g : rng) : Q * rng :=
  (Z.of_N (raw g (pos g) mod Npos two53) # two53,
   {| raw := raw g; pos := S (pos g) |}).

(** [rand(n)] *)
Fixpoint rand (n : nat) (g : rng) : list Q * rng :=
  match n with
  | O => ([], g)
  | S m =>
      let (x, g1) := random_sample g in
      let (xs, g2) := rand m g1 in
      (x :: xs, g2)
  end.

(** [kahan_sum].  With exact arithmetic the compensation term is 0, and
    the sum is the plain one; on non-finite entries only the fact that
    the sum is not finite is kept. *)
Definition kahan_sum (p : list fl) : fl := fold_left Fl.add p (Fin 0).

(** [np.count_nonzero(p > 0)] *)
Definition count_pos (p : list fl) : nat := length (filter Fl.pos p).

(** The tolerance of the check that the probabilities sum to 1, for
    probabilities of single precision as here: [sqrt(eps)] for the [eps]
    of single precision, [2^-23]; as a double, 0.00034526698300124393. *)
Definition atol : Q := 34526698300124393 # 100000000000000000000.

(** [np.cumsum], by a running total. *)
Fixpoint cumsum_from (acc : Q) (p : list Q) : list Q :=
  match p with
  | [] => []
  | a :: r => (acc + a)%Q :: cumsum_from (acc + a)%Q r
  end.

Definition cumsum (p : list Q) : list Q := cumsum_from 0%Q p.

(** [cdf.searchsorted(v, side='right')] on an ascending [cdf]: the
    number of leading elements that are at most [v]. *)
Fixpoint searchsorted_right (cdf : list Q) (v : Q) : nat :=
  match cdf with
  | [] => O
  | c :: r => if Qle_bool c v then S (searchsorted_right r v) else O
  end.

(** [new.take(sorted(np.unique(new, return_index=True)[1]))]: the first
    occurrence of each value, in the order of [new]. *)
Fixpoint unique_first (seen new : list nat) : list nat :=
  match new with
  | [] => []
  | a :: r =>
      if existsb (Nat.eqb a) seen then unique_first seen r
      else a :: unique_first (a :: seen) r
  end.

(** [p[i] = 0] *)
Fixpoint set_zero (i : nat) (p : list Q) : list Q :=
  match p, i with
  | [], _ => []
  | _ :: r, O => 0%Q :: r
  | a :: r, S j => a :: set_zero j r
  end.

(** [p[found] = 0] *)
Definition zero_at (found : list nat) (p : list Q) : list Q :=
  fold_left (fun q i => set_zero i q) found p.

(** One round of the sampling loop of [choice]: draw as many floats as
    indices are missing, remove the indices found so far from the
    distribution, and look the draws up in the normalised cumulative
    distribution. *)
Definition draw_round (size : nat) (p : list Q) (found : list nat) (g : rng)
  : list Q * list nat * rng :=
  let n_uniq := length found in
  let (x, g1) := rand (size - n_uniq) g in
  let p1 := if (0 <? n_uniq)%nat then zero_at found p else p in
  let cdf := cumsum p1 in
  let cdf := map (fun c => (c / last cdf 0)%Q) cdf in
  let new := map (searchsorted_right cdf) x in
  let new := unique_first [] new in
  (p1, found ++ new, g1).

(** [while n_uniq < size: ...].  Every round adds an index, so at most
    [size] rounds run: [rounds] bounds them, and [draw_loop_exit] below
    shows that the loop condition is false at the end. *)
Fixpoint draw_loop (rounds size : nat) (p : list Q) (found : list nat) (g : rng)
  : list nat * rng :=
  match rounds with
  | O => (found, g)
  | S k =>
      if (length found <? size)%nat then
        let '(p1, found1, g1) := draw_round size p found g in
        draw_loop k size p1 found1 g1
      else (found, g)
  end.

(** [np.random.choice(np.arange(pop_size), size=size, replace=False, p=p)]:
    the checks of the arguments, in the order NumPy makes them, then the
    sampling loop.  Every failure is a [ValueError].  The population is
    [0 .. pop_size - 1], so the sample is the index array itself. *)
Definition choice (pop_size : nat) (size : Z) (p : list fl) (g : rng)
  : result (list nat * rng) :=
  if (pop_size =? 0)%nat && negb (size =? 0) then Raise ValueError
  else if negb (length p =? pop_size)%nat then Raise ValueError
  else
    let p_sum := kahan_sum p in
    if Fl.isnan p_sum then Raise ValueError
    else if existsb Fl.neg p then Raise ValueError
    else if Fl.off_one atol p_sum then Raise ValueError
    else if Z.of_nat pop_size <? size then Raise ValueError
    else if size <? 0 then Raise ValueError
    else if Z.of_nat (count_pos p) <? size then Raise ValueError
    else
      let n := Z.to_nat size in
      Ok (draw_loop n n (map Fl.val p) [] g).

End Np.

(** ** NumPy: arrays *)

Module Arr.

(** A 2-D float array: its shape and its rows. *)
Record mat : Type := { nrows : nat; ncols : nat; rows : list (list Q) }.

(** What [np.asarray] returns on a list of rows: the 1-D array of
    length 0 for the empty list, a 2-D array otherwise. *)
Inductive ndarray : Type :=
| A1 (v : list Q)
| A2 (m : mat).

Definition wf (m : mat) : Prop :=
  length (rows m) = nrows m /\ Forall (fun r => length r = ncols m) (rows m).

(** [m[i, j]] *)
Definition get (m : mat) (i j : nat) : Q := nth j (nth i (rows m) []) 0%Q.

(** The element of [m] that broadcasting puts at position [(i, j)]. *)
Definition bget (m : mat) (i j : nat) : Q :=
  get m (if (nrows m =? 1)%nat then O else i) (if (ncols m =? 1)%nat then O else j).

Definition tabulate (r c : nat) (f : nat -> nat -> Q) : mat :=
  {| nrows := r; ncols := c;
     rows := map (fun i => map (fun j => f i j) (seq 0 c)) (seq 0 r) |}.

(** [np.asarray(x, dtype=np.float32)] on a list of lists of numbers:
    rows of different lengths raise [ValueError].  The rounding of the
    numbers to single precision is not modelled: of the result, the
    statements below use the shape only. *)
Definition asarray (x : list (list Q)) : result ndarray :=
  match x with
  | [] => Ok (A1 [])
  | r :: _ =>
      if forallb (fun r' => (length r' =? length r)%nat) x
      then Ok (A2 {| nrows := length x; ncols := length r; rows := x |})
      else Raise ValueError
  end.

(** [a[:, :1]]: two indices on a 1-D array raise [IndexError]. *)
Definition first_col (a : ndarray) : result mat :=
  match a with
  | A1 _ => Raise IndexError
  | A2 m => Ok {| nrows := nrows m; ncols := Nat.min 1 (ncols m);
                  rows := map (firstn 1) (rows m) |}
  end.

(** [np.ones_like(m)] and [np.ones((r, c))] *)
Definition ones (r c : nat) : mat := tabulate r c (fun _ _ => 1%Q).
Definition ones_like (m : mat) : mat := ones (nrows m) (ncols m).

(** [np.eye(n)] *)
Definition eye (n : nat) : mat :=
  tabulate n n (fun i j => if (i =? j)%nat then 1%Q else 0%Q).

(** [m.T] *)
Definition transpose (m : mat) : mat :=
  tabulate (ncols m) (nrows m) (fun i j => get m j i).

(** [m.flatten()] *)
Definition flatten (m : mat) : list Q := concat (rows m).

(** [m.tolist()] *)
Definition tolist (m : mat) : list (list Q) := rows m.

(** [a @ b], in exact arithmetic. *)
Definition matmul (a b : mat) : result mat :=
  if (ncols a =? nrows b)%nat then
    Ok (tabulate (nrows a) (ncols b)
          (fun i j => fold_right Qplus 0%Q
                        (map (fun k => (get a i k * get b k j)%Q) (seq 0 (ncols a)))))
  else Raise ValueError.

(** Whether lengths [x] and [y] broadcast together, and to what. *)
Definition bdim (x y : nat) : option nat :=
  if (x =? y)%nat then Some x
  else if (x =? 1)%nat then Some y
  else if (y =? 1)%nat then Some x
  else None.

(** [a + b], with broadcasting, in exact arithmetic. *)
Definition add (a b : mat) : result mat :=
  match bdim (nrows a) (nrows b), bdim (ncols a) (ncols b) with
  | Some r, Some c => Ok (tabulate r c (fun i j => (bget a i j + bget b i j)%Q))
  | _, _ => Raise ValueError
  end.

(** [m[:r, :c] = src]: [src] must broadcast to the shape of the block. *)
Definition set_block (m : mat) (r c : nat) (src : mat) : result mat :=
  let r := Nat.min r (nrows m) in
  let c := Nat.min c (ncols m) in
  if ((nrows src =? r) || (nrows src =? 1))%nat && ((ncols src =? c) || (ncols src =? 1))%nat
  then Ok (tabulate (nrows m) (ncols m)
             (fun i j => if (i <? r)%nat && (j <? c)%nat then bget src i j else get m i j))
  else Raise ValueError.

(** [m[:r, c] = v] for a 1-D [v], which must broadcast to length [r];
    a column index out of bounds raises [IndexError]. *)
Definition set_col (m : mat) (r c : nat) (v : list Q) : result mat :=
  let r := Nat.min r (nrows m) in
  if (ncols m <=? c)%nat then Raise IndexError
  else if ((length v =? r) || (length v =? 1))%nat
  then Ok (tabulate (nrows m) (ncols m)
             (fun i j => if (i <? r)%nat && (j =? c)%nat
                         then nth (if (length v =? 1)%nat then O else i) v 0%Q
                         else get m i j))
  else Raise ValueError.

(** [m[:k]], [m[k:]] and [m[::d]] *)
Definition with_rows (m : mat) (rs : list (list Q)) : mat :=
  {| nrows := length rs; ncols := ncols m; rows := rs |}.
Definition slice_to (k : Z) (m : mat) : mat := with_rows m (Py.slice_to k (rows m)).
Definition slice_from (k : Z) (m : mat) : mat := with_rows m (Py.slice_from k (rows m)).
Definition slice_step (d : Z) (m : mat) : result mat :=
  rs <- Py.slice_step d (rows m) ;; Ok (with_rows m rs).

End Arr.

(** ** The registration service ([service/predator_server.py]) *)

Definition cloud : Type := list (list Q).

(** A 2-D tensor, by rows. *)
Definition tensor2 : Type := list (list Q).

(** The batch the data loader hands to the network; only the entries
    [predator_infer] reads are kept: ["points"], one stacked point tensor
    per layer, and ["stack_lengths"], the lengths of the source and of
    the target part per layer. *)
Record batch : Type := {
  points : list tensor2;
  stack_lengths : list (list Z)
}.

(** The entries of [config] the service reads.  [model] is the network: it
    returns the feature vectors, the overlap scores and the saliency
    scores of the stacked points. *)
Record config : Type := {
  n_points : Z;
  batch_size : nat;
  neighborhood_limits : list nat;
  model : batch -> result (tensor2 * list Q * list Q)
}.

(** Values of the response: [None] or a nested list of floats. *)
Inductive pyval : Type :=
| PyNone
| PyRows (m : list (list Q)).

(** A dict with string keys, as the list of its items in insertion order. *)
Definition dict : Type := list (string * pyval).

Module ThreeDMatchDemo.

Record t : Type := { src_pcd : Arr.ndarray; tgt_pcd : Arr.ndarray }.

(** The tuple [__getitem__] returns. *)
Record entry : Type := {
  it_src_pcd : Arr.ndarray;
  it_tgt_pcd : Arr.ndarray;
  it_src_feats : Arr.mat;
  it_tgt_feats : Arr.mat;
  it_rot : Arr.mat;
  it_trans : Arr.mat;
  it_correspondences : list (list Z);
  it_src_raw : Arr.ndarray;
  it_tgt_raw : Arr.ndarray;
  it_ones : list Q
}.

(** [ThreeDMatchDemo(config, src_points, tgt_points)] *)
Definition init (src_points tgt_points : cloud) : result t :=
  s <- Arr.asarray src_points ;;
  t <- Arr.asarray tgt_points ;;
  Ok {| src_pcd := s; tgt_pcd := t |}.

(** [__len__] *)
Definition len (d : t) : nat := 1.

(** [__getitem__] *)
Definition getitem (d : t) (item : nat) : result entry :=
  c_src <- Arr.first_col (src_pcd d) ;;
  let src_feats := Arr.ones_like c_src in
  c_tgt <- Arr.first_col (tgt_pcd d) ;;
  let tgt_feats := Arr.ones_like c_tgt in
  Ok {| it_src_pcd := src_pcd d;
        it_tgt_pcd := tgt_pcd d;
        it_src_feats := src_feats;
        it_tgt_feats := tgt_feats;
        it_rot := Arr.eye 3;
        it_trans := Arr.ones 3 1;
        it_correspondences := [[1; 1]];
        it_src_raw := src_pcd d;
        it_tgt_raw := tgt_pcd d;
        it_ones := [1%Q] |}.

End ThreeDMatchDemo.

(** The two halves of the stacked outputs of the network. *)
Record halves : Type := {
  src_pcd : tensor2;  tgt_pcd : tensor2;
  src_feats : tensor2;  tgt_feats : tensor2;
  src_overlap : list Q;  tgt_overlap : list Q;
  src_saliency : list Q;  tgt_saliency : list Q
}.

(** Lines 143 to 154 of [predator_infer]: every stacked array is cut at
    [len_src]. *)
Definition split_outputs (len_src : Z) (pcd feats : tensor2)
    (scores_overlap scores_saliency : list Q) : halves :=
  {| src_pcd := Py.slice_to len_src pcd;
     tgt_pcd := Py.slice_from len_src pcd;
     src_feats := Py.slice_to len_src feats;
     tgt_feats := Py.slice_from len_src feats;
     src_overlap := Py.slice_to len_src scores_overlap;
     tgt_overlap := Py.slice_from len_src scores_overlap;
     src_saliency := Py.slice_to len_src scores_saliency;
     tgt_saliency := Py.slice_from len_src scores_saliency |}.

(** Lines 160 to 165 (source) and 167 to 172 (target) of [predator_infer]:
    a cloud of more than [n_points] points is cut down to [n_points]
    points drawn with probabilities [scores / scores.sum()]. *)
Definition subsample (n_points : Z) (pcd feats : tensor2) (scores : list Q)
    (g : Np.rng) : result (tensor2 * tensor2 * Np.rng) :=
  if n_points <? Z.of_nat (length pcd) then
    let probs := Torch.div_scalar scores (Torch.sum scores) in
    '(idx, g1) <- Np.choice (length pcd) n_points probs g ;;
    pcd1 <- Torch.index pcd idx ;;
    feats1 <- Torch.index feats idx ;;
    Ok (pcd1, feats1, g1)
  else Ok (pcd, feats, g).

(** Lines 184 to 195 of [predator_infer]. *)
Definition package (tsfm : option (list (list Q))) : dict :=
  match tsfm with
  | None => [("transform"%string, PyNone)]
  | Some m => [("transform"%string, PyRows m)]
  end.

Section Service.

(** Two functions of the project that [predator_infer] calls are defined in
    files that are not part of these sources, and are parameters here.
    - [get_dataloader] (datasets/dataloader.py) wraps the data set in a
      [torch.utils.data.DataLoader]; [collate_fn] is the collate function
      it gives to the loader.
    - [ransac_pose_estimation] (lib/benchmark_utils.py) is the pose
      estimator; it returns a matrix or [None]. *)
Variable collate_fn : config -> list ThreeDMatchDemo.entry -> result batch.
Variable ransac_pose_estimation :
  tensor2 -> tensor2 -> tensor2 -> tensor2 -> bool -> result (option (list (list Q))).

(** [next(iter(demo_loader))] for the loader over the data set of one
    item, without shuffling and without worker processes: a
    [DataLoader] refuses a batch size of 0; the first batch is made of
    item 0, fetched with [__getitem__], and is passed to the collate
    function. *)
Definition first_batch (cfg : config) (demo_set : ThreeDMatchDemo.t) : result batch :=
  if (batch_size cfg =? 0)%nat then Raise ValueError
  else
    it <- ThreeDMatchDemo.getitem demo_set 0 ;;
    collate_fn cfg [it].

(** Steps 1 to 4 of [predator_infer]: the key points and their features
    handed to the pose estimator.  Moving the batch to the device changes
    no value, and the two clones [src_raw] and [tgt_raw] are never read. *)
Definition predator_keypoints (cfg : config) (src_points tgt_points : cloud)
    (g : Np.rng) : result (tensor2 * tensor2 * tensor2 * tensor2 * Np.rng) :=
  demo_set <- ThreeDMatchDemo.init src_points tgt_points ;;
  inputs <- first_batch cfg demo_set ;;
  '(feats, scores_overlap, scores_saliency) <- model cfg inputs ;;
  pcd <- Py.getitem (points inputs) 0 ;;
  lens <- Py.getitem (stack_lengths inputs) 0 ;;
  len_src <- Py.getitem lens 0 ;;
  let h := split_outputs len_src pcd feats scores_overlap scores_saliency in
  src_scores <- Torch.mul (src_overlap h) (src_saliency h) ;;
  tgt_scores <- Torch.mul (tgt_overlap h) (tgt_saliency h) ;;
  '(src_pcd1, src_feats1, g1) <-
     subsample (n_points cfg) (src_pcd h) (src_feats h) src_scores g ;;
  '(tgt_pcd1, tgt_feats1, g2) <-
     subsample (n_points cfg) (tgt_pcd h) (tgt_feats h) tgt_scores g1 ;;
  Ok (src_pcd1, tgt_pcd1, src_feats1, tgt_feats1, g2).

(** [predator_infer(config, src_points, tgt_points)] *)
Definition predator_infer (cfg : config) (src_points tgt_points : cloud)
    (g : Np.rng) : result (dict * Np.rng) :=
  '(src_pcd1, tgt_pcd1, src_feats1, tgt_feats1, g2) <-
     predator_keypoints cfg src_points tgt_points g ;;
  tsfm <- ransac_pose_estimation src_pcd1 tgt_pcd1 src_feats1 tgt_feats1 false ;;
  Ok (package tsfm, g2).

(** [PredatorHandler.do_POST] on the decoded request body [data]: the
    status and the body of the response. *)
Definition do_POST (cfg : config) (data : list (string * cloud)) (g : Np.rng)
    : result (nat * dict * Np.rng) :=
  src_points <- Py.lookup "src" data ;;
  tgt_points <- Py.lookup "tgt" data ;;
  '(res, g1) <- predator_infer cfg src_points tgt_points g ;;
  Ok (200%nat, res, g1).

End Service.

(** The start-up code of lines 35 to 44: the list [config.architecture],
    built by appending block names.  [append_each n block arch] is the loop
    [for i in range(n)] that appends the names of [block] to [arch]; a
    negative bound of [range] gives no round. *)
Fixpoint append_each (n : nat) (block arch : list string) : list string :=
  match n with
  | O => arch
  | S k => append_each k block (arch ++ block)
  end.

Definition architecture (num_layers : Z) : list string :=
  let arch := ["simple"; "resnetb"]%string in
  let arch := append_each (Z.to_nat (num_layers - 1))
                ["resnetb_strided"; "resnetb"; "resnetb"]%string arch in
  let arch := append_each (Z.to_nat (num_layers - 2))
                ["nearest_upsample"; "unary"]%string arch in
  let arch := arch ++ ["nearest_upsample"%string] in
  arch ++ ["last_unary"%string].

(** ** The visualizer ([web_pointcloud_visualizer.py]) *)

Module Visualizer.

(** What [torch.load] returns for one result file. *)
Record data : Type := {
  d_pcd : Arr.mat;
  d_len_src : Z;
  d_rot : Arr.mat;
  d_trans : Arr.mat
}.

(** The dict [sample_data], as a record. *)
Record sample_data : Type := {
  sample_id : nat;
  filename : string;
  source_points : list (list Q);
  target_points : list (list Q);
  source_transformed : list (list Q);
  rotation : list (list Q);
  translation : list (list Q);
  matrix : list (list Q);
  source_original : nat;
  target_original : nat;
  source_downsampled : nat;
  target_downsampled : nat;
  downsample_factor : Z
}.

(** The body of the [try] block of [load_test_results] for the [i]-th
    file.  The arithmetic of line 69 is exact here; [src_transformed_f32]
    below is this line in single precision. *)
Definition load_sample (i : nat) (name : string) (d : data) (factor : Z)
    : result sample_data :=
  let pcd := d_pcd d in
  let len_src := d_len_src d in
  let rot := d_rot d in
  let trans := d_trans d in
  let src_pcd := Arr.slice_to len_src pcd in
  let tgt_pcd := Arr.slice_from len_src pcd in
  src_points <- Arr.slice_step factor src_pcd ;;
  tgt_points <- Arr.slice_step factor tgt_pcd ;;
  let transform_matrix := Arr.eye 4 in
  transform_matrix <- Arr.set_block transform_matrix 3 3 rot ;;
  transform_matrix <- Arr.set_col transform_matrix 3 3 (Arr.flatten trans) ;;
  rotated <- Arr.matmul rot (Arr.transpose src_points) ;;
  moved <- Arr.add rotated trans ;;
  let src_transformed := Arr.transpose moved in
  Ok {| sample_id := i;
        filename := name;
        source_points := Arr.tolist src_points;
        target_points := Arr.tolist tgt_points;
        source_transformed := Arr.tolist src_transformed;
        rotation := Arr.tolist rot;
        translation := Arr.tolist trans;
        matrix := Arr.tolist transform_matrix;
        source_original := Arr.nrows src_pcd;
        target_original := Arr.nrows tgt_pcd;
        source_downsampled := Arr.nrows src_points;
        target_downsampled := Arr.nrows tgt_points;
        downsample_factor := factor |}.



(** The loop of [load_test_results] over the result files, each given
    by its name and by what [torch.load] does on it: a file whose loading
    or whose body raises is skipped, the others are appended to
    [self.results]. *)
Fixpoint load_from (i : nat) (files : list (string * result data)) (factor : Z)
    (results : list sample_data) : list sample_data :=
  match files with
  | [] => results
  | (name, loaded) :: r =>
      match d <- loaded ;; load_sample i name d factor with
      | Ok s => load_from (S i) r factor (results ++ [s])
      | Raise _ => load_from (S i) r factor results
      end
  end.

(** [load_test_results(max_samples, downsample_factor)] on the files the
    directory holds, from the state [results] of [self.results]: the new
    state and the returned flag.  The loop runs over the slice
    [result_files[:max_samples]], whose bound is any integer.  (A missing
    directory is like an empty one: the method returns [False] at
    once.) *)
Definition load_test_results (result_files : list (string * result data))
    (max_samples : Z) (downsample_factor : Z) (results : list sample_data)
    : list sample_data * bool :=
  match result_files with
  | [] => (results, false)
  | _ =>
      let results1 :=
        load_from 0 (Py.slice_to max_samples result_files) downsample_factor results in
      (results1, (0 <? length results1)%nat)
  end.

(** What [main] does after the results are loaded. *)
Inductive step : Type :=
| GenerateWebInterface
| StartWebServer (results : list sample_data)
| ReportFailure.

(** [main()]: a fresh visualizer ([self.results = []]) loads the results
    with the default arguments, 20 samples at most and a factor of 10;
    the page is written and the server started, on the results loaded,
    only if the loading returns [True]. *)
Definition main (result_files : list (string * result data)) : list step :=
  let (results, loaded) := load_test_results result_files 20 10 [] in
  if loaded then [GenerateWebInterface; StartWebServer results]
  else [ReportFailure].

End Visualizer.

(** ** Vocabulary of the statements *)




(** Equality of vectors of rationals, up to the representation of each
    rational. *)
Definition veq (u v : list Q) : Prop := Forall2 Qeq u v.

(** A 4 by 4 nested list. *)
Definition is_4x4 (m : list (list Q)) : Prop :=
  length m = 4%nat /\ Forall (fun r => length r = 4%nat) m.

(** The response has the one key ["transform"], bound to [None] or to a
    4 by 4 nested list. *)
Definition well_formed_response (d : dict) : Prop :=
  exists v, d = [("transform"%string, v)] /\
            (v = PyNone \/ exists m, v = PyRows m /\ is_4x4 m).

(** The number of positive weights. *)
Definition positives (w : list Q) : nat :=
  length (filter (fun x => negb (Qle_bool x 0)) w).

(** The shapes of the arrays of a result file: a cloud of 3-D points, a
    3 by 3 rotation and a 3 by 1 translation. *)
Definition well_shaped (d : Visualizer.data) : Prop :=
  Arr.wf (Visualizer.d_pcd d) /\ Arr.ncols (Visualizer.d_pcd d) = 3%nat /\
  Arr.wf (Visualizer.d_rot d) /\
  Arr.nrows (Visualizer.d_rot d) = 3%nat /\ Arr.ncols (Visualizer.d_rot d) = 3%nat /\
  Arr.wf (Visualizer.d_trans d) /\
  Arr.nrows (Visualizer.d_trans d) = 3%nat /\ Arr.ncols (Visualizer.d_trans d) = 1%nat.

(** The exception classes the specification names; no line of the
    sources defines or raises them. *)
Definition InvalidInputError : exn := Custom "InvalidInputError".
Definition InvalidScoreError : exn := Custom "InvalidScoreError".
Definition InvalidConfigError : exn := Custom "InvalidConfigError".

(** ** Instances for the examples *)

(** A generator whose [i]-th raw output is [(3 i + 1) * 2^50]: its draws
    are 1/8, 4/8, 7/8, 2/8, ... *)
Definition example_rng : Np.rng :=
  {| Np.raw := fun i => ((3 * N.of_nat i + 1) * 1125899906842624)%N; Np.pos := 0 |}.

(** The rows of an array. *)
Definition rows_of (a : Arr.ndarray) : list (list Q) :=
  match a with
  | Arr.A1 _ => []
  | Arr.A2 m => Arr.rows m
  end.

(** A collate function that stacks the source points on the target
    points and records the two lengths. *)
Definition example_collate (cfg : config) (items : list ThreeDMatchDemo.entry)
    : result batch :=
  match items with
  | [it] =>
      let s := rows_of (ThreeDMatchDemo.it_src_pcd it) in
      let t := rows_of (ThreeDMatchDemo.it_tgt_pcd it) in
      Ok {| points := [s ++ t];
            stack_lengths := [[Z.of_nat (length s); Z.of_nat (length t)]] |}
  | _ => Raise ValueError
  end.

(** A network that gives every point the feature vector [[1]], the
    overlap score 1/2 and the saliency score 1/3. *)
Definition example_model (b : batch) : result (tensor2 * list Q * list Q) :=
  match points b with
  | pcd :: _ => Ok (map (fun _ => [1%Q]) pcd,
                    map (fun _ => 1 # 2) pcd,
                    map (fun _ => 1 # 3) pcd)
  | [] => Raise IndexError
  end.

Definition example_config (k : Z) : config :=
  {| n_points := k; batch_size := 1; neighborhood_limits := [];
     model := example_model |}.

(** A network that finds no overlap: every overlap score is 0. *)
Definition no_overlap_model (b : batch) : result (tensor2 * list Q * list Q) :=
  match points b with
  | pcd :: _ => Ok (map (fun _ => [1%Q]) pcd,
                    map (fun _ => 0%Q) pcd,
                    map (fun _ => 1 # 2) pcd)
  | [] => Raise IndexError
  end.

Definition no_overlap_config (k : Z) : config :=
  {| n_points := k; batch_size := 1; neighborhood_limits := [];
     model := no_overlap_model |}.

(** A pose estimator that answers the identity when it gets at least
    three source points and [None] otherwise. *)
Definition example_ransac (src tgt src_f tgt_f : tensor2) (mutual : bool)
    : result (option (list (list Q))) :=
  if (3 <=? length src)%nat then Ok (Some (Arr.rows (Arr.eye 4))) else Ok None.

(** The result file of the examples: four points, of which the first
    three are source points, a quarter turn about the z axis and a shift
    by (1, 0, 0). *)
Definition example_data : Visualizer.data :=
  {| Visualizer.d_pcd :=
       {| Arr.nrows := 4; Arr.ncols := 3;
          Arr.rows := [[1; 2; 3]; [4; 5; 6]; [7; 8; 9]; [0; 0; 0]]%Q |};
     Visualizer.d_len_src := 3;
     Visualizer.d_rot :=
       {| Arr.nrows := 3; Arr.ncols := 3;
          Arr.rows := [[0; -1; 0]; [1; 0; 0]; [0; 0; 1]]%Q |};
     Visualizer.d_trans :=
       {| Arr.nrows := 3; Arr.ncols := 1; Arr.rows := [[1]; [0]; [0]]%Q |} |}.

(** * Properties *)

(** Settles the integer comparisons of the goal that [lia] decides. *)
Ltac settle_ltb :=
  repeat match goal with
         | |- context [(?a <? ?b)%Z] =>
             first [ replace (a <? b)%Z with true
                       by (symmetry; apply Z.ltb_lt; lia)
                   | replace (a <? b)%Z with false
                       by (symmetry; apply Z.ltb_ge; lia) ]
         end.

(** ** Python slices *)

Section Slices.

Context {A : Type}.

Lemma slice_to_from (k : Z) (x : list A) :
  Py.slice_to k x ++ Py.slice_from k x = x.
Proof. apply firstn_skipn. Qed.

Lemma clip_le (n : nat) (k : Z) : (Py.clip n k <= n)%nat.
Proof. unfold Py.clip. destruct (k <? 0) eqn:E; lia. Qed.

Lemma length_slice_to (k : Z) (x : list A) :
  length (Py.slice_to k x) = Py.clip (length x) k.
Proof.
  unfold Py.slice_to. rewrite length_firstn.
  pose proof (clip_le (length x) k). lia.
Qed.

Lemma nth_error_slice_to (k : Z) (x : list A) (i : nat) :
  (i < Py.clip (length x) k)%nat ->
  nth_error (Py.slice_to k x) i = nth_error x i.
Proof.
  intros H. unfold Py.slice_to. rewrite nth_error_firstn.
  apply Nat.ltb_lt in H. now rewrite H.
Qed.

Lemma nth_error_slice_from (k : Z) (x : list A) (i : nat) :
  nth_error (Py.slice_from k x) i = nth_error x (Py.clip (length x) k + i).
Proof. apply nth_error_skipn. Qed.

Lemma length_every (gap : nat) (x : list A) :
  forall wait, (wait <= gap)%nat ->
  length (Py.every gap wait x) = ((length x + gap - wait) / S gap)%nat.
Proof.
  induction x as [|a r IH]; intros wait Hw.
  - cbn [Py.every length]. symmetry. apply Nat.div_small. lia.
  - destruct wait as [|w]; cbn [Py.every length].
    + rewrite IH by lia.
      replace (S (length r) + gap - 0)%nat with (length r + 1 * S gap)%nat by lia.
      rewrite Nat.div_add by lia.
      replace (length r + gap - gap)%nat with (length r) by lia. lia.
    + rewrite IH by lia. f_equal.
Qed.

Lemma nth_every (gap : nat) (d : A) (x : list A) :
  forall wait i,
  nth i (Py.every gap wait x) d = nth (wait + i * S gap) x d.
Proof.
  induction x as [|a r IH]; intros wait i.
  - cbn [Py.every]. now destruct i, (wait + _ * _)%nat.
  - destruct wait as [|w]; cbn [Py.every].
    + destruct i as [|j]; [reflexivity|].
      cbn [nth]. rewrite IH.
      replace (0 + S j * S gap)%nat with (S (gap + j * S gap)) by lia.
      reflexivity.
    + rewrite IH. reflexivity.
Qed.

Example slices_of_a_list :
  Py.slice_to 2 [10; 11; 12; 13; 14] = [10; 11] /\
  Py.slice_from (-2) [10; 11; 12; 13; 14] = [13; 14] /\
  Py.slice_to 9 [10; 11; 12; 13; 14] = [10; 11; 12; 13; 14] /\
  Py.slice_step 2 [10; 11; 12; 13; 14] = Ok [10; 12; 14] /\
  Py.slice_step (-2) [10; 11; 12; 13; 14] = Ok [14; 12; 10] /\
  Py.slice_step 0 [10; 11; 12; 13; 14] = Raise ValueError.
Proof. repeat split. Qed.

(** [x[::d]] for a positive step: the length is the ceiling of
    [len(x) / d] and the [i]-th element is [x[i * d]]. *)
Lemma slice_step_pos (d : Z) (x : list A) :
  1 <= d ->
  exists y,
    Py.slice_step d x = Ok y /\
    Z.of_nat (length y) = (Z.of_nat (length x) + d - 1) / d /\
    forall i, (i < length y)%nat ->
              nth_error y i = nth_error x (i * Z.to_nat d).
Proof.
  intros Hd. unfold Py.slice_step.
  destruct (d =? 0) eqn:E0; [lia|].
  destruct (0 <? d) eqn:E1; [|lia].
  eexists; split; [reflexivity|].
  assert (HS : S (Z.to_nat d - 1) = Z.to_nat d) by lia.
  assert (Hlen : length (Py.every (Z.to_nat d - 1) 0 x)
                 = ((length x + (Z.to_nat d - 1)) / Z.to_nat d)%nat).
  { rewrite length_every by lia. rewrite HS. f_equal. lia. }
  split.
  - rewrite Hlen, Nat2Z.inj_div. f_equal; lia.
  - intros i Hi.
    assert (Hx : (i * Z.to_nat d < length x)%nat).
    { rewrite Hlen in Hi.
      set (n := Z.to_nat d) in *. set (m := length x) in *.
      assert (Hn : n <> 0%nat) by (unfold n; lia).
      pose proof (Nat.div_mod_eq (m + (n - 1)) n) as Hdm.
      pose proof (Nat.mod_upper_bound (m + (n - 1)) n Hn).
      nia. }
    destruct x as [|a r]; [cbn in Hx; lia|].
    rewrite (nth_error_nth' _ a Hi), (nth_error_nth' _ a Hx).
    rewrite nth_every, HS. reflexivity.
Qed.

End Slices.

(** ** The visualizer's down-sampling *)



(** ** Splitting the stacked outputs *)

(** C8.  The stacked points, feature vectors, overlap scores and saliency
    scores are cut at the same position [c] (the position [len_src]
    denotes): the source part followed by the target part is the stacked
    array again, and the point of index [i] of either part comes with the
    feature vector and the two scores that had its index in the stacked
    arrays. *)
Theorem split_outputs_aligned (len_src : Z) (pcd feats : tensor2)
    (scores_overlap scores_saliency : list Q) :
  length feats = length pcd ->
  length scores_overlap = length pcd ->
  length scores_saliency = length pcd ->
  let h := split_outputs len_src pcd feats scores_overlap scores_saliency in
  let c := Py.clip (length pcd) len_src in
  (src_pcd h ++ tgt_pcd h = pcd /\
   src_feats h ++ tgt_feats h = feats /\
   src_overlap h ++ tgt_overlap h = scores_overlap /\
   src_saliency h ++ tgt_saliency h = scores_saliency) /\
  (length (src_pcd h) = c /\ length (src_feats h) = c /\
   length (src_overlap h) = c /\ length (src_saliency h) = c) /\
  (forall i, (i < c)%nat ->
     nth_error (src_pcd h) i = nth_error pcd i /\
     nth_error (src_feats h) i = nth_error feats i /\
     nth_error (src_overlap h) i = nth_error scores_overlap i /\
     nth_error (src_saliency h) i = nth_error scores_saliency i) /\
  (forall i,
     nth_error (tgt_pcd h) i = nth_error pcd (c + i) /\
     nth_error (tgt_feats h) i = nth_error feats (c + i) /\
     nth_error (tgt_overlap h) i = nth_error scores_overlap (c + i) /\
     nth_error (tgt_saliency h) i = nth_error scores_saliency (c + i)).
Proof.
  intros Hf Ho Hs h c. subst h c. cbn [split_outputs src_pcd tgt_pcd src_feats
    tgt_feats src_overlap tgt_overlap src_saliency tgt_saliency].
  split; [repeat split; apply slice_to_from|].
  split; [rewrite !length_slice_to, Hf, Ho, Hs; repeat split|].
  split.
  - intros i Hi.
    repeat split; apply nth_error_slice_to; rewrite ?Hf, ?Ho, ?Hs; exact Hi.
  - intros i. rewrite !nth_error_slice_from, Hf, Ho, Hs. repeat split.
Qed.

Lemma split_outputs_aligned_witness :
  let h := split_outputs 1 [[1;2;3]; [4;5;6]]%Q [[7]; [8]]%Q [1#2; 1#3] [1#4; 1#5] in
  src_pcd h ++ tgt_pcd h = [[1;2;3]; [4;5;6]]%Q /\
  nth_error (tgt_feats h) 0 = Some [8]%Q.
Proof.
  destruct (@split_outputs_aligned 1 [[1;2;3]; [4;5;6]]%Q [[7]; [8]]%Q
              [1#2; 1#3] [1#4; 1#5] eq_refl eq_refl eq_refl)
    as ((H1 & _) & _ & _ & H4).
  split; [exact H1|]. exact (proj1 (proj2 (H4 0%nat))).
Defined.

(** ** The scoring combiner *)

Lemma nth_error_zip_mul (a b : list Q) :
  forall i x y,
  nth_error a i = Some x -> nth_error b i = Some y ->
  nth_error (map (fun xy => (fst xy * snd xy)%Q) (combine a b)) i = Some (x * y)%Q.
Proof.
  revert b. induction a as [|u a IH]; intros [|v b] [|i] x y Ha Hb;
    cbn in *; try discriminate.
  - now injection Ha as <-; injection Hb as <-.
  - now apply IH.
Qed.

Lemma mul_same_length (o s : list Q) :
  length o = length s ->
  Torch.mul o s = Ok (map (fun xy => (fst xy * snd xy)%Q) (combine o s)).
Proof.
  intros H. unfold Torch.mul. apply Nat.eqb_eq in H. now rewrite H.
Qed.

(** C6, the claim as stated fails: scores outside of the interval from 0
    to 1 are multiplied like any others, arrays of lengths 2 and 1 are
    broadcast, and the failure on arrays of lengths 2 and 3 is a
    [RuntimeError], not an [InvalidScoreError]. *)
Lemma combiner_accepts_out_of_range :
  ~ (0 <= 2 <= 1)%Q /\
  Torch.mul [2; -3]%Q [1#2; 7]%Q = Ok [2 * (1#2); -3 * 7]%Q /\
  Torch.mul [1#2; 1#3]%Q [1#2]%Q = Ok [(1#2) * (1#2); (1#3) * (1#2)]%Q /\
  Torch.mul [1#2; 1#4]%Q [1#2; 1#4; 1]%Q = Raise RuntimeError /\
  RuntimeError <> InvalidScoreError.
Proof.
  split; [|split; [reflexivity|split; [reflexivity|split; [reflexivity|discriminate]]]].
  intros [_ H]. apply Qle_bool_iff in H. discriminate H.
Qed.

(** The lengths on which the tensor product fails. *)
Lemma mul_mismatch (o s : list Q) :
  length o <> length s -> length o <> 1%nat -> length s <> 1%nat ->
  Torch.mul o s = Raise RuntimeError.
Proof.
  intros H Ho Hs. unfold Torch.mul.
  apply Nat.eqb_neq in H. rewrite H.
  destruct o as [|x [|x' o]], s as [|y [|y' s]]; cbn in Ho, Hs; try reflexivity;
    congruence.
Qed.

Lemma mul_broadcast (o s : list Q) :
  length o = 1%nat \/ length s = 1%nat -> exists w, Torch.mul o s = Ok w.
Proof.
  intros H. unfold Torch.mul.
  destruct (length o =? length s)%nat; [eexists; reflexivity|].
  destruct o as [|x [|x' o]], s as [|y [|y' s]]; cbn in H;
    try (eexists; reflexivity); destruct H; discriminate.
Qed.

(** C6, amended.  The combiner checks no range and knows no
    [InvalidScoreError].  On score arrays of the same length it does not
    fail, whatever the values are, in the interval from 0 to 1 or not.  On
    arrays of different lengths it fails, with the [RuntimeError] of the
    tensor product, unless one of the two has length 1, which is
    broadcast; and it fails in no other case and with no other
    exception. *)
Theorem combiner_failures (overlap saliency : list Q) :
  (length overlap = length saliency ->
   exists w, Torch.mul overlap saliency = Ok w /\ length w = length overlap) /\
  (length overlap <> length saliency ->
   length overlap <> 1%nat -> length saliency <> 1%nat ->
   Torch.mul overlap saliency = Raise RuntimeError /\
   RuntimeError <> InvalidScoreError) /\
  (length overlap = 1%nat \/ length saliency = 1%nat ->
   exists w, Torch.mul overlap saliency = Ok w) /\
  (forall e, Torch.mul overlap saliency = Raise e ->
     e = RuntimeError /\ e <> InvalidScoreError /\
     length overlap <> length saliency /\
     length overlap <> 1%nat /\ length saliency <> 1%nat).
Proof.
  split; [|split; [|split]].
  - intros H. eexists. split; [apply (mul_same_length _ _ H)|].
    rewrite length_map, length_combine. lia.
  - intros H Ho Hs. split; [now apply mul_mismatch | discriminate].
  - apply mul_broadcast.
  - intros e. unfold Torch.mul.
    destruct (length overlap =? length saliency)%nat eqn:E; [discriminate|].
    apply Nat.eqb_neq in E.
    destruct overlap as [|x [|x' o]], saliency as [|y [|y' s]];
      try discriminate; cbn in E |- *;
      intros [= <-]; repeat split; try discriminate; try lia.
Qed.

Lemma combiner_failures_witness :
  (exists w, Torch.mul [2]%Q [3]%Q = Ok w /\ length w = 1%nat) /\
  Torch.mul [1; 2]%Q [1; 2; 3]%Q = Raise RuntimeError /\
  (exists w, Torch.mul [1; 2]%Q [3]%Q = Ok w).
Proof.
  split; [|split].
  - exact (proj1 (combiner_failures [2]%Q [3]%Q) eq_refl).
  - apply (proj1 (proj2 (combiner_failures [1; 2]%Q [1; 2; 3]%Q)));
      cbn; discriminate.
  - apply (proj1 (proj2 (proj2 (combiner_failures [1; 2]%Q [3]%Q)))).
    right. reflexivity.
Defined.

(** ** The random source *)

Lemma random_sample_range (g : Np.rng) :
  (0 <= fst (Np.random_sample g) < 1)%Q.
Proof.
  unfold Np.random_sample, Np.two53. cbn [fst].
  unfold Qle, Qlt; cbn [Qnum Qden].
  set (n := Np.raw g (Np.pos g)).
  assert (H : (n mod 9007199254740992 < 9007199254740992)%N)
    by (apply N.mod_lt; discriminate).
  set (m := (n mod 9007199254740992)%N) in *. clearbody m.
  split; lia.
Qed.

Lemma rand_spec (n : nat) :
  forall g,
  length (fst (Np.rand n g)) = n /\
  Forall (fun x => 0 <= x < 1)%Q (fst (Np.rand n g)).
Proof.
  induction n as [|n IH]; intros g; cbn [Np.rand].
  - split; [reflexivity | constructor].
  - pose proof (random_sample_range g) as Hx.
    destruct (Np.random_sample g) as [x g1].
    specialize (IH g1). destruct (Np.rand n g1) as [xs g2].
    cbn [fst] in *. destruct IH as [Hl Hf].
    split; [cbn; now rewrite Hl | now constructor].
Qed.

(** ** Removing duplicates *)

Lemma unique_first_in (new : list nat) :
  forall seen a, In a (Np.unique_first seen new) -> In a new /\ ~ In a seen.
Proof.
  induction new as [|b r IH]; intros seen a; cbn [Np.unique_first].
  - intros [].
  - destruct (existsb (Nat.eqb b) seen) eqn:E.
    + intros H. apply IH in H. split; [right|]; tauto.
    + intros [<- | H].
      * split; [now left|]. intros Hin.
        assert (existsb (Nat.eqb b) seen = true) as E'
          by (apply existsb_exists; exists b; split; [exact Hin | apply Nat.eqb_refl]).
        congruence.
      * apply IH in H. destruct H as [H1 H2].
        split; [now right|]. intros Hin. apply H2. now right.
Qed.

Lemma unique_first_nodup (new : list nat) :
  forall seen, NoDup (Np.unique_first seen new).
Proof.
  induction new as [|b r IH]; intros seen; cbn [Np.unique_first].
  - constructor.
  - destruct (existsb (Nat.eqb b) seen); [apply IH|].
    constructor; [|apply IH].
    intros H. apply unique_first_in in H. apply (proj2 H). now left.
Qed.

Lemma unique_first_length (new : list nat) :
  forall seen, (length (Np.unique_first seen new) <= length new)%nat.
Proof.
  induction new as [|b r IH]; intros seen; cbn [Np.unique_first length].
  - lia.
  - destruct (existsb (Nat.eqb b) seen); cbn [length];
      [specialize (IH seen) | specialize (IH (b :: seen))]; lia.
Qed.

Lemma unique_first_progress (new : list nat) :
  new <> [] -> (1 <= length (Np.unique_first [] new))%nat.
Proof.
  destruct new as [|b r]; [congruence|]. intros _. cbn. lia.
Qed.

(** ** Zeroing entries of the distribution *)

Lemma length_set_zero (p : list Q) :
  forall i, length (Np.set_zero i p) = length p.
Proof.
  induction p as [|a r IH]; intros [|i]; cbn; auto.
Qed.

Lemma nth_set_zero (p : list Q) :
  forall i j, nth i (Np.set_zero j p) 0%Q = if (i =? j)%nat then 0%Q else nth i p 0%Q.
Proof.
  induction p as [|a r IH]; intros i j.
  - cbn. destruct j, i; cbn; try reflexivity; now destruct (_ =? _)%nat.
  - destruct j as [|j], i as [|i]; cbn; try reflexivity. apply IH.
Qed.

Lemma length_zero_at (found : list nat) :
  forall p, length (Np.zero_at found p) = length p.
Proof.
  unfold Np.zero_at. induction found as [|i r IH]; intros p; cbn; [reflexivity|].
  now rewrite IH, length_set_zero.
Qed.

Lemma nth_zero_at (found : list nat) :
  forall p i,
  nth i (Np.zero_at found p) 0%Q
  = if existsb (Nat.eqb i) found then 0%Q else nth i p 0%Q.
Proof.
  unfold Np.zero_at. induction found as [|j r IH]; intros p i; cbn; [reflexivity|].
  rewrite IH, nth_set_zero.
  destruct (i =? j)%nat; cbn; [now destruct (existsb _ r) | reflexivity].
Qed.

Lemma zero_at_idem (found : list nat) (p : list Q) :
  Np.zero_at found (Np.zero_at found p) = Np.zero_at found p.
Proof.
  apply nth_ext with (d := 0%Q) (d' := 0%Q).
  - now rewrite !length_zero_at.
  - intros i _. rewrite !nth_zero_at. now destruct (existsb _ found).
Qed.

Lemma zero_at_app (f1 f2 : list nat) (p : list Q) :
  Np.zero_at (f1 ++ f2) p = Np.zero_at f2 (Np.zero_at f1 p).
Proof. apply fold_left_app. Qed.

(** ** Counting the positive weights *)

Lemma pos_test (x : Q) : negb (Qle_bool x 0) = true <-> (0 < x)%Q.
Proof.
  rewrite negb_true_iff. split.
  - intros H. apply Qnot_le_lt. intros Hle. apply Qle_bool_iff in Hle. congruence.
  - intros H. destruct (Qle_bool x 0) eqn:E; [|reflexivity].
    apply Qle_bool_iff in E. lra.
Qed.

Lemma positives_cons (a : Q) (p : list Q) :
  positives (a :: p) = ((if negb (Qle_bool a 0) then 1 else 0) + positives p)%nat.
Proof. unfold positives. cbn. now destruct (negb (Qle_bool a 0)). Qed.

Lemma positives_set_zero (p : list Q) :
  forall i, (0 < nth i p 0)%Q ->
  (positives (Np.set_zero i p) + 1 = positives p)%nat.
Proof.
  induction p as [|a r IH]; intros i H.
  - destruct i; cbn in H; lra.
  - destruct i as [|i]; cbn [Np.set_zero nth] in *; rewrite !positives_cons.
    + apply pos_test in H. rewrite H. cbn. lia.
    + specialize (IH i H). lia.
Qed.

Lemma positives_zero_at (new : list nat) :
  forall p, NoDup new -> (forall i, In i new -> (0 < nth i p 0)%Q) ->
  (positives (Np.zero_at new p) + length new = positives p)%nat.
Proof.
  induction new as [|i r IH]; intros p Hnd Hpos; cbn [length].
  - unfold Np.zero_at. cbn [fold_left]. lia.
  - change (Np.zero_at (i :: r) p) with (Np.zero_at r (Np.set_zero i p)).
    inversion Hnd as [|? ? Hni Hr]; subst.
    rewrite <- (positives_set_zero p i) by (apply Hpos; now left).
    rewrite <- (IH (Np.set_zero i p) Hr); [lia|].
    intros j Hj. rewrite nth_set_zero.
    destruct (j =? i)%nat eqn:E.
    + apply Nat.eqb_eq in E. subst. contradiction.
    + apply Hpos. now right.
Qed.

Lemma sum_nonneg (p : list Q) :
  Forall (fun x => 0 <= x)%Q p -> (0 <= Torch.sum p)%Q.
Proof.
  induction 1 as [|a r Ha _ IH]; cbn; [lra|].
  change (fold_right Qplus 0%Q r) with (Torch.sum r). lra.
Qed.

Lemma sum_pos (p : list Q) :
  Forall (fun x => 0 <= x)%Q p -> (1 <= positives p)%nat -> (0 < Torch.sum p)%Q.
Proof.
  induction 1 as [|a r Ha Hr IH]; intros Hp.
  - cbn in Hp. lia.
  - rewrite positives_cons in Hp. cbn.
    change (fold_right Qplus 0%Q r) with (Torch.sum r).
    pose proof (sum_nonneg Hr).
    destruct (negb (Qle_bool a 0)) eqn:E.
    + apply pos_test in E. lra.
    + specialize (IH ltac:(lia)). lra.
Qed.

Lemma zero_at_nonneg (found : list nat) (p : list Q) :
  Forall (fun x => 0 <= x)%Q p -> Forall (fun x => 0 <= x)%Q (Np.zero_at found p).
Proof.
  intros H. apply Forall_forall. intros x Hx.
  destruct (In_nth _ _ 0%Q Hx) as (i & Hi & <-).
  rewrite nth_zero_at. destruct (existsb _ found); [lra|].
  rewrite Forall_forall in H. apply H, nth_In.
  now rewrite length_zero_at in Hi.
Qed.

(** ** Looking a draw up in the cumulative distribution *)

Lemma div_le_iff (c T x : Q) : (0 < T)%Q -> (c / T <= x <-> c <= x * T)%Q.
Proof.
  intros HT. split; intros H.
  - assert (E : (c == c / T * T)%Q) by (field; lra).
    rewrite E. apply Qmult_le_compat_r; lra.
  - apply Qle_shift_div_r; assumption.
Qed.

Lemma last_cumsum (p : list Q) :
  forall acc, p <> [] -> (last (Np.cumsum_from acc p) 0 == acc + Torch.sum p)%Q.
Proof.
  induction p as [|a r IH]; intros acc Hne; [congruence|].
  destruct r as [|b r].
  - cbn. lra.
  - change (Np.cumsum_from acc (a :: b :: r))
      with ((acc + a)%Q :: Np.cumsum_from (acc + a) (b :: r)).
    assert (Hc : Np.cumsum_from (acc + a) (b :: r) <> []) by (cbn; congruence).
    destruct (Np.cumsum_from (acc + a) (b :: r)) as [|c cs] eqn:Ec; [congruence|].
    change (last ((acc + a)%Q :: c :: cs) 0%Q) with (last (c :: cs) 0%Q).
    rewrite <- Ec, IH by congruence.
    change (Torch.sum (a :: b :: r)) with (a + Torch.sum (b :: r))%Q. lra.
Qed.

Lemma searchsorted_hit (T x : Q) (p : list Q) :
  (0 < T)%Q -> Forall (fun w => 0 <= w)%Q p ->
  forall acc, (acc <= x * T)%Q -> (x * T < acc + Torch.sum p)%Q ->
  let i := Np.searchsorted_right (map (fun c => c / T)%Q (Np.cumsum_from acc p)) x in
  (i < length p)%nat /\ (0 < nth i p 0)%Q.
Proof.
  intros HT Hp. induction Hp as [|a r Ha Hr IH]; intros acc Hlo Hhi.
  - cbn in Hhi. lra.
  - cbn [Np.cumsum_from map Np.searchsorted_right].
    change (Torch.sum (a :: r)) with (a + Torch.sum r)%Q in Hhi.
    destruct (Qle_bool ((acc + a) / T) x) eqn:E.
    + apply Qle_bool_iff, div_le_iff in E; [|exact HT].
      destruct (IH (acc + a)%Q E ltac:(lra)) as [H1 H2].
      cbn [length nth]. split; [lia | exact H2].
    + cbn [length nth]. split; [lia|].
      assert (Hn : ~ ((acc + a) / T <= x)%Q)
        by (intros Hle; apply Qle_bool_iff in Hle; congruence).
      rewrite div_le_iff in Hn by exact HT. lra.
Qed.

(** ** The sampling loop *)

Lemma zero_at_guard (found : list nat) (p : list Q) :
  (if (0 <? length found)%nat then Np.zero_at found p else p) = Np.zero_at found p.
Proof. now destruct found. Qed.

(** Every round of the loop finds at least one more index. *)
Lemma draw_round_progress (size : nat) (p : list Q) (found : list nat) (g : Np.rng) :
  (length found < size)%nat ->
  (length found < length (snd (fst (Np.draw_round size p found g))))%nat.
Proof.
  intros Hlt. unfold Np.draw_round.
  pose proof (rand_spec (size - length found) g) as [Hlen _].
  destruct (Np.rand (size - length found) g) as [x g1]. cbn [fst snd] in *.
  rewrite length_app.
  match goal with |- context [Np.unique_first [] ?l] =>
    assert (Hne : l <> []) end.
  { destruct x; cbn in *; [lia | congruence]. }
  apply unique_first_progress in Hne. lia.
Qed.

(** The bound on the rounds is never what stops the loop: when it
    returns, its condition [n_uniq < size] is false. *)
Lemma draw_loop_exit (rounds : nat) :
  forall size p found g,
  (size - length found <= rounds)%nat ->
  (size <= length (fst (Np.draw_loop rounds size p found g)))%nat.
Proof.
  induction rounds as [|k IH]; intros size p found g Hr; cbn [Np.draw_loop].
  - cbn. lia.
  - destruct (length found <? size)%nat eqn:E.
    + apply Nat.ltb_lt in E.
      pose proof (@draw_round_progress size p found g E) as Hp.
      destruct (Np.draw_round size p found g) as [[p1 found1] g1].
      cbn [fst snd] in Hp. apply IH. lia.
    + apply Nat.ltb_ge in E. cbn. lia.
Qed.

Lemma draw_round_spec (size : nat) (p : list Q) (found : list nat) (g : Np.rng) :
  Forall (fun w => 0 <= w)%Q p ->
  NoDup found ->
  Forall (fun i => i < length p)%nat found ->
  (size <= positives (Np.zero_at found p) + length found)%nat ->
  (length found < size)%nat ->
  let '(p1, found1, _) := Np.draw_round size p found g in
  Forall (fun w => 0 <= w)%Q p1 /\
  length p1 = length p /\
  NoDup found1 /\
  Forall (fun i => i < length p)%nat found1 /\
  (size <= positives (Np.zero_at found1 p1) + length found1)%nat /\
  (length found < length found1 <= size)%nat.
Proof.
  intros Hnn Hnd Hin Hcount Hlt. unfold Np.draw_round.
  pose proof (rand_spec (size - length found) g) as [Hlen Hx].
  destruct (Np.rand (size - length found) g) as [x g1]. cbn [fst] in *.
  rewrite zero_at_guard.
  set (p1 := Np.zero_at found p).
  set (T := last (Np.cumsum p1) 0%Q).
  set (raw := map (Np.searchsorted_right (map (fun c => (c / T)%Q) (Np.cumsum p1))) x).
  set (new := Np.unique_first [] raw).
  assert (Hnn1 : Forall (fun w => 0 <= w)%Q p1) by now apply zero_at_nonneg.
  assert (Hl1 : length p1 = length p) by apply length_zero_at.
  assert (Hpos1 : (1 <= positives p1)%nat) by (subst p1; lia).
  assert (Hsum : (0 < Torch.sum p1)%Q) by now apply sum_pos.
  assert (Hne : p1 <> []).
  { intros E. rewrite E in Hpos1. cbn in Hpos1. lia. }
  assert (HT : (T == Torch.sum p1)%Q).
  { unfold T, Np.cumsum. rewrite last_cumsum by exact Hne. lra. }
  assert (HT0 : (0 < T)%Q) by lra.
  assert (Hhit : forall i, In i new -> (i < length p1)%nat /\ (0 < nth i p1 0)%Q).
  { intros i Hi. apply unique_first_in in Hi. destruct Hi as [Hi _].
    apply in_map_iff in Hi. destruct Hi as (v & <- & Hv).
    rewrite Forall_forall in Hx. destruct (Hx v Hv) as [Hv0 Hv1].
    apply searchsorted_hit; try assumption.
    - apply Qmult_le_0_compat; lra.
    - assert ((v * T < 1 * T)%Q) by (apply Qmult_lt_compat_r; assumption). lra. }
  assert (Hnew : NoDup new) by apply unique_first_nodup.
  assert (Hraw : length raw = (size - length found)%nat)
    by (unfold raw; now rewrite length_map).
  assert (Hnl : (length new <= length raw)%nat) by apply unique_first_length.
  assert (Hn1 : (1 <= length new)%nat).
  { apply unique_first_progress. destruct raw; cbn in Hraw; [lia | congruence]. }
  repeat split.
  - exact Hnn1.
  - exact Hl1.
  - apply NoDup_app; try assumption.
    intros a Ha Hb. destruct (Hhit a Hb) as [_ Hp].
    unfold p1 in Hp. rewrite nth_zero_at in Hp.
    assert (E : existsb (Nat.eqb a) found = true)
      by (apply existsb_exists; exists a; split; [exact Ha | apply Nat.eqb_refl]).
    rewrite E in Hp. lra.
  - apply Forall_app. split; [exact Hin|].
    apply Forall_forall. intros i Hi. destruct (Hhit i Hi) as [Hi' _]. lia.
  - rewrite zero_at_app. unfold p1 at 1. rewrite zero_at_idem. fold p1.
    rewrite length_app.
    pose proof (@positives_zero_at new p1 Hnew (fun i Hi => proj2 (Hhit i Hi))).
    fold p1 in Hcount. lia.
  - rewrite length_app. lia.
  - rewrite length_app. lia.
Qed.

Lemma draw_loop_spec (rounds : nat) :
  forall size p found g,
  Forall (fun w => 0 <= w)%Q p ->
  NoDup found ->
  Forall (fun i => i < length p)%nat found ->
  (size <= positives (Np.zero_at found p) + length found)%nat ->
  (length found <= size)%nat ->
  (size - length found <= rounds)%nat ->
  let idx := fst (Np.draw_loop rounds size p found g) in
  length idx = size /\ NoDup idx /\ Forall (fun i => i < length p)%nat idx.
Proof.
  induction rounds as [|k IH]; intros size p found g Hnn Hnd Hin Hc Hle Hr;
    cbn [Np.draw_loop].
  - cbn. repeat split; try assumption. lia.
  - destruct (length found <? size)%nat eqn:E.
    + apply Nat.ltb_lt in E.
      pose proof (@draw_round_spec size p found g Hnn Hnd Hin Hc E) as Hs.
      destruct (Np.draw_round size p found g) as [[p1 found1] g1].
      destruct Hs as (H1 & H2 & H3 & H4 & H5 & H6).
      rewrite <- H2 in *.
      apply IH; try assumption; lia.
    + apply Nat.ltb_ge in E. cbn. repeat split; try assumption. lia.
Qed.

(** ** The probabilities handed to the sampler *)

Lemma div_by_pos (w s : Q) : (0 < s)%Q -> Fl.div w s = Fin (w / s).
Proof.
  intros Hs. unfold Fl.div.
  destruct (Qeq_bool s 0) eqn:E; [|reflexivity].
  apply Qeq_bool_eq in E. lra.
Qed.

Lemma probs_finite (w : list Q) (s : Q) :
  (0 < s)%Q -> Torch.div_scalar w s = map Fin (map (fun x => x / s)%Q w).
Proof.
  intros Hs. unfold Torch.div_scalar. rewrite map_map.
  apply map_ext. intros x. now apply div_by_pos.
Qed.

Lemma kahan_sum_fin (l : list Q) :
  exists t, Np.kahan_sum (map Fin l) = Fin t /\ (t == Torch.sum l)%Q.
Proof.
  unfold Np.kahan_sum.
  assert (H : forall acc, exists t,
             fold_left Fl.add (map Fin l) (Fin acc) = Fin t /\
             (t == acc + Torch.sum l)%Q).
  { induction l as [|a r IH]; intros acc; cbn [map fold_left].
    - exists acc. split; [reflexivity | cbn; lra].
    - destruct (IH (acc + a)%Q) as (t & Ht & Hs).
      exists t. split; [exact Ht|].
      change (Torch.sum (a :: r)) with (a + Torch.sum r)%Q. lra. }
  destruct (H 0%Q) as (t & Ht & Hs). exists t. split; [exact Ht | lra].
Qed.

Lemma sum_div (w : list Q) (s : Q) :
  (Torch.sum (map (fun x => x / s) w) == Torch.sum w / s)%Q.
Proof.
  induction w as [|a r IH]; cbn [map].
  - cbn. unfold Qdiv. ring.
  - change (Torch.sum (a / s :: map (fun x => x / s) r))%Q
      with (a / s + Torch.sum (map (fun x => x / s) r))%Q.
    change (Torch.sum (a :: r)) with (a + Torch.sum r)%Q.
    rewrite IH. unfold Qdiv. ring.
Qed.

Lemma probs_nonneg (w : list Q) (s : Q) :
  (0 < s)%Q -> Forall (fun x => 0 <= x)%Q w ->
  Forall (fun x => 0 <= x)%Q (map (fun x => x / s)%Q w).
Proof.
  intros Hs H. apply Forall_map. eapply Forall_impl; [|exact H].
  intros x Hx. cbv beta in *. apply Qle_shift_div_l; lra.
Qed.

Lemma probs_no_neg (p : list Q) :
  Forall (fun x => 0 <= x)%Q p -> existsb Fl.neg (map Fin p) = false.
Proof.
  induction 1 as [|a r Ha _ IH]; cbn; [reflexivity|].
  rewrite IH. apply Qle_bool_iff in Ha. now rewrite Ha.
Qed.

Lemma off_one_at_one (t : Q) : (t == 1)%Q -> Fl.off_one Np.atol (Fin t) = false.
Proof.
  intros Ht. unfold Fl.off_one. apply negb_false_iff, Qle_bool_iff.
  assert (E : (t - 1 == 0)%Q) by lra. rewrite E.
  unfold Np.atol. apply Qle_bool_iff. reflexivity.
Qed.

Lemma positives_div (w : list Q) (s : Q) :
  (0 < s)%Q -> positives (map (fun x => x / s)%Q w) = positives w.
Proof.
  intros Hs. induction w as [|a r IH]; [reflexivity|].
  cbn [map]. rewrite !positives_cons, IH. f_equal.
  assert (E : Qle_bool (a / s) 0 = Qle_bool a 0).
  { apply eq_true_iff_eq. rewrite !Qle_bool_iff, div_le_iff by exact Hs.
    split; intros H; lra. }
  now rewrite E.
Qed.

Lemma count_pos_fin (p : list Q) : Np.count_pos (map Fin p) = positives p.
Proof.
  unfold Np.count_pos, positives.
  induction p as [|a r IH]; cbn; [reflexivity|].
  destruct (negb (Qle_bool a 0)); cbn; now rewrite IH.
Qed.

Lemma val_fin (p : list Q) : map Fl.val (map Fin p) = p.
Proof. rewrite map_map. cbn. apply map_id. Qed.

Lemma positives_le_length (p : list Q) : (positives p <= length p)%nat.
Proof. apply filter_length_le. Qed.

(** With non-negative weights of which one at least is positive, the
    exact quotients by the sum pass the checks of [choice] on the
    probabilities: what is left are the checks on the size. *)
Lemma choice_checks (w : list Q) (size : Z) (g : Np.rng) :
  Forall (fun x => 0 <= x)%Q w ->
  (1 <= positives w)%nat ->
  Np.choice (length w) size (Torch.div_scalar w (Torch.sum w)) g
  = if Z.of_nat (length w) <? size then Raise ValueError
    else if size <? 0 then Raise ValueError
    else if Z.of_nat (positives w) <? size then Raise ValueError
    else Ok (Np.draw_loop (Z.to_nat size) (Z.to_nat size)
               (map (fun x => x / Torch.sum w)%Q w) [] g).
Proof.
  intros Hnn Hpos.
  pose proof (sum_pos Hnn Hpos) as Hs.
  pose proof (positives_le_length w) as Hpl.
  set (p := map (fun x => x / Torch.sum w)%Q w).
  assert (Hp : Torch.div_scalar w (Torch.sum w) = map Fin p) by now apply probs_finite.
  assert (Hlp : length p = length w) by apply length_map.
  destruct (kahan_sum_fin p) as (t & Ht & Hts).
  assert (Ht1 : (t == 1)%Q).
  { rewrite Hts. unfold p. rewrite sum_div. field. lra. }
  assert (Hpn : Forall (fun x => 0 <= x)%Q p) by now apply probs_nonneg.
  assert (Hpp : positives p = positives w) by now apply positives_div.
  unfold Np.choice. rewrite Hp, length_map, Hlp, Nat.eqb_refl, Ht.
  rewrite probs_no_neg by exact Hpn. rewrite off_one_at_one by exact Ht1.
  rewrite count_pos_fin, Hpp, val_fin.
  replace (length w =? 0)%nat with false by (symmetry; apply Nat.eqb_neq; lia).
  reflexivity.
Qed.

(** With fewer positive weights than [size], [choice] raises. *)
Lemma choice_too_few (w : list Q) (size : Z) (g : Np.rng) :
  Forall (fun x => 0 <= x)%Q w ->
  (1 <= positives w)%nat ->
  Z.of_nat (positives w) < size ->
  Np.choice (length w) size (Torch.div_scalar w (Torch.sum w)) g = Raise ValueError.
Proof.
  intros Hnn Hpos Hlt. rewrite choice_checks by assumption. settle_ltb.
  now destruct (Z.of_nat (length w) <? size), (size <? 0).
Qed.

(** On probabilities that are finite and not negative, that sum to 1
    within the tolerance and of which at least [size] are positive,
    [choice] returns [size] distinct indices, whatever the weights these
    probabilities were computed from. *)
Lemma choice_valid (p : list Q) (size : Z) (g : Np.rng) :
  Forall (fun x => 0 <= x)%Q p ->
  (Qabs (Torch.sum p - 1) <= Np.atol)%Q ->
  0 <= size <= Z.of_nat (positives p) ->
  exists idx g',
    Np.choice (length p) size (map Fin p) g = Ok (idx, g') /\
    (idx, g') = Np.draw_loop (Z.to_nat size) (Z.to_nat size) p [] g /\
    length idx = Z.to_nat size /\ NoDup idx /\
    Forall (fun i => i < length p)%nat idx.
Proof.
  intros Hnn Hsum Hsize.
  pose proof (positives_le_length p) as Hpl.
  destruct (kahan_sum_fin p) as (t & Ht & Hts).
  assert (Hoff : Fl.off_one Np.atol (Fin t) = false).
  { unfold Fl.off_one. apply negb_false_iff, Qle_bool_iff. now rewrite Hts. }
  assert (Hfirst : (length p =? 0)%nat && negb (size =? 0) = false).
  { destruct (length p =? 0)%nat eqn:E0; [|reflexivity].
    apply Nat.eqb_eq in E0. cbn [andb].
    replace (size =? 0) with true by (symmetry; apply Z.eqb_eq; lia). reflexivity. }
  unfold Np.choice.
  rewrite Hfirst, length_map, Nat.eqb_refl, Ht. cbn [negb Fl.isnan]. cbv zeta.
  rewrite probs_no_neg by exact Hnn. rewrite Hoff.
  rewrite count_pos_fin, val_fin. settle_ltb.
  pose proof (@draw_loop_spec (Z.to_nat size) (Z.to_nat size) p [] g Hnn
                (NoDup_nil _) (Forall_nil _)) as Hl.
  destruct (Np.draw_loop (Z.to_nat size) (Z.to_nat size) p [] g) as [idx g'].
  exists idx, g'. split; [reflexivity|]. split; [reflexivity|].
  apply Hl; cbn [length Np.zero_at fold_left]; lia.
Qed.

(** ** Fancy indexing *)

Lemma index_ok {A : Type} (x : list A) (d : A) (idx : list nat) :
  Forall (fun i => i < length x)%nat idx ->
  Torch.index x idx = Ok (map (fun i => nth i x d) idx).
Proof.
  induction 1 as [|i r Hi _ IH]; cbn [Torch.index map]; [reflexivity|].
  unfold Py.getitem. rewrite (nth_error_nth' x d Hi). cbn [bind].
  rewrite IH. reflexivity.
Qed.

(** ** Weights that sum to zero *)

Lemma div_by_zero (w s : Q) : (s == 0)%Q -> Fl.isfinite (Fl.div w s) = false.
Proof.
  intros Hs. unfold Fl.div. apply Qeq_bool_iff in Hs. rewrite Hs.
  now destruct (Qeq_bool w 0), (Qle_bool w 0).
Qed.

Lemma add_nonfinite (a b : fl) :
  Fl.isfinite b = false -> Fl.isfinite (Fl.add a b) = false.
Proof. destruct a, b; cbn; congruence. Qed.

Lemma kahan_sum_nonfinite (p : list fl) :
  p <> [] -> Forall (fun a => Fl.isfinite a = false) p ->
  Fl.isfinite (Np.kahan_sum p) = false.
Proof.
  unfold Np.kahan_sum. intros Hne Hp.
  assert (H : forall l acc, Forall (fun a => Fl.isfinite a = false) l ->
              Fl.isfinite acc = false ->
              Fl.isfinite (fold_left Fl.add l acc) = false).
  { induction l as [|b l IH]; intros acc Hl Hacc; cbn [fold_left].
    - exact Hacc.
    - inversion Hl; subst. apply IH; [assumption|]. now apply add_nonfinite. }
  destruct p as [|a r]; [congruence|]. cbn [fold_left].
  inversion Hp; subst.
  apply H; [assumption|]. now apply add_nonfinite.
Qed.

Lemma choice_nonfinite (pop_size : nat) (size : Z) (p : list fl) (g : Np.rng) :
  Z.of_nat pop_size > size ->
  Forall (fun a => Fl.isfinite a = false) p ->
  Np.choice pop_size size p g = Raise ValueError.
Proof.
  intros Hgt Hp. unfold Np.choice.
  destruct (pop_size =? 0)%nat eqn:E0.
  - apply Nat.eqb_eq in E0.
    replace (size =? 0) with false by (symmetry; apply Z.eqb_neq; lia).
    reflexivity.
  - cbn [andb]. apply Nat.eqb_neq in E0.
    destruct (length p =? pop_size)%nat eqn:El; cbn [negb]; [|reflexivity].
    apply Nat.eqb_eq in El.
    assert (Hne : p <> []) by (intros ->; cbn in El; lia).
    pose proof (kahan_sum_nonfinite Hne Hp) as Hk.
    destruct (Np.kahan_sum p); cbn in Hk |- *; try discriminate; try reflexivity;
      now destruct (existsb Fl.neg p).
Qed.

Lemma choice_negative (pop_size : nat) (size : Z) (p : list fl) (g : Np.rng) :
  size < 0 -> Np.choice pop_size size p g = Raise ValueError.
Proof.
  intros Hs. unfold Np.choice. cbv zeta.
  apply Z.ltb_lt in Hs. rewrite Hs.
  repeat (match goal with
          | |- (if ?c then _ else _) = _ => destruct c
          end; try reflexivity).
Qed.

Lemma subsample_zero_sum (K : Z) (pcd feats : tensor2) (scores : list Q) (g : Np.rng) :
  K < Z.of_nat (length pcd) ->
  (Torch.sum scores == 0)%Q ->
  subsample K pcd feats scores g = Raise ValueError.
Proof.
  intros HK Hs. unfold subsample.
  apply Z.ltb_lt in HK. rewrite HK. apply Z.ltb_lt in HK.
  rewrite choice_nonfinite; [reflexivity | lia |].
  unfold Torch.div_scalar. apply Forall_map, Forall_forall.
  intros x _. now apply div_by_zero.
Qed.

Lemma no_positive_sum (w : list Q) :
  Forall (fun x => 0 <= x)%Q w -> positives w = 0%nat -> (Torch.sum w == 0)%Q.
Proof.
  induction 1 as [|a r Ha _ IH]; intros Hp; [reflexivity|].
  rewrite positives_cons in Hp.
  change (Torch.sum (a :: r)) with (a + Torch.sum r)%Q.
  destruct (negb (Qle_bool a 0)) eqn:E; [lia|].
  apply negb_false_iff, Qle_bool_iff in E.
  rewrite IH by lia. lra.
Qed.

(** ** What the sampler returns *)

Lemma add_nonfinite_acc (a b : fl) :
  Fl.isfinite a = false -> Fl.isfinite (Fl.add a b) = false.
Proof. destruct a, b; cbn; congruence. Qed.

Lemma fold_add_nonfinite (p : list fl) :
  forall acc, Fl.isfinite acc = false ->
  Fl.isfinite (fold_left Fl.add p acc) = false.
Proof.
  induction p as [|a r IH]; intros acc H; cbn [fold_left]; [exact H|].
  apply IH. now apply add_nonfinite_acc.
Qed.

(** A finite sum has finite terms only. *)
Lemma kahan_sum_finite (p : list fl) (t : Q) :
  Np.kahan_sum p = Fin t -> p = map Fin (map Fl.val p).
Proof.
  unfold Np.kahan_sum. generalize (Fin 0). revert t.
  induction p as [|a r IH]; intros t acc H; cbn [fold_left map] in *; [reflexivity|].
  destruct (Fl.isfinite a) eqn:Ea.
  - destruct a; try discriminate. cbn [Fl.val]. f_equal. eapply IH, H.
  - pose proof (@fold_add_nonfinite r _ (@add_nonfinite acc a Ea)) as Hn.
    rewrite H in Hn. discriminate Hn.
Qed.

Lemma no_neg_nonneg (q : list Q) :
  existsb Fl.neg (map Fin q) = false -> Forall (fun x => 0 <= x)%Q q.
Proof.
  induction q as [|a r IH]; cbn [map existsb]; [constructor|].
  intros H. apply orb_false_iff in H. destruct H as [Ha Hr].
  constructor; [|now apply IH].
  cbn in Ha. apply negb_false_iff, Qle_bool_iff in Ha. exact Ha.
Qed.

(** Whenever [choice] returns, it returns [size] distinct indices of the
    population. *)
Lemma choice_result (pop_size : nat) (size : Z) (p : list fl) (g g' : Np.rng)
    (idx : list nat) :
  Np.choice pop_size size p g = Ok (idx, g') ->
  0 <= size /\ length idx = Z.to_nat size /\ NoDup idx /\
  Forall (fun i => i < pop_size)%nat idx.
Proof.
  unfold Np.choice.
  destruct ((pop_size =? 0)%nat && negb (size =? 0)); [discriminate|].
  destruct (length p =? pop_size)%nat eqn:El; cbn [negb]; [|discriminate].
  apply Nat.eqb_eq in El. cbv zeta.
  destruct (Np.kahan_sum p) as [t| | |] eqn:Ek; cbn [Fl.isnan]; try discriminate.
  2:{ destruct (existsb Fl.neg p); discriminate. }
  2:{ destruct (existsb Fl.neg p); discriminate. }
  destruct (existsb Fl.neg p) eqn:En; [discriminate|].
  destruct (Fl.off_one Np.atol (Fin t)); [discriminate|].
  destruct (Z.of_nat pop_size <? size); [discriminate|].
  destruct (size <? 0) eqn:Es; [discriminate|].
  destruct (Z.of_nat (Np.count_pos p) <? size) eqn:Ec; [discriminate|].
  apply Z.ltb_ge in Es, Ec.
  pose proof (kahan_sum_finite p Ek) as Hp.
  set (q := map Fl.val p) in *.
  rewrite Hp in En, Ec. rewrite count_pos_fin in Ec.
  apply no_neg_nonneg in En.
  intros H.
  pose proof (@draw_loop_spec (Z.to_nat size) (Z.to_nat size) q [] g En
                (NoDup_nil _) (Forall_nil _)) as Hl.
  injection H as H. rewrite H in Hl. cbn [fst] in Hl.
  assert (Hq : length q = pop_size) by (unfold q; now rewrite length_map).
  rewrite Hq in Hl. split; [exact Es|].
  apply Hl; cbn [length Np.zero_at fold_left]; lia.
Qed.

Lemma index_in_range {A : Type} (x : list A) (idx : list nat) (y : list A) :
  Torch.index x idx = Ok y -> Forall (fun i => i < length x)%nat idx.
Proof.
  revert y. induction idx as [|i r IH]; intros y; cbn [Torch.index]; [constructor|].
  unfold Py.getitem. destruct (nth_error x i) as [a|] eqn:Ei; cbn [bind];
    [|discriminate].
  destruct (Torch.index x r) as [s|] eqn:Er; cbn [bind]; [|discriminate].
  intros _. constructor; [|eapply IH; reflexivity].
  apply nth_error_Some. congruence.
Qed.

(** The two forms of a result of the subsampler. *)
Lemma subsample_result_form (K : Z) (pcd feats : tensor2) (scores : list Q)
    (g g' : Np.rng) (pcd' feats' : tensor2) :
  subsample K pcd feats scores g = Ok (pcd', feats', g') ->
  (Z.of_nat (length pcd) <= K /\ pcd' = pcd /\ feats' = feats /\ g' = g) \/
  (0 <= K < Z.of_nat (length pcd) /\
   exists idx,
     length idx = Z.to_nat K /\ NoDup idx /\
     Forall (fun i => i < length pcd /\ i < length feats)%nat idx /\
     pcd' = map (fun i => nth i pcd []) idx /\
     feats' = map (fun i => nth i feats []) idx).
Proof.
  unfold subsample. destruct (K <? Z.of_nat (length pcd)) eqn:EK.
  - apply Z.ltb_lt in EK.
    destruct (Np.choice _ _ _ _) as [[idx g1]|] eqn:Ec; cbn [bind]; [|discriminate].
    destruct (Torch.index pcd idx) as [p1|] eqn:Ep; cbn [bind]; [|discriminate].
    destruct (Torch.index feats idx) as [f1|] eqn:Ef; cbn [bind]; [|discriminate].
    intros [= <- <- <-]. right.
    destruct (choice_result _ _ _ _ Ec) as (H0 & Hlen & Hnd & Hin).
    pose proof (index_in_range _ _ Ef) as Hfin.
    split; [lia|]. exists idx. split; [exact Hlen|]. split; [exact Hnd|].
    split; [|split].
    + rewrite Forall_forall in *. intros i Hi. split; auto.
    + rewrite (index_ok pcd [] Hin) in Ep. now injection Ep.
    + rewrite (index_ok feats [] Hfin) in Ef. now injection Ef.
  - apply Z.ltb_ge in EK. intros [= <- <- <-]. left. repeat split. exact EK.
Qed.

(** ** The weighted subsampler *)

(** C1, the claim as stated fails: two points whose combined weights
    sum to 0, with a target size of 1, make the sampling step raise. *)
Lemma zero_weights_no_fallback :
  Torch.mul [0; 1#2]%Q [1#3; 0]%Q = Ok [0 * (1#3); (1#2) * 0]%Q /\
  (Torch.sum [0 * (1#3); (1#2) * 0] == 0)%Q /\
  Torch.div_scalar [0 * (1#3); (1#2) * 0]%Q (Torch.sum [0 * (1#3); (1#2) * 0]%Q)
    = [NaN; NaN] /\
  subsample 1 [[0; 0; 0]; [1; 1; 1]]%Q [[1]; [1]]%Q [0 * (1#3); (1#2) * 0]%Q example_rng
    = Raise ValueError.
Proof. repeat split. Qed.

(** C1, amended.  For every cloud whose combined weights sum to 0 and
    whose size exceeds the target size, no entry of the probability
    vector is a finite number, and the weighted subsampling step fails
    with the [ValueError] of the sampler: there is no fallback to uniform
    probabilities. *)
Theorem zero_weights_raise (K : Z) (pcd feats : tensor2) (scores : list Q)
    (g : Np.rng) :
  K < Z.of_nat (length pcd) ->
  (Torch.sum scores == 0)%Q ->
  Forall (fun p => Fl.isfinite p = false)
         (Torch.div_scalar scores (Torch.sum scores)) /\
  subsample K pcd feats scores g = Raise ValueError.
Proof.
  intros HK Hs. split.
  - unfold Torch.div_scalar. apply Forall_map, Forall_forall.
    intros x _. now apply div_by_zero.
  - now apply subsample_zero_sum.
Qed.

Lemma zero_weights_raise_witness :
  subsample 2 [[0; 0; 0]; [1; 1; 1]; [2; 2; 2]]%Q [[1]; [1]; [1]]%Q [0; 0; 0]%Q
    example_rng = Raise ValueError.
Proof.
  apply (@zero_weights_raise 2 [[0; 0; 0]; [1; 1; 1]; [2; 2; 2]]%Q
           [[1]; [1]; [1]]%Q [0; 0; 0]%Q example_rng).
  - reflexivity.
  - reflexivity.
Defined.

(** C3, the claim as stated fails: of three points only one has a
    positive weight, the target size is 2, and the subsampler raises
    instead of returning two points. *)
Lemma subsample_too_few_positive :
  subsample 2 [[0; 0; 0]; [1; 1; 1]; [2; 2; 2]]%Q [[1]; [2]; [3]]%Q [1; 0; 0]%Q
    example_rng = Raise ValueError.
Proof. reflexivity. Qed.

(** Every failure of the sampler is a [ValueError]. *)
Lemma choice_error (pop_size : nat) (size : Z) (p : list fl) (g : Np.rng) (e : exn) :
  Np.choice pop_size size p g = Raise e -> e = ValueError.
Proof.
  unfold Np.choice. cbv zeta.
  repeat (match goal with
          | |- (if ?c then _ else _) = _ -> _ => destruct c
          end; try congruence).
Qed.

Lemma choice_length (pop_size : nat) (size : Z) (p : list fl) (g : Np.rng) :
  length p <> pop_size -> Np.choice pop_size size p g = Raise ValueError.
Proof.
  intros H. unfold Np.choice. apply Nat.eqb_neq in H. rewrite H.
  now destruct ((pop_size =? 0)%nat && negb (size =? 0)).
Qed.

(** The two outcomes of the subsampler on a cloud of more than [K]
    points. *)
Lemma subsample_outcome (K : Z) (pcd feats : tensor2) (scores : list Q) (g : Np.rng) :
  length feats = length pcd ->
  K < Z.of_nat (length pcd) ->
  subsample K pcd feats scores g = Raise ValueError \/
  exists idx g',
    subsample K pcd feats scores g
    = Ok (map (fun i => nth i pcd []) idx, map (fun i => nth i feats []) idx, g') /\
    0 <= K /\ length idx = Z.to_nat K /\ NoDup idx /\
    Forall (fun i => i < length pcd)%nat idx.
Proof.
  intros Hf HK. unfold subsample. settle_ltb.
  destruct (Np.choice _ _ _ _) as [[idx g1]|e] eqn:Ec; cbn [bind].
  - right. destruct (choice_result _ _ _ _ Ec) as (H0 & Hlen & Hnd & Hin).
    exists idx, g1. split; [|repeat split; assumption].
    rewrite (index_ok pcd [] Hin). cbn [bind].
    rewrite <- Hf in Hin. rewrite (index_ok feats [] Hin). reflexivity.
  - left. now rewrite (choice_error _ _ _ _ Ec).
Qed.

(** On a cloud of more than [K] points the subsampler is the sampler on
    the probabilities, followed by the indexing of the points and of the
    feature vectors. *)
Lemma subsample_large (K : Z) (pcd feats : tensor2) (scores : list Q) (g : Np.rng) :
  K < Z.of_nat (length pcd) ->
  subsample K pcd feats scores g
  = ('(idx, g1) <- Np.choice (length pcd) K
                     (Torch.div_scalar scores (Torch.sum scores)) g ;;
     pcd1 <- Torch.index pcd idx ;;
     feats1 <- Torch.index feats idx ;;
     Ok (pcd1, feats1, g1)).
Proof. intros HK. unfold subsample. settle_ltb. reflexivity. Qed.

(** What the sampler and the indexing do on valid probabilities. *)
Lemma sample_valid (K : Z) (pcd feats : tensor2) (p : list Q) (g : Np.rng) :
  length feats = length pcd ->
  length p = length pcd ->
  Forall (fun x => 0 <= x)%Q p ->
  (Qabs (Torch.sum p - 1) <= Np.atol)%Q ->
  0 <= K <= Z.of_nat (positives p) ->
  exists idx g',
    Np.choice (length pcd) K (map Fin p) g = Ok (idx, g') /\
    length idx = Z.to_nat K /\ NoDup idx /\
    Forall (fun i => i < length pcd)%nat idx /\
    (K = 0 -> idx = [] /\ g' = g) /\
    Torch.index pcd idx = Ok (map (fun i => nth i pcd []) idx) /\
    Torch.index feats idx = Ok (map (fun i => nth i feats []) idx).
Proof.
  intros Hf Hp Hnn Hsum HK.
  destruct (choice_valid g Hnn Hsum HK) as (idx & g' & Hc & Hloop & Hl & Hnd & Hin).
  rewrite Hp in Hc, Hin.
  exists idx, g'. split; [exact Hc|]. split; [exact Hl|]. split; [exact Hnd|].
  split; [exact Hin|]. split; [|split].
  - intros ->. cbn in Hloop. now injection Hloop.
  - apply index_ok, Hin.
  - apply index_ok. now rewrite Hf.
Qed.

(** C3, amended.  For a cloud of [N] points with [N] feature vectors and
    a target size [K]: if [N <= K] the subsampler returns the cloud and
    the feature vectors unchanged; if [N > K] it is the sampler on the
    probabilities [scores / scores.sum()], followed by the indexing of the
    points and of the feature vectors with the indices drawn.  On
    whatever probabilities the division gave, if they are [N] finite
    numbers that are not negative, that sum to 1 within the tolerance of
    the sampler and of which at least [K >= 0] are positive, the sampler
    returns [K] pairwise distinct indices, and the indexing exactly [K]
    points, each with the feature vector of the same index.  In every
    case the subsampler either raises the [ValueError] of the sampler or
    returns such a selection; and it raises whenever the combined weights
    are non-negative and fewer than [max(K, 1)] of them are positive. *)
Theorem subsample_spec (K : Z) (pcd feats : tensor2) (scores : list Q)
    (g : Np.rng) :
  length feats = length pcd ->
  let N := Z.of_nat (length pcd) in
  (N <= K -> subsample K pcd feats scores g = Ok (pcd, feats, g)) /\
  (K < N ->
   subsample K pcd feats scores g
   = ('(idx, g1) <- Np.choice (length pcd) K
                      (Torch.div_scalar scores (Torch.sum scores)) g ;;
      pcd1 <- Torch.index pcd idx ;;
      feats1 <- Torch.index feats idx ;;
      Ok (pcd1, feats1, g1))) /\
  (forall (p : list Q) (g0 : Np.rng),
     length p = length pcd ->
     Forall (fun x => 0 <= x)%Q p ->
     (Qabs (Torch.sum p - 1) <= Np.atol)%Q ->
     0 <= K <= Z.of_nat (positives p) ->
     exists idx g',
       Np.choice (length pcd) K (map Fin p) g0 = Ok (idx, g') /\
       length idx = Z.to_nat K /\ NoDup idx /\
       Forall (fun i => i < length pcd)%nat idx /\
       Torch.index pcd idx = Ok (map (fun i => nth i pcd []) idx) /\
       Torch.index feats idx = Ok (map (fun i => nth i feats []) idx)) /\
  (K < N ->
   subsample K pcd feats scores g = Raise ValueError \/
   exists idx g',
     subsample K pcd feats scores g
     = Ok (map (fun i => nth i pcd []) idx, map (fun i => nth i feats []) idx, g') /\
     0 <= K /\ length idx = Z.to_nat K /\ NoDup idx /\
     Forall (fun i => i < length pcd)%nat idx) /\
  (K < N -> Forall (fun w => 0 <= w)%Q scores ->
   Z.of_nat (positives scores) < Z.max K 1 ->
   subsample K pcd feats scores g = Raise ValueError).
Proof.
  intros Hf N. subst N. split; [|split; [|split; [|split]]].
  - intros H. unfold subsample. settle_ltb. reflexivity.
  - apply subsample_large.
  - intros p g0 Hp Hnn Hsum HK.
    destruct (@sample_valid K pcd feats p g0 Hf Hp Hnn Hsum HK)
      as (idx & g' & H1 & H2 & H3 & H4 & _ & H6 & H7).
    exists idx, g'. repeat split; assumption.
  - now apply subsample_outcome.
  - intros HK Hnn Hpos.
    destruct (Nat.eq_dec (positives scores) 0) as [H0 | H0].
    + apply subsample_zero_sum; [lia|]. now apply no_positive_sum.
    + destruct (Z_lt_le_dec K 0) as [Hneg | Hge].
      * unfold subsample. settle_ltb. now rewrite choice_negative.
      * unfold subsample. settle_ltb.
        destruct (Nat.eq_dec (length scores) (length pcd)) as [Hs | Hs].
        -- rewrite <- Hs, choice_too_few; [reflexivity | assumption | lia | lia].
        -- rewrite choice_length; [reflexivity|].
           unfold Torch.div_scalar. now rewrite length_map.
Qed.

Lemma subsample_spec_witness :
  exists idx g',
    subsample 2 [[0; 0; 0]; [1; 1; 1]; [2; 2; 2]]%Q [[1]; [2]; [3]]%Q
      [1#4; 0; 1#4]%Q example_rng
    = Ok (map (fun i => nth i [[0; 0; 0]; [1; 1; 1]; [2; 2; 2]]%Q []) idx,
          map (fun i => nth i [[1]; [2]; [3]]%Q []) idx, g') /\
    length idx = 2%nat /\ NoDup idx /\ Forall (fun i => i < 3)%nat idx.
Proof.
  set (w := [1#4; 0; 1#4]%Q).
  set (p := map (fun x => x / Torch.sum w)%Q w).
  destruct (@subsample_spec 2 [[0; 0; 0]; [1; 1; 1]; [2; 2; 2]]%Q [[1]; [2]; [3]]%Q
              w example_rng eq_refl) as (_ & Heq & Hvalid & _ & _).
  destruct (Hvalid p example_rng eq_refl)
    as (idx & g' & Hc & Hl & Hnd & Hin & Hp & Hf).
  - repeat constructor; apply Qle_bool_iff; reflexivity.
  - apply Qle_bool_iff. reflexivity.
  - vm_compute. split; discriminate.
  - exists idx, g'. split; [|repeat split; assumption].
    rewrite Heq by (cbn; lia).
    change (Torch.div_scalar w (Torch.sum w)) with (map Fin p).
    rewrite Hc. cbn [bind]. rewrite Hp. cbn [bind]. rewrite Hf. reflexivity.
Defined.

(** C7, the claim as stated fails: with a target size of 0 the
    subsampler does not fail; it returns an empty selection. *)
Lemma zero_n_points_accepted :
  subsample 0 [[0; 0; 0]; [1; 1; 1]]%Q [[1]; [2]]%Q [1#4; 1#4]%Q example_rng
  = Ok ([], [], example_rng).
Proof. reflexivity. Qed.

(** With a target size of 0 the sampler draws nothing. *)
Lemma choice_zero (pop_size : nat) (p : list fl) (g : Np.rng) :
  Np.choice pop_size 0 p g = Ok ([], g) \/ Np.choice pop_size 0 p g = Raise ValueError.
Proof.
  unfold Np.choice. cbv zeta. cbn [Z.to_nat Np.draw_loop].
  repeat (match goal with
          | |- (if ?c then _ else _) = _ \/ _ => destruct c
          end; try (now right)).
  now left.
Qed.

(** C7, amended.  No line checks the target size [K] and no
    [InvalidConfigError] exists.  For [K < 0] the subsampler fails on
    every cloud, at its first use, with the [ValueError] of the sampler.
    For [K = 0] nothing rejects the configuration: on a non-empty cloud
    the subsampler is the sampler with size 0 on the probabilities
    [scores / scores.sum()], followed by the indexing; on whatever
    probabilities the division gave, if they are finite numbers that are
    not negative and sum to 1 within the tolerance, the sampler returns
    no index and draws no random number; so the subsampler either returns
    an empty selection or raises the [ValueError] of the sampler, which
    it does when the weights sum to 0. *)
Theorem nonpositive_n_points (K : Z) (pcd feats : tensor2) (scores : list Q)
    (g : Np.rng) :
  (K < 0 ->
   subsample K pcd feats scores g = Raise ValueError /\
   ValueError <> InvalidConfigError) /\
  (K = 0 -> pcd <> [] ->
   subsample K pcd feats scores g
   = ('(idx, g1) <- Np.choice (length pcd) 0
                      (Torch.div_scalar scores (Torch.sum scores)) g ;;
      pcd1 <- Torch.index pcd idx ;;
      feats1 <- Torch.index feats idx ;;
      Ok (pcd1, feats1, g1)) /\
   (forall (p : list Q) (g0 : Np.rng),
      length p = length pcd ->
      Forall (fun x => 0 <= x)%Q p ->
      (Qabs (Torch.sum p - 1) <= Np.atol)%Q ->
      Np.choice (length pcd) 0 (map Fin p) g0 = Ok ([], g0)) /\
   (subsample K pcd feats scores g = Ok ([], [], g) \/
    subsample K pcd feats scores g = Raise ValueError) /\
   ((Torch.sum scores == 0)%Q ->
    subsample K pcd feats scores g = Raise ValueError)).
Proof.
  split.
  - intros HK. split; [|discriminate]. unfold subsample. settle_ltb.
    now rewrite choice_negative.
  - intros -> Hne.
    assert (HN : 0 < Z.of_nat (length pcd))
      by (destruct pcd; [congruence | cbn; lia]).
    split; [now apply subsample_large|]. split; [|split].
    + intros p g0 Hp Hnn Hsum.
      destruct (@choice_valid p 0 g0 Hnn Hsum ltac:(lia))
        as (idx & g' & Hc & Hloop & _).
      cbn in Hloop. injection Hloop as -> ->. now rewrite <- Hp.
    + unfold subsample. settle_ltb.
      destruct (choice_zero (length pcd)
                  (Torch.div_scalar scores (Torch.sum scores)) g) as [-> | ->];
        [left | right]; reflexivity.
    + intros Hs. now apply subsample_zero_sum.
Qed.

Lemma nonpositive_n_points_witness :
  subsample (-1) [[0; 0; 0]]%Q [[1]]%Q [1#4]%Q example_rng = Raise ValueError /\
  Np.choice 1 0 [Fin 1] example_rng = Ok ([], example_rng) /\
  subsample 0 [[0; 0; 0]]%Q [[1]]%Q [0]%Q example_rng = Raise ValueError.
Proof.
  split; [|split].
  - apply (proj1 (@nonpositive_n_points (-1) [[0; 0; 0]]%Q [[1]]%Q [1#4]%Q example_rng)).
    reflexivity.
  - apply (proj1 (proj2 (proj2 (@nonpositive_n_points 0 [[0; 0; 0]]%Q [[1]]%Q
                                  [1#4]%Q example_rng) eq_refl ltac:(discriminate)))
             [1%Q] example_rng eq_refl).
    + repeat constructor. apply Qle_bool_iff. reflexivity.
    + apply Qle_bool_iff. reflexivity.
  - apply (proj2 (@nonpositive_n_points 0 [[0; 0; 0]]%Q [[1]]%Q [0]%Q example_rng)).
    + reflexivity.
    + discriminate.
    + reflexivity.
Defined.

(** ** The orchestrator *)

Lemma asarray_nil : Arr.asarray [] = Ok (Arr.A1 []).
Proof. reflexivity. Qed.

Lemma asarray_error (x : list (list Q)) (e : exn) :
  Arr.asarray x = Raise e -> e = ValueError.
Proof.
  unfold Arr.asarray. destruct x as [|r x]; [discriminate|].
  destruct (forallb _ _); [discriminate | congruence].
Qed.

Lemma asarray_cons (r : list Q) (x : list (list Q)) (a : Arr.ndarray) :
  Arr.asarray (r :: x) = Ok a -> exists m, a = Arr.A2 m.
Proof.
  unfold Arr.asarray. destruct (forallb _ _); [|discriminate].
  intros [= <-]. eexists. reflexivity.
Qed.


Section ServiceProperties.

Variable collate_fn : config -> list ThreeDMatchDemo.entry -> result batch.
Variable ransac_pose_estimation :
  tensor2 -> tensor2 -> tensor2 -> tensor2 -> bool -> result (option (list (list Q))).

Local Abbreviation keypoints := (predator_keypoints collate_fn).
Local Abbreviation infer := (predator_infer collate_fn ransac_pose_estimation).
Local Abbreviation post := (do_POST collate_fn ransac_pose_estimation).

(** A request with an empty cloud fails while the data set, the loader
    or the item of the data set is built, whatever the collate function,
    the network and the pose estimator are. *)
Lemma empty_cloud_keypoints (cfg : config) (src_points tgt_points : cloud)
    (g : Np.rng) :
  src_points = [] \/ tgt_points = [] ->
  exists e,
    keypoints cfg src_points tgt_points g = Raise e /\
    (((exists s t, Arr.asarray src_points = Ok s /\ Arr.asarray tgt_points = Ok t) /\
      batch_size cfg <> 0%nat /\ e = IndexError) \/
     ((Arr.asarray src_points = Raise ValueError \/
       Arr.asarray tgt_points = Raise ValueError \/ batch_size cfg = 0%nat) /\
      e = ValueError)).
Proof.
  intros H. unfold predator_keypoints, ThreeDMatchDemo.init.
  destruct (Arr.asarray src_points) as [s|e] eqn:Es; cbn [bind].
  2:{ exists e. pose proof (asarray_error _ Es). subst e. split; [reflexivity|].
      right. split; [now left | reflexivity]. }
  destruct (Arr.asarray tgt_points) as [t|e] eqn:Et; cbn [bind].
  2:{ exists e. pose proof (asarray_error _ Et). subst e. split; [reflexivity|].
      right. split; [right; now left | reflexivity]. }
  unfold first_batch.
  destruct (batch_size cfg =? 0)%nat eqn:Eb; cbn [bind].
  { exists ValueError. apply Nat.eqb_eq in Eb. split; [reflexivity|].
    right. split; [right; now right | reflexivity]. }
  apply Nat.eqb_neq in Eb.
  exists IndexError. split.
  - unfold ThreeDMatchDemo.getitem.
    cbn [ThreeDMatchDemo.src_pcd ThreeDMatchDemo.tgt_pcd].
    destruct H as [-> | ->].
    + rewrite asarray_nil in Es. injection Es as <-. reflexivity.
    + rewrite asarray_nil in Et. injection Et as <-.
      destruct s; cbn [Arr.first_col bind]; reflexivity.
  - left. split; [now exists s, t|]. split; [exact Eb | reflexivity].
Qed.

(** C5, amended.  No line validates the clouds and no [InvalidInputError]
    exists.  A request in which a cloud is empty fails once, without
    retry, with an exception of its first steps, before the batch is
    collated and so before any feature extraction or sampling, whatever
    these later stages are: with the [IndexError] raised when the item of
    the data set is built, if both clouds convert to arrays and the batch
    size is not 0, and with a [ValueError] otherwise.  [do_POST] lets this
    exception through.  Non-empty clouds whose rows have one length,
    whatever this length is, pass the construction of the data set and of
    its item. *)
Theorem empty_cloud_raises (cfg : config) (data : list (string * cloud))
    (src_points tgt_points : cloud) (g : Np.rng) :
  Py.lookup "src" data = Ok src_points ->
  Py.lookup "tgt" data = Ok tgt_points ->
  let convert :=
    exists s t, Arr.asarray src_points = Ok s /\ Arr.asarray tgt_points = Ok t in
  (src_points = [] \/ tgt_points = [] ->
   exists e,
     infer cfg src_points tgt_points g = Raise e /\
     post cfg data g = Raise e /\
     e <> InvalidInputError /\
     (convert /\ batch_size cfg <> 0%nat -> e = IndexError) /\
     (~ (convert /\ batch_size cfg <> 0%nat) -> e = ValueError)) /\
  (src_points <> [] -> tgt_points <> [] -> convert ->
   exists d it,
     ThreeDMatchDemo.init src_points tgt_points = Ok d /\
     ThreeDMatchDemo.getitem d 0 = Ok it).
Proof.
  intros Hs Ht convert. subst convert. split.
  - intros H.
    destruct (empty_cloud_keypoints cfg g H) as (e & He & Hc).
    exists e.
    assert (Hinf : infer cfg src_points tgt_points g = Raise e).
    { unfold predator_infer. now rewrite He. }
    split; [exact Hinf|]. split.
    + unfold do_POST. rewrite Hs, Ht. cbn [bind]. now rewrite Hinf.
    + destruct Hc as [(Hconv & Hb & ->) | (Hfail & ->)].
      * split; [discriminate|]. split; [reflexivity|].
        intros Hn. exfalso. apply Hn. now split.
      * split; [discriminate|]. split; [|reflexivity].
        intros [(s & t & Es & Et) Hb].
        destruct Hfail as [Hf | [Hf | Hf]]; congruence.
  - intros Hns Hnt (s & t & Es & Et).
    destruct src_points as [|r1 x1]; [congruence|].
    destruct tgt_points as [|r2 x2]; [congruence|].
    destruct (@asarray_cons _ _ _ Es) as (m1 & ->).
    destruct (@asarray_cons _ _ _ Et) as (m2 & ->).
    unfold ThreeDMatchDemo.init. rewrite Es, Et. cbn [bind].
    eexists. eexists. split; reflexivity.
Qed.

(** C2, amended.  [predator_infer] catches nothing: an exception of
    the key point stages or of the pose estimator is its outcome, and no
    dict is returned.  On a request on which neither raises, its result
    is a dict with the single key ["transform"], bound to [None] exactly
    when the pose estimator answered [None], and otherwise to the matrix
    of the pose estimator, whole and as it is, as the list of its rows:
    the response is well formed exactly when this matrix, if there is
    one, is 4 by 4.  [do_POST] answers with this dict and status 200. *)
Theorem predator_infer_response (cfg : config) (src_points tgt_points : cloud)
    (g : Np.rng) :
  (forall sp tp sf tf g2,
     keypoints cfg src_points tgt_points g = Ok (sp, tp, sf, tf, g2) ->
     (ransac_pose_estimation sp tp sf tf false = Ok None ->
      infer cfg src_points tgt_points g = Ok ([("transform"%string, PyNone)], g2)) /\
     (forall m, ransac_pose_estimation sp tp sf tf false = Ok (Some m) ->
      infer cfg src_points tgt_points g = Ok ([("transform"%string, PyRows m)], g2)) /\
     (forall e, ransac_pose_estimation sp tp sf tf false = Raise e ->
      infer cfg src_points tgt_points g = Raise e)) /\
  (forall e, keypoints cfg src_points tgt_points g = Raise e ->
     infer cfg src_points tgt_points g = Raise e) /\
  (forall d g', infer cfg src_points tgt_points g = Ok (d, g') ->
     exists sp tp sf tf tsfm,
       keypoints cfg src_points tgt_points g = Ok (sp, tp, sf, tf, g') /\
       ransac_pose_estimation sp tp sf tf false = Ok tsfm /\
       d = [("transform"%string,
             match tsfm with None => PyNone | Some m => PyRows m end)] /\
       (well_formed_response d <-> forall m, tsfm = Some m -> is_4x4 m)) /\
  (forall data,
     Py.lookup "src" data = Ok src_points ->
     Py.lookup "tgt" data = Ok tgt_points ->
     (forall d g', infer cfg src_points tgt_points g = Ok (d, g') ->
        post cfg data g = Ok (200%nat, d, g')) /\
     (forall e, infer cfg src_points tgt_points g = Raise e ->
        post cfg data g = Raise e)).
Proof.
  split; [|split; [|split]].
  - intros sp tp sf tf g2 Hk. unfold predator_infer. rewrite Hk. cbn [bind].
    split; [|split].
    + intros ->. reflexivity.
    + intros m ->. reflexivity.
    + intros e ->. reflexivity.
  - intros e Hk. unfold predator_infer. rewrite Hk. reflexivity.
  - intros d g'. unfold predator_infer.
    destruct (keypoints cfg src_points tgt_points g)
      as [[[[[sp tp] sf] tf] g2]|e]; cbn [bind]; [|discriminate].
    destruct (ransac_pose_estimation sp tp sf tf false) as [tsfm|e] eqn:Er;
      cbn [bind]; [|discriminate].
    intros [= <- <-]. exists sp, tp, sf, tf, tsfm.
    split; [reflexivity|]. split; [exact Er|].
    split; [destruct tsfm; reflexivity|].
    unfold well_formed_response. destruct tsfm as [m|]; cbn [package]; split.
    + intros (v & [= <-] & [Hv | (m' & [= <-] & H4)]); [discriminate|].
      now intros m0 [= <-].
    + intros H. eexists. split; [reflexivity|]. right.
      exists m. split; [reflexivity | now apply H].
    + intros _ m [=].
    + intros _. eexists. split; [reflexivity | now left].
  - intros data Hs Ht. unfold do_POST. rewrite Hs, Ht. cbn [bind].
    split; [intros d g' -> | intros e ->]; reflexivity.
Qed.


End ServiceProperties.

(** C5, the claim as stated fails: an empty source cloud ends in the
    [IndexError] of the data set, a request body without ["tgt"] in a
    [KeyError], and a cloud of one point with two coordinates passes the
    construction of the data set and of its item. *)
Lemma no_input_validation :
  predator_infer example_collate example_ransac (example_config 2)
    [] [[1; 2; 3]]%Q example_rng = Raise IndexError /\
  IndexError <> InvalidInputError /\
  do_POST example_collate example_ransac (example_config 2)
    [("src"%string, [[1; 2; 3]]%Q)] example_rng = Raise KeyError /\
  KeyError <> InvalidInputError /\
  exists d it,
    ThreeDMatchDemo.init [[1; 2]]%Q [[3]]%Q = Ok d /\
    ThreeDMatchDemo.getitem d 0 = Ok it.
Proof.
  split; [reflexivity|]. split; [discriminate|].
  split; [reflexivity|]. split; [discriminate|].
  eexists. eexists. split; reflexivity.
Qed.

Lemma empty_cloud_raises_witness :
  (exists e,
     predator_infer example_collate example_ransac (example_config 2)
       [] [[1; 2; 3]]%Q example_rng = Raise e /\
     do_POST example_collate example_ransac (example_config 2)
       [("src"%string, []); ("tgt"%string, [[1; 2; 3]]%Q)] example_rng = Raise e /\
     e = IndexError) /\
  (exists e,
     predator_infer example_collate example_ransac (example_config 2)
       [] [[1; 2; 3]; [4; 5]]%Q example_rng = Raise e /\
     e = ValueError) /\
  (exists d it,
     ThreeDMatchDemo.init [[1; 2]]%Q [[3]; [4]]%Q = Ok d /\
     ThreeDMatchDemo.getitem d 0 = Ok it).
Proof.
  split; [|split].
  - destruct (@empty_cloud_raises example_collate example_ransac (example_config 2)
                [("src"%string, []); ("tgt"%string, [[1; 2; 3]]%Q)]
                [] [[1; 2; 3]]%Q example_rng eq_refl eq_refl) as [H _].
    destruct (H (or_introl eq_refl)) as (e & H1 & H2 & _ & H4 & _).
    exists e. split; [exact H1|]. split; [exact H2|].
    apply H4. split; [|discriminate].
    eexists. eexists. split; reflexivity.
  - destruct (@empty_cloud_raises example_collate example_ransac (example_config 2)
                [("src"%string, []); ("tgt"%string, [[1; 2; 3]; [4; 5]]%Q)]
                [] [[1; 2; 3]; [4; 5]]%Q example_rng eq_refl eq_refl) as [H _].
    destruct (H (or_introl eq_refl)) as (e & H1 & _ & _ & _ & H5).
    exists e. split; [exact H1|].
    apply H5. intros [(s & t & _ & Et) _]. discriminate Et.
  - destruct (@empty_cloud_raises example_collate example_ransac (example_config 2)
                [("src"%string, [[1; 2]]%Q); ("tgt"%string, [[3]; [4]]%Q)]
                [[1; 2]]%Q [[3]; [4]]%Q example_rng eq_refl eq_refl) as [_ H].
    apply H.
    + discriminate.
    + discriminate.
    + eexists. eexists. split; reflexivity.
Defined.

(** C2, the claim as stated fails: not every request gets a dict.  With
    a network that finds no overlap, the weights of a cloud of two points
    sum to 0, the sampling of one point raises, and so do [predator_infer]
    and [do_POST]; and a request with an empty cloud raises as well. *)
Lemma request_without_response :
  predator_infer example_collate example_ransac (no_overlap_config 1)
    [[0; 0; 0]; [1; 0; 0]]%Q [[1; 0; 0]; [2; 0; 0]]%Q example_rng
  = Raise ValueError /\
  do_POST example_collate example_ransac (no_overlap_config 1)
    [("src"%string, [[0; 0; 0]; [1; 0; 0]]%Q);
     ("tgt"%string, [[1; 0; 0]; [2; 0; 0]]%Q)] example_rng
  = Raise ValueError /\
  do_POST example_collate example_ransac (example_config 1)
    [("src"%string, []); ("tgt"%string, [[1; 0; 0]; [2; 0; 0]]%Q)] example_rng
  = Raise IndexError.
Proof. repeat split. Qed.

Lemma predator_infer_response_witness :
  predator_infer example_collate example_ransac (example_config 3)
    [[0; 0; 0]; [1; 0; 0]]%Q [[1; 0; 0]; [2; 0; 0]]%Q example_rng
  = Ok ([("transform"%string, PyNone)], example_rng) /\
  do_POST example_collate example_ransac (example_config 3)
    [("src"%string, [[0; 0; 0]; [1; 0; 0]]%Q);
     ("tgt"%string, [[1; 0; 0]; [2; 0; 0]]%Q)] example_rng
  = Ok (200%nat, [("transform"%string, PyNone)], example_rng).
Proof.
  pose proof (@predator_infer_response example_collate example_ransac
                (example_config 3) [[0; 0; 0]; [1; 0; 0]]%Q [[1; 0; 0]; [2; 0; 0]]%Q
                example_rng) as (H1 & _ & _ & H4).
  assert (Hinf : predator_infer example_collate example_ransac (example_config 3)
                   [[0; 0; 0]; [1; 0; 0]]%Q [[1; 0; 0]; [2; 0; 0]]%Q example_rng
                 = Ok ([("transform"%string, PyNone)], example_rng)).
  { apply (proj1 (H1 [[0; 0; 0]; [1; 0; 0]]%Q [[1; 0; 0]; [2; 0; 0]]%Q
                     [[1]; [1]]%Q [[1]; [1]]%Q example_rng eq_refl)).
    reflexivity. }
  split; [exact Hinf|].
  apply (proj1 (H4 [("src"%string, [[0; 0; 0]; [1; 0; 0]]%Q);
                    ("tgt"%string, [[1; 0; 0]; [2; 0; 0]]%Q)] eq_refl eq_refl)).
  exact Hinf.
Defined.


(** ** Arrays *)

Lemma nth_error_tabulate (r c : nat) (f : nat -> nat -> Q) (i : nat) :
  (i < r)%nat ->
  nth_error (Arr.rows (Arr.tabulate r c f)) i = Some (map (fun j => f i j) (seq 0 c)).
Proof.
  intros Hi. cbn [Arr.tabulate Arr.rows].
  rewrite nth_error_map, nth_error_seq.
  apply Nat.ltb_lt in Hi. now rewrite Hi.
Qed.

Lemma get_tabulate (r c : nat) (f : nat -> nat -> Q) (i j : nat) :
  (i < r)%nat -> (j < c)%nat -> Arr.get (Arr.tabulate r c f) i j = f i j.
Proof.
  intros Hi Hj. unfold Arr.get.
  pose proof (nth_error_tabulate c f Hi) as Hr.
  apply nth_error_nth with (d := @nil Q) in Hr. rewrite Hr.
  assert (Hs : nth_error (map (fun j => f i j) (seq 0 c)) j = Some (f i j)).
  { rewrite nth_error_map, nth_error_seq.
    apply Nat.ltb_lt in Hj. now rewrite Hj. }
  now apply nth_error_nth with (d := 0%Q) in Hs.
Qed.

Lemma bdim_one (x : nat) : Arr.bdim x 1 = Some x.
Proof.
  unfold Arr.bdim. destruct (x =? 1)%nat eqn:E; [reflexivity|].
  cbn. reflexivity.
Qed.

Lemma Forall_slices {A : Type} (P : A -> Prop) (k : Z) (x : list A) :
  Forall P x -> Forall P (Py.slice_to k x) /\ Forall P (Py.slice_from k x).
Proof.
  intros H. apply Forall_app. now rewrite slice_to_from.
Qed.

Lemma Forall_every {A : Type} (P : A -> Prop) (gap : nat) (x : list A) :
  Forall P x -> forall wait, Forall P (Py.every gap wait x).
Proof.
  induction 1 as [|a r Ha _ IH]; intros wait; cbn [Py.every]; [constructor|].
  destruct wait; [constructor; [exact Ha | apply IH] | apply IH].
Qed.

Lemma slice_step_ok (d : Z) (m : Arr.mat) (P : list Q -> Prop) :
  d <> 0 -> Forall P (Arr.rows m) ->
  exists rs,
    Arr.slice_step d m = Ok (Arr.with_rows m rs) /\ Forall P rs.
Proof.
  intros Hd HP. unfold Arr.slice_step, Py.slice_step.
  apply Z.eqb_neq in Hd. rewrite Hd.
  destruct (0 <? d); eexists; (split; [reflexivity|]);
    apply Forall_every; [|apply Forall_rev]; exact HP.
Qed.

Lemma shape_3x3 (m : Arr.mat) :
  Arr.wf m -> Arr.nrows m = 3%nat -> Arr.ncols m = 3%nat ->
  exists a b c d e f g h i,
    m = {| Arr.nrows := 3; Arr.ncols := 3;
           Arr.rows := [[a; b; c]; [d; e; f]; [g; h; i]] |}.
Proof.
  destruct m as [nr nc rs]. unfold Arr.wf. cbn. intros [Hl Hr] -> ->.
  destruct rs as [|r0 [|r1 [|r2 [|]]]]; try discriminate.
  inversion Hr as [|? ? H0 Hr1]; subst. inversion Hr1 as [|? ? H1 Hr2]; subst.
  inversion Hr2 as [|? ? H2 _]; subst.
  destruct r0 as [|a [|b [|c [|]]]]; try discriminate.
  destruct r1 as [|d [|e [|f [|]]]]; try discriminate.
  destruct r2 as [|g [|h [|i [|]]]]; try discriminate.
  now exists a, b, c, d, e, f, g, h, i.
Qed.

Lemma shape_3x1 (m : Arr.mat) :
  Arr.wf m -> Arr.nrows m = 3%nat -> Arr.ncols m = 1%nat ->
  exists a b c,
    m = {| Arr.nrows := 3; Arr.ncols := 1; Arr.rows := [[a]; [b]; [c]] |}.
Proof.
  destruct m as [nr nc rs]. unfold Arr.wf. cbn. intros [Hl Hr] -> ->.
  destruct rs as [|r0 [|r1 [|r2 [|]]]]; try discriminate.
  inversion Hr as [|? ? H0 Hr1]; subst. inversion Hr1 as [|? ? H1 Hr2]; subst.
  inversion Hr2 as [|? ? H2 _]; subst.
  destruct r0 as [|a [|]]; try discriminate.
  destruct r1 as [|b [|]]; try discriminate.
  destruct r2 as [|c [|]]; try discriminate.
  now exists a, b, c.
Qed.

Lemma bget_tabulate (r c : nat) (f : nat -> nat -> Q) (i j : nat) :
  (i < r)%nat -> (j < c)%nat -> Arr.bget (Arr.tabulate r c f) i j = f i j.
Proof.
  intros Hi Hj. unfold Arr.bget.
  change (Arr.nrows (Arr.tabulate r c f)) with r.
  change (Arr.ncols (Arr.tabulate r c f)) with c.
  assert (Ei : (if (r =? 1)%nat then 0%nat else i) = i).
  { destruct (r =? 1)%nat eqn:E; [apply Nat.eqb_eq in E; lia | reflexivity]. }
  assert (Ej : (if (c =? 1)%nat then 0%nat else j) = j).
  { destruct (c =? 1)%nat eqn:E; [apply Nat.eqb_eq in E; lia | reflexivity]. }
  rewrite Ei, Ej. now apply get_tabulate.
Qed.

(** The matrix the visualizer builds from a 3 by 3 [rot] and a 3 by 1
    [trans]. *)
Lemma transform_matrix_rows (a b c d e f g h i t0 t1 t2 : Q) :
  (m1 <- Arr.set_block (Arr.eye 4) 3 3
           {| Arr.nrows := 3; Arr.ncols := 3;
              Arr.rows := [[a; b; c]; [d; e; f]; [g; h; i]] |} ;;
   Arr.set_col m1 3 3
     (Arr.flatten {| Arr.nrows := 3; Arr.ncols := 1;
                     Arr.rows := [[t0]; [t1]; [t2]] |}))
  = Ok {| Arr.nrows := 4; Arr.ncols := 4;
          Arr.rows := [[a; b; c; t0]; [d; e; f; t1]; [g; h; i; t2];
                       [0; 0; 0; 1]]%Q |}.
Proof. reflexivity. Qed.

(** [(rot @ pts.T + trans).T], row by row. *)
Lemma transformed_rows (a b c d e f g h i t0 t1 t2 : Q) (pts : Arr.mat) :
  Arr.ncols pts = 3%nat -> Arr.nrows pts = length (Arr.rows pts) ->
  let rot := {| Arr.nrows := 3; Arr.ncols := 3;
                Arr.rows := [[a; b; c]; [d; e; f]; [g; h; i]] |} in
  let trans := {| Arr.nrows := 3; Arr.ncols := 1;
                  Arr.rows := [[t0]; [t1]; [t2]] |} in
  exists moved,
    (rotated <- Arr.matmul rot (Arr.transpose pts) ;; Arr.add rotated trans)
    = Ok moved /\
    length (Arr.rows (Arr.transpose moved)) = length (Arr.rows pts) /\
    forall k p0 p1 p2,
      nth_error (Arr.rows pts) k = Some [p0; p1; p2] ->
      nth_error (Arr.rows (Arr.transpose moved)) k
      = Some [a * p0 + (b * p1 + (c * p2 + 0)) + t0;
              d * p0 + (e * p1 + (f * p2 + 0)) + t1;
              g * p0 + (h * p1 + (i * p2 + 0)) + t2]%Q.
Proof.
  intros Hc Hr rot trans.
  unfold Arr.matmul.
  change (Arr.ncols rot) with 3%nat. change (Arr.nrows rot) with 3%nat.
  change (Arr.nrows (Arr.transpose pts)) with (Arr.ncols pts).
  change (Arr.ncols (Arr.transpose pts)) with (Arr.nrows pts).
  rewrite Hc. cbn [Nat.eqb bind].
  unfold Arr.add.
  change (Arr.ncols trans) with 1%nat. change (Arr.nrows trans) with 3%nat.
  cbn [Arr.tabulate Arr.nrows Arr.ncols].
  rewrite bdim_one. cbn [Arr.bdim Nat.eqb].
  eexists. split; [reflexivity|]. split.
  - cbn [Arr.transpose Arr.tabulate Arr.rows Arr.nrows Arr.ncols].
    rewrite length_map, length_seq. exact Hr.
  - intros k p0 p1 p2 Hk.
    assert (Hlt : (k < Arr.nrows pts)%nat).
    { rewrite Hr. apply nth_error_Some. congruence. }
    unfold Arr.transpose at 1. cbn [Arr.nrows Arr.ncols Arr.tabulate].
    rewrite nth_error_tabulate by exact Hlt.
    assert (Hp : forall l, (l < 3)%nat ->
              Arr.get (Arr.transpose pts) l k = nth l [p0; p1; p2] 0%Q).
    { intros l Hl. unfold Arr.transpose. rewrite get_tabulate by lia.
      unfold Arr.get. now rewrite (nth_error_nth _ _ [] Hk). }
    cbn [map seq]. repeat f_equal.
    all: rewrite get_tabulate, bget_tabulate by lia.
    all: cbn [map seq fold_right].
    all: rewrite !Hp by lia.
    all: reflexivity.
Qed.


Lemma load_sample_inv (i : nat) (name : string) (d : Visualizer.data)
    (factor : Z) (s : Visualizer.sample_data) :
  Visualizer.load_sample i name d factor = Ok s ->
  let pcd := Arr.rows (Visualizer.d_pcd d) in
  let len_src := Visualizer.d_len_src d in
  Py.slice_step factor (Py.slice_to len_src pcd) = Ok (Visualizer.source_points s) /\
  Py.slice_step factor (Py.slice_from len_src pcd) = Ok (Visualizer.target_points s) /\
  Visualizer.sample_id s = i /\
  Visualizer.filename s = name /\
  Visualizer.downsample_factor s = factor /\
  Visualizer.source_original s = length (Py.slice_to len_src pcd) /\
  Visualizer.target_original s = length (Py.slice_from len_src pcd) /\
  Visualizer.source_downsampled s = length (Visualizer.source_points s) /\
  Visualizer.target_downsampled s = length (Visualizer.target_points s).
Proof.
  unfold Visualizer.load_sample, Arr.slice_step. cbn [Arr.slice_to Arr.slice_from
    Arr.with_rows Arr.rows].
  destruct (Py.slice_step factor (Py.slice_to _ _)) as [sp|]; cbn [bind];
    [|discriminate].
  destruct (Py.slice_step factor (Py.slice_from _ _)) as [tp|]; cbn [bind];
    [|discriminate].
  destruct (Arr.set_block _ _ _ _) as [m1|]; cbn [bind]; [|discriminate].
  destruct (Arr.set_col _ _ _ _) as [m2|]; cbn [bind]; [|discriminate].
  destruct (Arr.matmul _ _) as [rotated|]; cbn [bind]; [|discriminate].
  destruct (Arr.add _ _) as [moved|]; cbn [bind]; [|discriminate].
  intros [= <-]. cbn. repeat split.
Qed.

(** A sample built from a 3 by 3 rotation and a 3 by 1 translation given
    by their entries. *)
Lemma load_sample_rows (a b c d e f g h i t0 t1 t2 : Q) (n : nat) (name : string)
    (pcd : Arr.mat) (len_src factor : Z) :
  Arr.wf pcd -> Arr.ncols pcd = 3%nat -> factor <> 0 ->
  exists s,
    Visualizer.load_sample n name
      {| Visualizer.d_pcd := pcd; Visualizer.d_len_src := len_src;
         Visualizer.d_rot := {| Arr.nrows := 3; Arr.ncols := 3;
                                Arr.rows := [[a; b; c]; [d; e; f]; [g; h; i]] |};
         Visualizer.d_trans := {| Arr.nrows := 3; Arr.ncols := 1;
                                  Arr.rows := [[t0]; [t1]; [t2]] |} |} factor
    = Ok s /\
    Visualizer.matrix s
    = [[a; b; c; t0]; [d; e; f; t1]; [g; h; i; t2]; [0; 0; 0; 1]]%Q /\
    length (Visualizer.source_transformed s) = length (Visualizer.source_points s) /\
    Forall (fun r => length r = 3%nat) (Visualizer.source_points s) /\
    forall k p0 p1 p2,
      nth_error (Visualizer.source_points s) k = Some [p0; p1; p2] ->
      nth_error (Visualizer.source_transformed s) k
      = Some [a * p0 + (b * p1 + (c * p2 + 0)) + t0;
              d * p0 + (e * p1 + (f * p2 + 0)) + t1;
              g * p0 + (h * p1 + (i * p2 + 0)) + t2]%Q.
Proof.
  intros Hpw Hpc Hf.
  unfold Visualizer.load_sample.
  cbn [Visualizer.d_rot Visualizer.d_trans Visualizer.d_pcd Visualizer.d_len_src].
  assert (H3 : Forall (fun r => length r = 3%nat) (Arr.rows pcd))
    by (rewrite <- Hpc; apply Hpw).
  destruct (@slice_step_ok factor (Arr.slice_to len_src pcd)
              (fun r => length r = 3%nat) Hf
              (proj1 (@Forall_slices _ _ len_src _ H3))) as (sp & -> & Hsp3).
  destruct (@slice_step_ok factor (Arr.slice_from len_src pcd)
              (fun r => length r = 3%nat) Hf
              (proj2 (@Forall_slices _ _ len_src _ H3))) as (tp & -> & _).
  cbn [bind].
  pose proof (transform_matrix_rows a b c d e f g h i t0 t1 t2) as HM.
  destruct (Arr.set_block (Arr.eye 4) 3 3 _) as [m1|]; [|discriminate HM].
  cbn [bind] in HM |- *. rewrite HM. cbn [bind].
  destruct (@transformed_rows a b c d e f g h i t0 t1 t2
              (Arr.with_rows (Arr.slice_to len_src pcd) sp) Hpc eq_refl)
    as (moved & Hmv & Hlen & Hrows).
  destruct (Arr.matmul _ _) as [rotated|]; [|discriminate Hmv].
  cbn [bind] in Hmv |- *. rewrite Hmv.
  eexists. split; [reflexivity|].
  cbn [Visualizer.matrix Visualizer.source_points Visualizer.source_transformed
       Arr.tolist Arr.rows Arr.with_rows].
  split; [reflexivity|]. split; [exact Hlen|]. split; [exact Hsp3 | exact Hrows].
Qed.






(** ** Runs on concrete requests *)

(** Two rounds of the sampling loop: the draws 1/8 and 4/8 both fall on
    index 0, whose weight is then removed, and the draw 7/8 of the second
    round falls on index 2. *)
Example choice_two_rounds :
  match Np.choice 3 2 (Torch.div_scalar [3#4; 1#8; 1#8]
                         (Torch.sum [3#4; 1#8; 1#8])) example_rng with
  | Ok (idx, g) => idx = [0; 2]%nat /\ Np.pos g = 3%nat
  | Raise _ => False
  end.
Proof. vm_compute. split; reflexivity. Qed.

(** Clouds of two points, below the target size, reach the pose
    estimator whole; its answer [None] comes back as
    [{"transform": None}] with status 200. *)
Example request_without_solution :
  match do_POST example_collate example_ransac (example_config 3)
          [("src"%string, [[0; 0; 0]; [1; 0; 0]]%Q);
           ("tgt"%string, [[1; 0; 0]; [2; 0; 0]]%Q)] example_rng with
  | Ok (status, d, _) => status = 200%nat /\ d = [("transform"%string, PyNone)]
  | Raise _ => False
  end.
Proof. vm_compute. split; reflexivity. Qed.

(** Clouds of four points are cut down to three points each, and the
    matrix of the pose estimator comes back as its four rows. *)
Example request_with_transform :
  match do_POST example_collate example_ransac (example_config 3)
          [("src"%string, [[0; 0; 0]; [1; 0; 0]; [0; 1; 0]; [0; 0; 1]]%Q);
           ("tgt"%string, [[1; 0; 0]; [2; 0; 0]; [1; 1; 0]; [1; 0; 1]]%Q)]
          example_rng with
  | Ok (status, d, g) =>
      status = 200%nat /\
      d = [("transform"%string,
            PyRows [[1; 0; 0; 0]; [0; 1; 0; 0]; [0; 0; 1; 0]; [0; 0; 0; 1]]%Q)] /\
      Np.pos g = 6%nat
  | Raise _ => False
  end.
Proof. vm_compute. repeat split; reflexivity. Qed.

(** The visualizer on one file: a quarter turn about the z axis and a
    shift by (1, 0, 0), with every second point kept. *)
Example load_one_sample :
  match Visualizer.load_sample 0 "a.pth"
          {| Visualizer.d_pcd := {| Arr.nrows := 4; Arr.ncols := 3;
               Arr.rows := [[1; 2; 3]; [4; 5; 6]; [7; 8; 9]; [0; 0; 0]]%Q |};
             Visualizer.d_len_src := 3;
             Visualizer.d_rot := {| Arr.nrows := 3; Arr.ncols := 3;
               Arr.rows := [[0; -1; 0]; [1; 0; 0]; [0; 0; 1]]%Q |};
             Visualizer.d_trans := {| Arr.nrows := 3; Arr.ncols := 1;
               Arr.rows := [[1]; [0]; [0]]%Q |} |} 2 with
  | Ok s =>
      Visualizer.source_points s = [[1; 2; 3]; [7; 8; 9]]%Q /\
      Visualizer.target_points s = [[0; 0; 0]]%Q /\
      Forall2 veq (Visualizer.source_transformed s) [[-1; 1; 3]; [-7; 7; 9]]%Q /\
      Visualizer.matrix s
      = [[0; -1; 0; 1]; [1; 0; 0; 0]; [0; 0; 1; 0]; [0; 0; 0; 1]]%Q
  | Raise _ => False
  end.
Proof.
  cbn. repeat split.
  repeat constructor; reflexivity.
Qed.

(** * Further properties *)

(** ** The architecture list of the service *)

Lemma append_each_concat (n : nat) (block : list string) :
  forall arch, append_each n block arch = arch ++ concat (repeat block n).
Proof.
  induction n as [|k IH]; intros arch; cbn [append_each repeat concat].
  - now rewrite app_nil_r.
  - rewrite IH, <- app_assoc. reflexivity.
Qed.

Lemma count_occ_blocks (n : nat) (block : list string) (x : string) :
  count_occ string_dec (concat (repeat block n)) x
  = (n * count_occ string_dec block x)%nat.
Proof.
  induction n as [|k IH]; cbn [repeat concat]; [reflexivity|].
  rewrite count_occ_app, IH. lia.
Qed.

Lemma length_blocks (n : nat) (block : list string) :
  length (concat (repeat block n)) = (n * length block)%nat.
Proof.
  induction n as [|k IH]; cbn [repeat concat]; [reflexivity|].
  rewrite length_app, IH. lia.
Qed.

Lemma architecture_parts (num_layers : Z) :
  architecture num_layers
  = (["simple"; "resnetb"]%string
       ++ concat (repeat ["resnetb_strided"; "resnetb"; "resnetb"]%string
                    (Z.to_nat (num_layers - 1))))
    ++ (concat (repeat ["nearest_upsample"; "unary"]%string
                  (Z.to_nat (num_layers - 2)))
          ++ ["nearest_upsample"; "last_unary"]%string).
Proof.
  unfold architecture. rewrite !append_each_concat, <- !app_assoc. reflexivity.
Qed.

(** X1.  Whatever [num_layers] is, the architecture list starts with
    ["simple"], ends with ["last_unary"], which occurs once, and has
    [4 + 3 max(0, num_layers - 1) + 2 max(0, num_layers - 2)] entries:
    [5 num_layers - 3] entries from two layers on, and 4 entries, those
    of one layer, for every [num_layers] below 1. *)
Theorem architecture_shape (num_layers : Z) :
  hd_error (architecture num_layers) = Some "simple"%string /\
  last (architecture num_layers) ""%string = "last_unary"%string /\
  count_occ string_dec (architecture num_layers) "last_unary"%string = 1%nat /\
  length (architecture num_layers)
  = (4 + 3 * Z.to_nat (num_layers - 1) + 2 * Z.to_nat (num_layers - 2))%nat /\
  (2 <= num_layers ->
   Z.of_nat (length (architecture num_layers)) = 5 * num_layers - 3) /\
  (num_layers <= 1 ->
   architecture num_layers
   = ["simple"; "resnetb"; "nearest_upsample"; "last_unary"]%string).
Proof.
  split; [|split; [|split; [|split; [|split]]]].
  - rewrite architecture_parts. reflexivity.
  - unfold architecture. apply last_last.
  - rewrite architecture_parts, !count_occ_app, !count_occ_blocks. cbn. lia.
  - rewrite architecture_parts, !length_app, !length_blocks. cbn [length]. lia.
  - intros H. rewrite architecture_parts, !length_app, !length_blocks.
    cbn [length]. lia.
  - intros H. rewrite architecture_parts.
    replace (Z.to_nat (num_layers - 1)) with 0%nat by lia.
    replace (Z.to_nat (num_layers - 2)) with 0%nat by lia.
    reflexivity.
Qed.

Lemma architecture_shape_witness :
  Z.of_nat (length (architecture 4)) = 17 /\
  architecture 0 = ["simple"; "resnetb"; "nearest_upsample"; "last_unary"]%string.
Proof.
  split.
  - apply (proj1 (proj2 (proj2 (proj2 (proj2 (architecture_shape 4)))))). lia.
  - apply (proj2 (proj2 (proj2 (proj2 (proj2 (architecture_shape 0)))))). lia.
Defined.

(** X2.  The list has [max(0, num_layers - 1)] strided blocks and
    [max(0, num_layers - 2) + 1] up-sampling blocks, every strided block
    standing before every up-sampling block: the two numbers agree
    exactly when [num_layers] is at least 2, and below that the list has
    one up-sampling block and no strided block. *)
Theorem architecture_balance (num_layers : Z) :
  let strided := count_occ string_dec (architecture num_layers) "resnetb_strided"%string in
  let upsample := count_occ string_dec (architecture num_layers) "nearest_upsample"%string in
  strided = Z.to_nat (num_layers - 1) /\
  upsample = S (Z.to_nat (num_layers - 2)) /\
  (strided = upsample <-> 2 <= num_layers) /\
  exists encoder decoder,
    architecture num_layers = encoder ++ decoder /\
    ~ In "nearest_upsample"%string encoder /\
    ~ In "resnetb_strided"%string decoder.
Proof.
  cbv zeta.
  assert (Hs : count_occ string_dec (architecture num_layers) "resnetb_strided"%string
               = Z.to_nat (num_layers - 1)).
  { rewrite architecture_parts, !count_occ_app, !count_occ_blocks. cbn. lia. }
  assert (Hu : count_occ string_dec (architecture num_layers) "nearest_upsample"%string
               = S (Z.to_nat (num_layers - 2))).
  { rewrite architecture_parts, !count_occ_app, !count_occ_blocks. cbn. lia. }
  split; [exact Hs|]. split; [exact Hu|]. split; [rewrite Hs, Hu; lia|].
  eexists. eexists. split; [apply architecture_parts|]. split.
  - apply (count_occ_not_In string_dec).
    rewrite count_occ_app, count_occ_blocks. cbn. lia.
  - apply (count_occ_not_In string_dec).
    rewrite count_occ_app, count_occ_blocks. cbn. lia.
Qed.

Lemma architecture_balance_witness :
  count_occ string_dec (architecture 4) "resnetb_strided"%string
  = count_occ string_dec (architecture 4) "nearest_upsample"%string.
Proof.
  apply (proj2 (proj1 (proj2 (proj2 (architecture_balance 4))))). lia.
Defined.

(** ** Which points the subsampler selects *)

(** The indices a round of the sampling loop adds have a positive
    probability in the distribution the round starts from. *)
Lemma draw_round_hit (size : nat) (p : list Q) (found : list nat) (g : Np.rng) :
  Forall (fun w => 0 <= w)%Q p ->
  (size <= positives (Np.zero_at found p) + length found)%nat ->
  (length found < size)%nat ->
  let '(p1, found1, _) := Np.draw_round size p found g in
  p1 = Np.zero_at found p /\
  forall i, In i found1 -> In i found \/ (0 < nth i p 0)%Q.
Proof.
  intros Hnn Hcount Hlt. unfold Np.draw_round.
  pose proof (rand_spec (size - length found) g) as [Hlen Hx].
  destruct (Np.rand (size - length found) g) as [x g1]. cbn [fst] in *.
  rewrite zero_at_guard.
  set (p1 := Np.zero_at found p) in *.
  set (T := last (Np.cumsum p1) 0%Q).
  split; [reflexivity|].
  assert (Hnn1 : Forall (fun w => 0 <= w)%Q p1) by now apply zero_at_nonneg.
  assert (Hpos1 : (1 <= positives p1)%nat) by lia.
  assert (Hsum : (0 < Torch.sum p1)%Q) by now apply sum_pos.
  assert (Hne : p1 <> []).
  { intros E. rewrite E in Hpos1. cbn in Hpos1. lia. }
  assert (HT : (T == Torch.sum p1)%Q).
  { unfold T, Np.cumsum. rewrite last_cumsum by exact Hne. lra. }
  assert (HT0 : (0 < T)%Q) by lra.
  intros i Hi. apply in_app_or in Hi. destruct Hi as [Hi | Hi]; [now left|].
  right. apply unique_first_in in Hi. destruct Hi as [Hi _].
  apply in_map_iff in Hi. destruct Hi as (v & <- & Hv).
  rewrite Forall_forall in Hx. destruct (Hx v Hv) as [Hv0 Hv1].
  assert (Hhit : (0 < nth (Np.searchsorted_right
                             (map (fun c => c / T)%Q (Np.cumsum_from 0 p1)) v) p1 0)%Q).
  { apply searchsorted_hit; try assumption.
    - apply Qmult_le_0_compat; lra.
    - assert ((v * T < 1 * T)%Q) by (apply Qmult_lt_compat_r; assumption). lra. }
  unfold Np.cumsum. unfold p1 in Hhit at 2. rewrite nth_zero_at in Hhit.
  destruct (existsb _ found); [lra | exact Hhit].
Qed.

Lemma zero_at_positive (found : list nat) (p : list Q) (i : nat) :
  (0 < nth i (Np.zero_at found p) 0)%Q -> (0 < nth i p 0)%Q.
Proof.
  rewrite nth_zero_at. destruct (existsb _ found); [lra | tauto].
Qed.

(** Every index the sampling loop returns has a positive probability in
    the distribution [p0] the loop was started with. *)
Lemma draw_loop_positive (p0 : list Q) (rounds : nat) :
  forall size p found g,
  Forall (fun w => 0 <= w)%Q p ->
  NoDup found ->
  Forall (fun i => i < length p)%nat found ->
  (size <= positives (Np.zero_at found p) + length found)%nat ->
  (length found <= size)%nat ->
  (forall i, 0 < nth i p 0 -> 0 < nth i p0 0)%Q ->
  (forall i, In i found -> 0 < nth i p0 0)%Q ->
  forall i, In i (fst (Np.draw_loop rounds size p found g)) -> (0 < nth i p0 0)%Q.
Proof.
  induction rounds as [|k IH]; intros size p found g Hnn Hnd Hin Hc Hle Hp Hf;
    cbn [Np.draw_loop].
  - exact Hf.
  - destruct (length found <? size)%nat eqn:E; [|exact Hf].
    apply Nat.ltb_lt in E.
    pose proof (@draw_round_spec size p found g Hnn Hnd Hin Hc E) as Hs.
    pose proof (@draw_round_hit size p found g Hnn Hc E) as Hh.
    destruct (Np.draw_round size p found g) as [[p1 found1] g1].
    destruct Hs as (H1 & H2 & H3 & H4 & H5 & H6).
    destruct Hh as [Hp1 Hnew].
    rewrite <- H2 in H4.
    apply IH; try assumption; try lia.
    + intros i Hi. apply Hp. subst p1. eapply zero_at_positive, Hi.
    + intros i Hi. destruct (Hnew i Hi) as [Hold | Hpos]; [now apply Hf | now apply Hp].
Qed.

(** Whenever [choice] returns, every index it returns has a positive
    probability. *)
Lemma choice_positive (pop_size : nat) (size : Z) (p : list fl) (g g' : Np.rng)
    (idx : list nat) :
  Np.choice pop_size size p g = Ok (idx, g') ->
  length p = pop_size /\
  Forall (fun i => 0 < nth i (map Fl.val p) 0)%Q idx.
Proof.
  unfold Np.choice.
  destruct ((pop_size =? 0)%nat && negb (size =? 0)); [discriminate|].
  destruct (length p =? pop_size)%nat eqn:El; cbn [negb]; [|discriminate].
  apply Nat.eqb_eq in El. cbv zeta.
  destruct (Np.kahan_sum p) as [t| | |] eqn:Ek; cbn [Fl.isnan]; try discriminate.
  2:{ destruct (existsb Fl.neg p); discriminate. }
  2:{ destruct (existsb Fl.neg p); discriminate. }
  destruct (existsb Fl.neg p) eqn:En; [discriminate|].
  destruct (Fl.off_one Np.atol (Fin t)); [discriminate|].
  destruct (Z.of_nat pop_size <? size); [discriminate|].
  destruct (size <? 0) eqn:Es; [discriminate|].
  destruct (Z.of_nat (Np.count_pos p) <? size) eqn:Ec; [discriminate|].
  apply Z.ltb_ge in Es, Ec.
  pose proof (kahan_sum_finite p Ek) as Hp.
  set (q := map Fl.val p) in *.
  rewrite Hp in En, Ec. rewrite count_pos_fin in Ec.
  apply no_neg_nonneg in En.
  intros H. split; [exact El|].
  apply Forall_forall. intros i Hi.
  assert (Hi' : In i (fst (Np.draw_loop (Z.to_nat size) (Z.to_nat size) q [] g))).
  { injection H as H. rewrite H. exact Hi. }
  revert Hi'. apply (@draw_loop_positive q (Z.to_nat size)); try assumption.
  - constructor.
  - constructor.
  - cbn [length Np.zero_at fold_left]. lia.
  - cbn [length]. lia.
  - auto.
  - intros j [].
Qed.

(** A positive probability is that of a weight that is not 0. *)
Lemma prob_positive (scores : list Q) (i : nat) :
  (0 < nth i (map Fl.val (Torch.div_scalar scores (Torch.sum scores))) 0)%Q ->
  (i < length scores)%nat /\ ~ (nth i scores 0 == 0)%Q.
Proof.
  intros H.
  destruct (Nat.lt_ge_cases i (length scores)) as [Hi | Hi].
  2:{ rewrite nth_overflow in H by (unfold Torch.div_scalar; now rewrite !length_map).
      lra. }
  split; [exact Hi|]. intros E.
  unfold Torch.div_scalar in H. rewrite map_map in H.
  rewrite (nth_indep _ 0%Q (Fl.val (Fl.div 0 (Torch.sum scores)))) in H
    by now rewrite length_map.
  rewrite (map_nth (fun w => Fl.val (Fl.div w (Torch.sum scores)))) in H.
  unfold Fl.div in H.
  destruct (Qeq_bool (Torch.sum scores) 0).
  - destruct (Qeq_bool (nth i scores 0%Q) 0%Q); [cbn in H; lra|].
    destruct (Qle_bool (nth i scores 0%Q) 0%Q); cbn in H; lra.
  - cbn [Fl.val] in H. rewrite E in H. unfold Qdiv in H.
    rewrite Qmult_0_l in H. lra.
Qed.

(** What the subsampler returns on a cloud of more than [K] points, with
    the weights of the points it selects. *)
Lemma subsample_selected (K : Z) (pcd feats : tensor2) (scores : list Q)
    (g g' : Np.rng) (pcd' feats' : tensor2) :
  K < Z.of_nat (length pcd) ->
  subsample K pcd feats scores g = Ok (pcd', feats', g') ->
  length scores = length pcd /\
  exists idx,
    pcd' = map (fun i => nth i pcd []) idx /\
    feats' = map (fun i => nth i feats []) idx /\
    length idx = Z.to_nat K /\ NoDup idx /\
    Forall (fun i => i < length pcd)%nat idx /\
    Forall (fun i => ~ (nth i scores 0 == 0)%Q) idx.
Proof.
  intros HK H.
  destruct (subsample_result_form _ _ _ _ _ H)
    as [(Hle & _) | (_ & idx0 & _)]; [lia|].
  clear idx0. revert H. unfold subsample. settle_ltb.
  destruct (Np.choice _ _ _ _) as [[idx g1]|] eqn:Ec; cbn [bind]; [|discriminate].
  destruct (Torch.index pcd idx) as [p1|] eqn:Ep; cbn [bind]; [|discriminate].
  destruct (Torch.index feats idx) as [f1|] eqn:Ef; cbn [bind]; [|discriminate].
  intros [= <- <- <-].
  destruct (choice_result _ _ _ _ Ec) as (_ & Hlen & Hnd & Hin).
  destruct (choice_positive _ _ _ _ Ec) as (Hl & Hpos).
  pose proof (index_in_range _ _ Ef) as Hfin.
  split.
  { unfold Torch.div_scalar in Hl. now rewrite length_map in Hl. }
  exists idx.
  split; [rewrite (index_ok pcd [] Hin) in Ep; now injection Ep|].
  split; [rewrite (index_ok feats [] Hfin) in Ef; now injection Ef|].
  split; [exact Hlen|]. split; [exact Hnd|]. split; [exact Hin|].
  eapply Forall_impl; [|exact Hpos].
  intros i Hi. cbv beta in Hi. now apply prob_positive in Hi.
Qed.

Lemma nth_zip_mul (a b : list Q) (i : nat) :
  length a = length b -> (i < length a)%nat ->
  nth i (map (fun xy => (fst xy * snd xy)%Q) (combine a b)) 0%Q
  = (nth i a 0 * nth i b 0)%Q.
Proof.
  intros Hl Hi.
  assert (Ha : nth_error a i = Some (nth i a 0%Q)) by now apply nth_error_nth'.
  assert (Hb : nth_error b i = Some (nth i b 0%Q))
    by (apply nth_error_nth'; lia).
  now apply nth_error_nth, nth_error_zip_mul.
Qed.

(** X3.  A point whose overlap score or whose saliency score is 0 is
    never selected: whenever the subsampler cuts a cloud of [N] points
    down ([K < N]) and returns, with the products of the overlap and
    saliency scores as weights, every index it selected has an overlap
    score and a saliency score that are not 0, so positive ones when the
    scores are not negative; this whatever the random draws are. *)
Theorem subsample_selects_positive (K : Z) (pcd feats : tensor2)
    (overlap saliency scores : list Q) (g g' : Np.rng) (pcd' feats' : tensor2) :
  length overlap = length pcd ->
  length saliency = length pcd ->
  Torch.mul overlap saliency = Ok scores ->
  K < Z.of_nat (length pcd) ->
  subsample K pcd feats scores g = Ok (pcd', feats', g') ->
  exists idx,
    pcd' = map (fun i => nth i pcd []) idx /\
    feats' = map (fun i => nth i feats []) idx /\
    Forall (fun i => ~ nth i overlap 0 == 0 /\ ~ nth i saliency 0 == 0)%Q idx /\
    (Forall (fun x => 0 <= x)%Q overlap -> Forall (fun x => 0 <= x)%Q saliency ->
     Forall (fun i => 0 < nth i overlap 0 /\ 0 < nth i saliency 0)%Q idx).
Proof.
  intros Ho Hs Hmul HK Hsub.
  rewrite mul_same_length in Hmul by lia. injection Hmul as <-.
  destruct (@subsample_selected _ _ _ _ _ _ _ _ HK Hsub)
    as (_ & idx & Hp & Hf & _ & _ & Hin & Hsel).
  exists idx. split; [exact Hp|]. split; [exact Hf|].
  assert (Hnz : Forall (fun i => ~ nth i overlap 0 == 0 /\ ~ nth i saliency 0 == 0)%Q idx).
  { apply Forall_forall. intros i Hi.
    rewrite Forall_forall in Hin, Hsel. specialize (Hin i Hi). specialize (Hsel i Hi).
    rewrite nth_zip_mul in Hsel by lia.
    split; intros E; apply Hsel; rewrite E; ring. }
  split; [exact Hnz|].
  intros Hon Hsn. apply Forall_forall. intros i Hi.
  rewrite Forall_forall in Hin, Hnz, Hon, Hsn.
  specialize (Hin i Hi). destruct (Hnz i Hi) as [H1 H2].
  assert (Hx : (0 <= nth i overlap 0)%Q) by (apply Hon, nth_In; lia).
  assert (Hy : (0 <= nth i saliency 0)%Q) by (apply Hsn, nth_In; lia).
  split; apply Qnot_le_lt; intros Hle; [apply H1 | apply H2]; lra.
Qed.

Lemma subsample_selects_positive_witness :
  match subsample 1 [[0; 0; 0]; [1; 1; 1]; [2; 2; 2]]%Q [[1]; [2]; [3]]%Q
          [0 * (1#2); (1#2) * (1#2); 1 * 0]%Q example_rng with
  | Ok (pcd', _, _) =>
      exists idx,
        pcd' = map (fun i => nth i [[0; 0; 0]; [1; 1; 1]; [2; 2; 2]]%Q []) idx /\
        Forall (fun i => 0 < nth i [0; 1#2; 1]%Q 0 /\ 0 < nth i [1#2; 1#2; 0]%Q 0)%Q idx
  | Raise _ => False
  end.
Proof.
  destruct (subsample 1 [[0; 0; 0]; [1; 1; 1]; [2; 2; 2]]%Q [[1]; [2]; [3]]%Q
              [0 * (1#2); (1#2) * (1#2); 1 * 0]%Q example_rng)
    as [[[p f] g']|e] eqn:E.
  - destruct (@subsample_selects_positive 1 [[0; 0; 0]; [1; 1; 1]; [2; 2; 2]]%Q
                [[1]; [2]; [3]]%Q [0; 1#2; 1]%Q [1#2; 1#2; 0]%Q
                [0 * (1#2); (1#2) * (1#2); 1 * 0]%Q example_rng g' p f
                eq_refl eq_refl eq_refl ltac:(cbn; lia) E)
      as (idx & Hp & _ & _ & Hpos).
    exists idx. split; [exact Hp|]. apply Hpos.
    + repeat constructor; apply Qle_bool_iff; reflexivity.
    + repeat constructor; apply Qle_bool_iff; reflexivity.
  - vm_compute in E. discriminate E.
Defined.

Lemma positives_indices (w : list Q) :
  forall k,
  length (filter (fun i => negb (Qle_bool (nth (i - k) w 0%Q) 0)) (seq k (length w)))
  = positives w.
Proof.
  induction w as [|a r IH]; intros k; [reflexivity|].
  assert (E : filter (fun i => negb (Qle_bool (nth (i - k) (a :: r) 0%Q) 0))
                (seq (S k) (length r))
              = filter (fun i => negb (Qle_bool (nth (i - S k) r 0%Q) 0))
                  (seq (S k) (length r))).
  { apply filter_ext_in. intros i Hi. apply in_seq in Hi.
    replace (i - k)%nat with (S (i - S k)) by lia. reflexivity. }
  change (seq k (length (a :: r))) with (k :: seq (S k) (length r)).
  cbn [filter]. rewrite E, Nat.sub_diag, positives_cons.
  change (nth 0 (a :: r) 0%Q) with a.
  destruct (negb (Qle_bool a 0)); cbn [length]; rewrite IH; reflexivity.
Qed.

(** X4.  When exactly [K] of the non-negative combined weights are
    positive ([K < N]), a selection the subsampler returns does not depend
    on the random draws as a set: the selected indices are pairwise
    distinct and are exactly the indices of the points of positive
    weight. *)
Theorem subsample_exact_support (K : Z) (pcd feats : tensor2) (scores : list Q)
    (g g' : Np.rng) (pcd' feats' : tensor2) :
  Forall (fun w => 0 <= w)%Q scores ->
  K < Z.of_nat (length pcd) ->
  Z.of_nat (positives scores) = K ->
  subsample K pcd feats scores g = Ok (pcd', feats', g') ->
  exists idx,
    pcd' = map (fun i => nth i pcd []) idx /\
    feats' = map (fun i => nth i feats []) idx /\
    NoDup idx /\
    forall i, In i idx <-> (i < length pcd)%nat /\ (0 < nth i scores 0)%Q.
Proof.
  intros Hnn HK Hpos Hsub.
  destruct (@subsample_selected _ _ _ _ _ _ _ _ HK Hsub)
    as (Hs & idx & Hp & Hf & Hlen & Hnd & Hin & Hsel).
  exists idx. split; [exact Hp|]. split; [exact Hf|]. split; [exact Hnd|].
  set (P := filter (fun i => negb (Qle_bool (nth (i - 0) scores 0%Q) 0))
              (seq 0 (length scores))).
  assert (HP : forall i, In i P <-> (i < length pcd)%nat /\ (0 < nth i scores 0)%Q).
  { intros i. unfold P. rewrite filter_In, in_seq, Nat.sub_0_r, pos_test, Hs.
    split; intros [H1 H2]; split; try assumption; lia. }
  assert (HlP : length P = length idx).
  { unfold P. rewrite positives_indices. lia. }
  assert (Hincl : incl idx P).
  { intros i Hi. apply HP. rewrite Forall_forall in Hin, Hsel, Hnn.
    split; [now apply Hin|].
    assert (H0 : (0 <= nth i scores 0)%Q).
    { apply Hnn, nth_In. rewrite Hs. now apply Hin. }
    apply Qnot_le_lt. intros Hle. apply (Hsel i Hi). lra. }
  assert (Hback : incl P idx).
  { apply NoDup_length_incl; [exact Hnd | lia | exact Hincl]. }
  intros i. rewrite <- HP. split; [apply Hincl | apply Hback].
Qed.

Lemma subsample_exact_support_witness :
  match subsample 2 [[0; 0; 0]; [1; 1; 1]; [2; 2; 2]]%Q [[1]; [2]; [3]]%Q
          [1#4; 0; 1#4]%Q example_rng with
  | Ok (pcd', feats', _) =>
      exists idx,
        pcd' = map (fun i => nth i [[0; 0; 0]; [1; 1; 1]; [2; 2; 2]]%Q []) idx /\
        In 0%nat idx /\ In 2%nat idx /\ ~ In 1%nat idx
  | Raise _ => False
  end.
Proof.
  destruct (subsample 2 [[0; 0; 0]; [1; 1; 1]; [2; 2; 2]]%Q [[1]; [2]; [3]]%Q
              [1#4; 0; 1#4]%Q example_rng) as [[[p f] g']|e] eqn:E.
  - destruct (@subsample_exact_support 2 [[0; 0; 0]; [1; 1; 1]; [2; 2; 2]]%Q
                [[1]; [2]; [3]]%Q [1#4; 0; 1#4]%Q example_rng g' p f)
      as (idx & Hp & _ & _ & Hiff).
    + repeat constructor; apply Qle_bool_iff; reflexivity.
    + cbn. lia.
    + reflexivity.
    + exact E.
    + exists idx. split; [exact Hp|]. repeat split.
      * apply Hiff. split; [cbn; lia | reflexivity].
      * apply Hiff. split; [cbn; lia | reflexivity].
      * intros H. apply Hiff in H. destruct H as [_ H]. discriminate H.
  - vm_compute in E. discriminate E.
Defined.

(** ** Bounds on the combined weights *)

(** X5.  For overlap and saliency scores of one length, all between 0
    and 1, the combined weight of every point is between 0 and 1 too and
    exceeds neither the overlap score nor the saliency score of the
    point. *)
Theorem combined_weight_bounds (overlap saliency : list Q) :
  length overlap = length saliency ->
  Forall (fun x => 0 <= x <= 1)%Q overlap ->
  Forall (fun x => 0 <= x <= 1)%Q saliency ->
  exists w,
    Torch.mul overlap saliency = Ok w /\
    Forall (fun z => 0 <= z <= 1)%Q w /\
    forall i x y z,
      nth_error overlap i = Some x -> nth_error saliency i = Some y ->
      nth_error w i = Some z -> (z <= x /\ z <= y)%Q.
Proof.
  intros Hl Ho Hs. eexists. split; [apply (mul_same_length _ _ Hl)|].
  assert (Hb : forall x y, (0 <= x <= 1 -> 0 <= y <= 1 ->
                 0 <= x * y /\ x * y <= 1 /\ x * y <= x /\ x * y <= y)%Q).
  { intros x y Hx Hy. repeat split; nra. }
  split.
  - clear Hl. revert saliency Hs.
    induction Ho as [|x o Hx _ IH]; intros [|y s] Hs; cbn; try constructor.
    + inversion Hs as [|? ? Hy Hs']; subst.
      destruct (Hb x y Hx Hy) as (Hp & Hq & _). split; assumption.
    + inversion Hs as [|? ? Hy Hs']; subst. now apply IH.
  - intros i x y z Hx Hy Hz.
    rewrite (nth_error_zip_mul _ _ _ Hx Hy) in Hz. injection Hz as <-.
    rewrite Forall_forall in Ho, Hs.
    apply nth_error_In in Hx, Hy.
    destruct (Hb x y (Ho x Hx) (Hs y Hy)) as (_ & _ & H3 & H4). split; assumption.
Qed.

Lemma combined_weight_bounds_witness :
  exists w, Torch.mul [1#2; 1]%Q [1#3; 1#4]%Q = Ok w /\
            Forall (fun z => 0 <= z <= 1)%Q w.
Proof.
  destruct (@combined_weight_bounds [1#2; 1]%Q [1#3; 1#4]%Q eq_refl)
    as (w & Hw & Hb & _).
  - repeat constructor; apply Qle_bool_iff; reflexivity.
  - repeat constructor; apply Qle_bool_iff; reflexivity.
  - exists w. split; assumption.
Defined.

(** ** The item of the demo data set *)

Lemma map_const_seq {A : Type} (c : A) (n : nat) :
  forall a, map (fun _ => c) (seq a n) = repeat c n.
Proof.
  induction n as [|k IH]; intros a; cbn; [reflexivity | now rewrite IH].
Qed.

Lemma asarray_ok_cons (r : list Q) (x : list (list Q)) (a : Arr.ndarray) :
  Arr.asarray (r :: x) = Ok a ->
  exists rs, length rs = length (r :: x) /\
    a = Arr.A2 {| Arr.nrows := length (r :: x); Arr.ncols := length r;
                  Arr.rows := rs |}.
Proof.
  unfold Arr.asarray. destruct (forallb _ _); [|discriminate].
  intros [= <-]. now exists (r :: x).
Qed.

(** X6.  For two non-empty clouds that the data set accepts and whose
    points have at least one coordinate, [__getitem__] succeeds for every
    index, also beyond the length 1 of the data set, always with the same
    item: the two arrays the data set holds, which have one row per point
    of the clouds given, and as features one constant 1 per point. *)
Theorem demo_item_features (r1 r2 : list Q) (x1 x2 : list (list Q))
    (d : ThreeDMatchDemo.t) (item : nat) :
  ThreeDMatchDemo.init (r1 :: x1) (r2 :: x2) = Ok d ->
  r1 <> [] -> r2 <> [] ->
  exists it,
    ThreeDMatchDemo.getitem d item = Ok it /\
    ThreeDMatchDemo.getitem d 0 = Ok it /\
    ThreeDMatchDemo.it_src_pcd it = ThreeDMatchDemo.src_pcd d /\
    ThreeDMatchDemo.it_tgt_pcd it = ThreeDMatchDemo.tgt_pcd d /\
    length (rows_of (ThreeDMatchDemo.it_src_pcd it)) = length (r1 :: x1) /\
    length (rows_of (ThreeDMatchDemo.it_tgt_pcd it)) = length (r2 :: x2) /\
    Arr.rows (ThreeDMatchDemo.it_src_feats it) = repeat [1%Q] (length (r1 :: x1)) /\
    Arr.rows (ThreeDMatchDemo.it_tgt_feats it) = repeat [1%Q] (length (r2 :: x2)).
Proof.
  unfold ThreeDMatchDemo.init. intros Hinit Hr1 Hr2.
  destruct (Arr.asarray (r1 :: x1)) as [s|] eqn:Es; cbn [bind] in Hinit;
    [|discriminate].
  destruct (Arr.asarray (r2 :: x2)) as [t|] eqn:Et; cbn [bind] in Hinit;
    [|discriminate].
  injection Hinit as <-.
  apply asarray_ok_cons in Es, Et.
  destruct Es as (rs1 & Hl1 & ->). destruct Et as (rs2 & Hl2 & ->).
  unfold ThreeDMatchDemo.getitem.
  cbn [ThreeDMatchDemo.src_pcd ThreeDMatchDemo.tgt_pcd Arr.first_col bind].
  eexists. split; [reflexivity|]. split; [reflexivity|].
  cbn [ThreeDMatchDemo.it_src_pcd ThreeDMatchDemo.it_tgt_pcd
       ThreeDMatchDemo.it_src_feats ThreeDMatchDemo.it_tgt_feats rows_of Arr.rows].
  split; [reflexivity|]. split; [reflexivity|].
  split; [exact Hl1|]. split; [exact Hl2|].
  unfold Arr.ones_like, Arr.ones, Arr.tabulate. cbn [Arr.nrows Arr.ncols Arr.rows].
  destruct r1 as [|a1 r1]; [congruence|]. destruct r2 as [|a2 r2]; [congruence|].
  cbn [length Nat.min seq map].
  split; cbn [repeat]; f_equal; apply map_const_seq.
Qed.

Lemma demo_item_features_witness :
  exists d it,
    ThreeDMatchDemo.init [[1; 2; 3]; [4; 5; 6]]%Q [[7; 8; 9]]%Q = Ok d /\
    ThreeDMatchDemo.getitem d 5 = Ok it /\
    Arr.rows (ThreeDMatchDemo.it_src_feats it) = [[1]; [1]]%Q.
Proof.
  eexists.
  destruct (@demo_item_features [1; 2; 3]%Q [7; 8; 9]%Q [[4; 5; 6]]%Q []
              _ 5 eq_refl) as (it & H1 & _ & _ & _ & _ & _ & H5 & _).
  - discriminate.
  - discriminate.
  - exists it. split; [reflexivity|]. split; [exact H1 | exact H5].
Defined.

(** ** How the stages of the service compose *)

Lemma lookup_error {A : Type} (key : string) (d : list (string * A)) (e : exn) :
  Py.lookup key d = Raise e -> e = KeyError.
Proof.
  induction d as [|[k v] r IH]; cbn [Py.lookup].
  - congruence.
  - destruct (String.eqb k key); [discriminate | exact IH].
Qed.

Lemma subsample_small (K : Z) (pcd feats : tensor2) (scores : list Q) (g : Np.rng) :
  Z.of_nat (length pcd) <= K -> subsample K pcd feats scores g = Ok (pcd, feats, g).
Proof. intros H. unfold subsample. settle_ltb. reflexivity. Qed.

Section ServiceComposition.

Variable collate_fn : config -> list ThreeDMatchDemo.entry -> result batch.
Variable ransac_pose_estimation :
  tensor2 -> tensor2 -> tensor2 -> tensor2 -> bool -> result (option (list (list Q))).

Local Abbreviation keypoints := (predator_keypoints collate_fn).
Local Abbreviation infer := (predator_infer collate_fn ransac_pose_estimation).
Local Abbreviation post := (do_POST collate_fn ransac_pose_estimation).

(** X7.  [predator_infer] catches nothing and invents no failure marker:
    a result [{"transform": None}] means that the key points were computed
    and that the pose estimator answered [None]; an exception raised by
    the network passes through [predator_infer] and [do_POST] unchanged;
    and every exception [predator_infer] raises is one of the key point
    stages or of the pose estimator. *)
Theorem infer_failures (cfg : config) (src_points tgt_points : cloud)
    (g : Np.rng) :
  (forall d g', infer cfg src_points tgt_points g = Ok (d, g') ->
     exists sp tp sf tf tsfm,
       keypoints cfg src_points tgt_points g = Ok (sp, tp, sf, tf, g') /\
       ransac_pose_estimation sp tp sf tf false = Ok tsfm /\
       d = package tsfm /\
       (d = [("transform"%string, PyNone)] <-> tsfm = None)) /\
  (forall demo_set inputs e data,
     ThreeDMatchDemo.init src_points tgt_points = Ok demo_set ->
     first_batch collate_fn cfg demo_set = Ok inputs ->
     model cfg inputs = Raise e ->
     Py.lookup "src" data = Ok src_points ->
     Py.lookup "tgt" data = Ok tgt_points ->
     infer cfg src_points tgt_points g = Raise e /\ post cfg data g = Raise e) /\
  (forall e, infer cfg src_points tgt_points g = Raise e ->
     keypoints cfg src_points tgt_points g = Raise e \/
     exists sp tp sf tf g2,
       keypoints cfg src_points tgt_points g = Ok (sp, tp, sf, tf, g2) /\
       ransac_pose_estimation sp tp sf tf false = Raise e).
Proof.
  split; [|split].
  - intros d g'. unfold predator_infer.
    destruct (keypoints cfg src_points tgt_points g)
      as [[[[[sp tp] sf] tf] g2]|e]; cbn [bind]; [|discriminate].
    destruct (ransac_pose_estimation sp tp sf tf false) as [tsfm|e] eqn:Er;
      cbn [bind]; [|discriminate].
    intros [= <- <-]. exists sp, tp, sf, tf, tsfm.
    repeat split; try assumption.
    + destruct tsfm; [discriminate | reflexivity].
    + intros ->. reflexivity.
  - intros demo_set inputs e data Hd Hi Hm Hs Ht.
    assert (Hk : keypoints cfg src_points tgt_points g = Raise e).
    { unfold predator_keypoints. rewrite Hd. cbn [bind]. rewrite Hi. cbn [bind].
      rewrite Hm. reflexivity. }
    assert (Hinf : infer cfg src_points tgt_points g = Raise e).
    { unfold predator_infer. rewrite Hk. reflexivity. }
    split; [exact Hinf|].
    unfold do_POST. rewrite Hs, Ht. cbn [bind]. rewrite Hinf. reflexivity.
  - intros e. unfold predator_infer.
    destruct (keypoints cfg src_points tgt_points g)
      as [[[[[sp tp] sf] tf] g2]|e']; cbn [bind].
    + destruct (ransac_pose_estimation sp tp sf tf false) as [tsfm|e'] eqn:Er;
        cbn [bind]; [discriminate|].
      intros [= <-]. right. exists sp, tp, sf, tf, g2. split; [reflexivity | exact Er].
    + intros [= <-]. now left.
Qed.

(** X8.  [do_POST] reads the keys ["src"] and ["tgt"] of the request
    body and nothing else: without one of them it raises [KeyError],
    whatever the other entries are, and with both it answers with status
    200 and the dict of [predator_infer] on the two clouds, or raises what
    [predator_infer] raises; so two bodies that agree on the two keys get
    the same outcome. *)
Theorem do_POST_keys (cfg : config) (data : list (string * cloud)) (g : Np.rng) :
  ((forall c, Py.lookup "src" data <> Ok c) \/
   (forall c, Py.lookup "tgt" data <> Ok c) ->
   post cfg data g = Raise KeyError) /\
  (forall s t, Py.lookup "src" data = Ok s -> Py.lookup "tgt" data = Ok t ->
     post cfg data g
     = '(d, g1) <- infer cfg s t g ;; Ok (200%nat, d, g1)) /\
  (forall data',
     Py.lookup "src" data' = Py.lookup "src" data ->
     Py.lookup "tgt" data' = Py.lookup "tgt" data ->
     post cfg data' g = post cfg data g).
Proof.
  split; [|split].
  - intros H. unfold do_POST.
    destruct (Py.lookup "src" data) as [s|e] eqn:Es; cbn [bind].
    + destruct (Py.lookup "tgt" data) as [t|e] eqn:Et; cbn [bind].
      * destruct H as [H | H]; [now destruct (H s) | now destruct (H t)].
      * now rewrite (lookup_error _ _ Et).
    + now rewrite (lookup_error _ _ Es).
  - intros s t Hs Ht. unfold do_POST. rewrite Hs, Ht. reflexivity.
  - intros data' Hs Ht. unfold do_POST. now rewrite Hs, Ht.
Qed.

(** X9.  When the stacked cloud the loader delivers has at most
    [n_points] points, no random number is drawn: the key points are the
    two parts of the stacked cloud, whole, the generator is returned as it
    was, and the outcome of the key point stages is the same for every
    state of the generator. *)
Theorem small_clouds_not_sampled (cfg : config) (src_points tgt_points : cloud)
    (g g' : Np.rng) :
  (forall demo_set inputs pcd,
     ThreeDMatchDemo.init src_points tgt_points = Ok demo_set ->
     first_batch collate_fn cfg demo_set = Ok inputs ->
     Py.getitem (points inputs) 0 = Ok pcd ->
     Z.of_nat (length pcd) <= n_points cfg) ->
  match keypoints cfg src_points tgt_points g with
  | Ok (sp, tp, sf, tf, g2) =>
      g2 = g /\
      keypoints cfg src_points tgt_points g' = Ok (sp, tp, sf, tf, g') /\
      forall demo_set inputs pcd,
        ThreeDMatchDemo.init src_points tgt_points = Ok demo_set ->
        first_batch collate_fn cfg demo_set = Ok inputs ->
        Py.getitem (points inputs) 0 = Ok pcd ->
        sp ++ tp = pcd
  | Raise e => keypoints cfg src_points tgt_points g' = Raise e
  end.
Proof.
  intros Hsmall. unfold predator_keypoints.
  destruct (ThreeDMatchDemo.init src_points tgt_points) as [demo|e];
    cbn [bind]; [|reflexivity].
  destruct (first_batch collate_fn cfg demo) as [inputs|e] eqn:Ei;
    cbn [bind]; [|reflexivity].
  destruct (model cfg inputs) as [[[feats so] ss]|e]; cbn [bind]; [|reflexivity].
  destruct (Py.getitem (points inputs) 0) as [pcd|e] eqn:Ep;
    cbn [bind]; [|reflexivity].
  destruct (Py.getitem (stack_lengths inputs) 0) as [lens|e];
    cbn [bind]; [|reflexivity].
  destruct (Py.getitem lens 0) as [len_src|e]; cbn [bind]; [|reflexivity].
  destruct (Torch.mul _ _) as [src_scores|e]; cbn [bind]; [|reflexivity].
  destruct (Torch.mul _ _) as [tgt_scores|e]; cbn [bind]; [|reflexivity].
  specialize (Hsmall demo inputs pcd eq_refl Ei Ep).
  cbn [split_outputs src_pcd tgt_pcd src_feats tgt_feats].
  assert (H1 : Z.of_nat (length (Py.slice_to len_src pcd)) <= n_points cfg).
  { rewrite length_slice_to. pose proof (clip_le (length pcd) len_src). lia. }
  assert (H2 : Z.of_nat (length (Py.slice_from len_src pcd)) <= n_points cfg).
  { unfold Py.slice_from. rewrite length_skipn. lia. }
  rewrite !subsample_small by assumption. cbn [bind].
  rewrite !subsample_small by assumption. cbn [bind].
  split; [reflexivity|]. split; [reflexivity|].
  intros d0 i0 p0 [= <-] Hi0 Hp0.
  rewrite Ei in Hi0. injection Hi0 as <-.
  rewrite Ep in Hp0. injection Hp0 as <-. apply slice_to_from.
Qed.

End ServiceComposition.

Lemma infer_failures_witness :
  (exists sp tp sf tf,
     predator_keypoints example_collate (example_config 3)
       [[0; 0; 0]; [1; 0; 0]]%Q [[1; 0; 0]; [2; 0; 0]]%Q example_rng
     = Ok (sp, tp, sf, tf, example_rng) /\
     example_ransac sp tp sf tf false = Ok None) /\
  do_POST example_collate example_ransac
    {| n_points := 3; batch_size := 1; neighborhood_limits := [];
       model := fun _ => Raise RuntimeError |}
    [("src"%string, [[0; 0; 0]]%Q); ("tgt"%string, [[1; 0; 0]]%Q)] example_rng
  = Raise RuntimeError.
Proof.
  split.
  - destruct (proj1 (@infer_failures example_collate example_ransac (example_config 3)
                       [[0; 0; 0]; [1; 0; 0]]%Q [[1; 0; 0]; [2; 0; 0]]%Q example_rng)
                [("transform"%string, PyNone)] example_rng eq_refl)
      as (sp & tp & sf & tf & tsfm & Hk & Hr & _ & Hnone).
    exists sp, tp, sf, tf. split; [exact Hk|].
    rewrite Hr. f_equal. now apply Hnone.
  - eapply (proj1 (proj2 (@infer_failures example_collate example_ransac
                            {| n_points := 3; batch_size := 1; neighborhood_limits := [];
                               model := fun _ => Raise RuntimeError |}
                            [[0; 0; 0]]%Q [[1; 0; 0]]%Q example_rng))).
    + reflexivity.
    + reflexivity.
    + reflexivity.
    + reflexivity.
    + reflexivity.
Defined.

Lemma do_POST_keys_witness :
  do_POST example_collate example_ransac (example_config 3)
    [("source"%string, [[0; 0; 0]]%Q); ("src"%string, [[0; 0; 0]]%Q)] example_rng
  = Raise KeyError.
Proof.
  apply (proj1 (@do_POST_keys example_collate example_ransac (example_config 3)
                  [("source"%string, [[0; 0; 0]]%Q); ("src"%string, [[0; 0; 0]]%Q)]
                  example_rng)).
  right. intros c. discriminate.
Defined.

Lemma small_clouds_not_sampled_witness :
  match predator_keypoints example_collate (example_config 3)
          [[0; 0; 0]; [1; 0; 0]]%Q [[1; 0; 0]]%Q example_rng with
  | Ok (sp, tp, _, _, g2) =>
      g2 = example_rng /\ sp ++ tp = [[0; 0; 0]; [1; 0; 0]; [1; 0; 0]]%Q
  | Raise _ => False
  end.
Proof.
  assert (Hsmall : forall demo_set inputs pcd,
            ThreeDMatchDemo.init [[0; 0; 0]; [1; 0; 0]]%Q [[1; 0; 0]]%Q = Ok demo_set ->
            first_batch example_collate (example_config 3) demo_set = Ok inputs ->
            Py.getitem (points inputs) 0 = Ok pcd ->
            Z.of_nat (length pcd) <= n_points (example_config 3)).
  { intros demo_set inputs pcd H1 H2 H3.
    vm_compute in H1. injection H1 as <-.
    vm_compute in H2. injection H2 as <-.
    vm_compute in H3. injection H3 as <-.
    vm_compute. discriminate. }
  pose proof (@small_clouds_not_sampled example_collate (example_config 3)
                [[0; 0; 0]; [1; 0; 0]]%Q [[1; 0; 0]]%Q example_rng example_rng Hsmall)
    as H.
  destruct (predator_keypoints example_collate (example_config 3)
              [[0; 0; 0]; [1; 0; 0]]%Q [[1; 0; 0]]%Q example_rng)
    as [[[[[sp tp] sf] tf] g2]|e] eqn:E.
  - destruct H as (Hg & _ & Hcat). split; [exact Hg|].
    apply (Hcat _ _ _ eq_refl eq_refl eq_refl).
  - vm_compute in E. discriminate E.
Defined.

(** ** The samples of the visualizer *)

Lemma every_all {A : Type} (x : list A) : Py.every 0 0 x = x.
Proof. induction x as [|a r IH]; cbn; [reflexivity | now rewrite IH]. Qed.

Lemma length_every_le {A : Type} (gap : nat) (x : list A) :
  forall wait, (length (Py.every gap wait x) <= length x)%nat.
Proof.
  induction x as [|a r IH]; intros wait; cbn [Py.every length]; [lia|].
  destruct wait; cbn [length]; [specialize (IH gap) | specialize (IH wait)]; lia.
Qed.

Lemma slice_step_length_le {A : Type} (d : Z) (x y : list A) :
  Py.slice_step d x = Ok y -> (length y <= length x)%nat.
Proof.
  unfold Py.slice_step. destruct (d =? 0); [discriminate|].
  destruct (0 <? d); intros [= <-].
  - apply length_every_le.
  - rewrite <- (length_rev x). apply length_every_le.
Qed.

(** X10.  The counts a loaded sample reports are consistent with its
    points: the source and target counts before down-sampling add up to
    the number of points of the stacked cloud; the counts after
    down-sampling are the lengths of the two point lists of the sample
    and do not exceed the counts before; and for a factor [d >= 1] they
    are the ceilings of the counts before, divided by [d]. *)
Theorem sample_stats (i : nat) (name : string) (d : Visualizer.data)
    (factor : Z) (s : Visualizer.sample_data) :
  Visualizer.load_sample i name d factor = Ok s ->
  (Visualizer.source_original s + Visualizer.target_original s
   = length (Arr.rows (Visualizer.d_pcd d)))%nat /\
  Visualizer.source_downsampled s = length (Visualizer.source_points s) /\
  Visualizer.target_downsampled s = length (Visualizer.target_points s) /\
  (Visualizer.source_downsampled s <= Visualizer.source_original s)%nat /\
  (Visualizer.target_downsampled s <= Visualizer.target_original s)%nat /\
  (1 <= factor ->
   Z.of_nat (Visualizer.source_downsampled s)
   = (Z.of_nat (Visualizer.source_original s) + factor - 1) / factor /\
   Z.of_nat (Visualizer.target_downsampled s)
   = (Z.of_nat (Visualizer.target_original s) + factor - 1) / factor).
Proof.
  intros H. apply load_sample_inv in H. cbv zeta in H.
  destruct H as (Hsp & Htp & _ & _ & _ & Hso & Hto & Hsd & Htd).
  rewrite Hso, Hto, Hsd, Htd.
  split.
  - rewrite <- length_app, slice_to_from. reflexivity.
  - split; [reflexivity|]. split; [reflexivity|].
    split; [eapply slice_step_length_le, Hsp|].
    split; [eapply slice_step_length_le, Htp|].
    intros Hd.
    destruct (slice_step_pos (Py.slice_to (Visualizer.d_len_src d)
                                (Arr.rows (Visualizer.d_pcd d))) Hd)
      as (y1 & Hy1 & Hl1 & _).
    destruct (slice_step_pos (Py.slice_from (Visualizer.d_len_src d)
                                (Arr.rows (Visualizer.d_pcd d))) Hd)
      as (y2 & Hy2 & Hl2 & _).
    rewrite Hsp in Hy1. injection Hy1 as <-.
    rewrite Htp in Hy2. injection Hy2 as <-.
    split; assumption.
Qed.

(** X11.  With a factor of 1 no point is dropped: the source points
    followed by the target points of a loaded sample are the points of the
    stacked cloud, in their order, wherever [len_src] cuts it. *)
Theorem factor_one_keeps_all (i : nat) (name : string) (d : Visualizer.data)
    (s : Visualizer.sample_data) :
  Visualizer.load_sample i name d 1 = Ok s ->
  Visualizer.source_points s ++ Visualizer.target_points s
  = Arr.rows (Visualizer.d_pcd d).
Proof.
  intros H. apply load_sample_inv in H. cbv zeta in H.
  destruct H as (Hsp & Htp & _).
  unfold Py.slice_step in Hsp, Htp. cbn in Hsp, Htp.
  rewrite every_all in Hsp, Htp.
  injection Hsp as <-. injection Htp as <-. apply slice_to_from.
Qed.

(** X12.  A factor of 0 makes the body of the loop raise [ValueError] on
    every file, before anything is computed; the loop catches it, so that
    loading with a factor of 0 adds no sample and, on a fresh visualizer,
    returns [False]. *)
Theorem factor_zero_loads_nothing (files : list (string * result Visualizer.data))
    (max_samples : Z) (results : list Visualizer.sample_data) :
  (forall i name d, Visualizer.load_sample i name d 0 = Raise ValueError) /\
  fst (Visualizer.load_test_results files max_samples 0 results) = results /\
  Visualizer.load_test_results files max_samples 0 [] = ([], false).
Proof.
  assert (H0 : forall i name d, Visualizer.load_sample i name d 0 = Raise ValueError)
    by reflexivity.
  assert (Hl : forall fs i rs, Visualizer.load_from i fs 0 rs = rs).
  { induction fs as [|[name loaded] r IH]; intros i rs; cbn [Visualizer.load_from];
      [reflexivity|].
    destruct loaded as [d|e]; cbn [bind]; [rewrite H0|]; apply IH. }
  split; [exact H0|]. split.
  - unfold Visualizer.load_test_results. destruct files; [reflexivity|].
    cbn [fst]. apply Hl.
  - unfold Visualizer.load_test_results. destruct files; [reflexivity|].
    now rewrite Hl.
Qed.

Lemma sample_stats_witness :
  match Visualizer.load_sample 0 "a.pth" example_data 2 with
  | Ok s =>
      (Visualizer.source_original s + Visualizer.target_original s = 4)%nat /\
      Z.of_nat (Visualizer.source_downsampled s) = 2
  | Raise _ => False
  end.
Proof.
  destruct (Visualizer.load_sample 0 "a.pth" example_data 2) as [s|e] eqn:E.
  - destruct (sample_stats _ _ _ _ E) as (H1 & _ & _ & _ & _ & H6).
    split; [exact H1|].
    destruct (H6 ltac:(lia)) as [H _]. rewrite H.
    apply load_sample_inv in E. cbv zeta in E.
    destruct E as (_ & _ & _ & _ & _ & -> & _). reflexivity.
  - vm_compute in E. discriminate E.
Defined.

Lemma factor_one_keeps_all_witness :
  match Visualizer.load_sample 0 "a.pth" example_data 1 with
  | Ok s =>
      Visualizer.source_points s ++ Visualizer.target_points s
      = [[1; 2; 3]; [4; 5; 6]; [7; 8; 9]; [0; 0; 0]]%Q
  | Raise _ => False
  end.
Proof.
  destruct (Visualizer.load_sample 0 "a.pth" example_data 1) as [s|e] eqn:E.
  - exact (factor_one_keeps_all _ _ _ E).
  - vm_compute in E. discriminate E.
Defined.

(** ** The loading loop of the visualizer *)

Section Loading.

Variable factor : Z.

(** What the loop does with one file. *)
Local Abbreviation attempt i name loaded :=
  (bind loaded (fun d => Visualizer.load_sample i name d factor)).

Lemma load_from_app (files : list (string * result Visualizer.data)) :
  forall i results,
  Visualizer.load_from i files factor results
  = results ++ Visualizer.load_from i files factor [].
Proof.
  induction files as [|[name loaded] r IH]; intros i results;
    cbn [Visualizer.load_from].
  - now rewrite app_nil_r.
  - destruct (attempt i name loaded) as [s|e].
    + rewrite (IH (S i) (results ++ [s])), (IH (S i) ([] ++ [s])).
      now rewrite <- app_assoc.
    + apply IH.
Qed.

Lemma load_from_cons (name : string) (loaded : result Visualizer.data)
    (r : list (string * result Visualizer.data)) (i : nat) :
  Visualizer.load_from i ((name, loaded) :: r) factor []
  = match attempt i name loaded with
    | Ok s => s :: Visualizer.load_from (S i) r factor []
    | Raise _ => Visualizer.load_from (S i) r factor []
    end.
Proof.
  cbn [Visualizer.load_from]. destruct (attempt i name loaded) as [s|e];
    [|reflexivity].
  now rewrite load_from_app.
Qed.

Lemma attempt_ok (i : nat) (name : string) (loaded : result Visualizer.data)
    (s : Visualizer.sample_data) :
  attempt i name loaded = Ok s <->
  exists d, loaded = Ok d /\ Visualizer.load_sample i name d factor = Ok s.
Proof.
  destruct loaded as [d|e]; cbn [bind]; split.
  - intros H. now exists d.
  - now intros (d' & [= <-] & H).
  - discriminate.
  - now intros (d' & [=] & _).
Qed.

Lemma load_from_in (files : list (string * result Visualizer.data)) :
  forall i s,
  In s (Visualizer.load_from i files factor []) <->
  exists k name d,
    nth_error files k = Some (name, Ok d) /\
    Visualizer.load_sample (i + k) name d factor = Ok s.
Proof.
  induction files as [|[name loaded] r IH]; intros i s.
  - cbn. split; [intros [] | intros ([|k] & n & d & H & _); discriminate H].
  - rewrite load_from_cons. split.
    + intros H.
      assert (Hr : In s (Visualizer.load_from (S i) r factor []) ->
                   exists k n d, nth_error ((name, loaded) :: r) k = Some (n, Ok d) /\
                                 Visualizer.load_sample (i + k) n d factor = Ok s).
      { intros Hin. apply IH in Hin. destruct Hin as (k & n & d & Hk & Hl).
        exists (S k), n, d. split; [exact Hk|].
        now replace (i + S k)%nat with (S i + k)%nat by lia. }
      destruct (attempt i name loaded) as [s0|e] eqn:Ea; [|now apply Hr].
      destruct H as [<- | H]; [|now apply Hr].
      apply attempt_ok in Ea. destruct Ea as (d & -> & Hl).
      exists 0%nat, name, d. split; [reflexivity|].
      now rewrite Nat.add_0_r.
    + intros ([|k] & n & d & Hk & Hl).
      * cbn in Hk. injection Hk as -> ->. rewrite Nat.add_0_r in Hl.
        cbn [bind]. rewrite Hl. now left.
      * cbn in Hk.
        assert (Hin : In s (Visualizer.load_from (S i) r factor [])).
        { apply IH. exists k, n, d. split; [exact Hk|].
          now replace (S i + k)%nat with (i + S k)%nat by lia. }
        destruct (attempt i name loaded); [now right | exact Hin].
Qed.

Lemma load_from_ids (files : list (string * result Visualizer.data)) (i : nat)
    (s : Visualizer.sample_data) :
  In s (Visualizer.load_from i files factor []) ->
  (i <= Visualizer.sample_id s < i + length files)%nat.
Proof.
  intros H. apply load_from_in in H. destruct H as (k & n & d & Hk & Hl).
  apply load_sample_inv in Hl. cbv zeta in Hl.
  destruct Hl as (_ & _ & -> & _).
  assert (k < length files)%nat by (apply nth_error_Some; congruence). lia.
Qed.

Lemma load_from_length (files : list (string * result Visualizer.data)) :
  forall i, (length (Visualizer.load_from i files factor []) <= length files)%nat.
Proof.
  induction files as [|[name loaded] r IH]; intros i; [cbn; lia|].
  rewrite load_from_cons. specialize (IH (S i)).
  destruct (attempt i name loaded); cbn [length]; lia.
Qed.

Lemma load_from_increasing (files : list (string * result Visualizer.data)) :
  forall i a b sa sb,
  nth_error (Visualizer.load_from i files factor []) a = Some sa ->
  nth_error (Visualizer.load_from i files factor []) b = Some sb ->
  (a < b)%nat ->
  (Visualizer.sample_id sa < Visualizer.sample_id sb)%nat.
Proof.
  induction files as [|[name loaded] r IH]; intros i a b sa sb Ha Hb Hab.
  - cbn in Ha. destruct a; discriminate.
  - rewrite load_from_cons in Ha, Hb.
    destruct (attempt i name loaded) as [s0|e] eqn:Ea; [|eapply IH; eassumption].
    destruct b as [|b]; [lia|]. cbn [nth_error] in Hb.
    destruct a as [|a]; cbn [nth_error] in Ha.
    + injection Ha as <-.
      apply attempt_ok in Ea. destruct Ea as (d & _ & Hl).
      apply load_sample_inv in Hl. cbv zeta in Hl.
      destruct Hl as (_ & _ & -> & _).
      apply nth_error_In, load_from_ids in Hb. lia.
    + eapply IH; try eassumption. lia.
Qed.

End Loading.

Lemma nth_error_firstn_some {A : Type} (m : nat) (l : list A) (k : nat) (x : A) :
  nth_error (firstn m l) k = Some x <-> (k < m)%nat /\ nth_error l k = Some x.
Proof.
  rewrite nth_error_firstn. destruct (k <? m)%nat eqn:E.
  - apply Nat.ltb_lt in E. tauto.
  - apply Nat.ltb_ge in E. split; [discriminate | lia].
Qed.

(** What [load_test_results] adds to the samples, and the flag it
    returns.  The files it runs over are those of the slice
    [result_files[:max_samples]]: the files of an index below
    [Py.clip (length files) max_samples]. *)
Lemma load_test_results_spec (files : list (string * result Visualizer.data))
    (max_samples : Z) (factor : Z) (results : list Visualizer.sample_data) :
  exists added,
    fst (Visualizer.load_test_results files max_samples factor results)
    = results ++ added /\
    (forall s, In s added <->
       exists k name d,
         (k < Py.clip (length files) max_samples)%nat /\
         nth_error files k = Some (name, Ok d) /\
         Visualizer.load_sample k name d factor = Ok s) /\
    (forall a b sa sb,
       nth_error added a = Some sa -> nth_error added b = Some sb -> (a < b)%nat ->
       (Visualizer.sample_id sa < Visualizer.sample_id sb)%nat) /\
    (length added <= Py.clip (length files) max_samples)%nat /\
    (snd (Visualizer.load_test_results files max_samples factor results) = true <->
     files <> [] /\ results ++ added <> []).
Proof.
  exists (Visualizer.load_from 0 (Py.slice_to max_samples files) factor []).
  split; [|split; [|split; [|split]]].
  - unfold Visualizer.load_test_results. destruct files as [|f r].
    + unfold Py.slice_to. rewrite firstn_nil. cbn. now rewrite app_nil_r.
    + cbn [fst]. apply load_from_app.
  - intros s. rewrite load_from_in. unfold Py.slice_to. split.
    + intros (k & n & d & Hk & Hl). apply nth_error_firstn_some in Hk.
      exists k, n, d. tauto.
    + intros (k & n & d & Hlt & Hk & Hl). exists k, n, d.
      split; [now apply nth_error_firstn_some | exact Hl].
  - apply load_from_increasing.
  - pose proof (load_from_length factor (Py.slice_to max_samples files) 0) as H.
    rewrite length_slice_to in H. exact H.
  - unfold Visualizer.load_test_results. destruct files as [|f r].
    + cbn [snd]. split; [discriminate | intros [H _]; congruence].
    + cbn [snd]. rewrite load_from_app, Nat.ltb_lt.
      split.
      * intros H. split; [discriminate|]. intros E. rewrite E in H. cbn in H. lia.
      * intros [_ H]. destruct (results ++ _); [congruence | cbn; lia].
Qed.

(** The position of a slice bound, case by case. *)
Lemma clip_cases (n : nat) (k : Z) :
  (0 <= k -> Py.clip n k = Nat.min (Z.to_nat k) n) /\
  (k < 0 -> Py.clip n k = (n - Z.to_nat (- k))%nat).
Proof.
  unfold Py.clip. split; intros H.
  - replace (k <? 0) with false by (symmetry; apply Z.ltb_ge; lia). reflexivity.
  - replace (k <? 0) with true by (symmetry; apply Z.ltb_lt; lia). lia.
Qed.

(** X13.  [load_test_results] keeps the samples that were there and
    appends, in the order of the files, one sample for each file of the
    slice [result_files[:max_samples]] that loads and whose body does not
    raise, and nothing else.  The slice holds the files of an index below
    [min(max_samples, number of files)] for a bound that is not negative,
    and all the files but the last [- max_samples] for a negative one.
    The sample of the file of index [k] has [sample_id = k], so that the
    identifiers of the new samples increase strictly and may skip values.
    The flag returned is [True] exactly when there is at least one file
    and the list of samples is not empty afterwards. *)
Theorem loaded_samples (files : list (string * result Visualizer.data))
    (max_samples : Z) (factor : Z) (results : list Visualizer.sample_data) :
  let bound := Py.clip (length files) max_samples in
  (0 <= max_samples -> bound = Nat.min (Z.to_nat max_samples) (length files)) /\
  (max_samples < 0 -> bound = (length files - Z.to_nat (- max_samples))%nat) /\
  exists added,
    fst (Visualizer.load_test_results files max_samples factor results)
    = results ++ added /\
    (forall s, In s added <->
       exists k name d,
         (k < bound)%nat /\ nth_error files k = Some (name, Ok d) /\
         Visualizer.load_sample k name d factor = Ok s) /\
    (forall a b sa sb,
       nth_error added a = Some sa -> nth_error added b = Some sb -> (a < b)%nat ->
       (Visualizer.sample_id sa < Visualizer.sample_id sb)%nat) /\
    (length added <= bound)%nat /\
    (snd (Visualizer.load_test_results files max_samples factor results) = true <->
     files <> [] /\ results ++ added <> []).
Proof.
  cbv zeta. split; [apply clip_cases|]. split; [apply clip_cases|].
  apply load_test_results_spec.
Qed.

Lemma loaded_samples_witness :
  Py.clip 3 (-1) = 2%nat /\
  exists added,
    fst (Visualizer.load_test_results
           [("a.pth"%string, Ok example_data); ("b.pth"%string, Raise ValueError);
            ("c.pth"%string, Ok example_data)] (-1) 10 []) = added /\
    (length added <= 2)%nat.
Proof.
  destruct (loaded_samples
              [("a.pth"%string, Ok example_data); ("b.pth"%string, Raise ValueError);
               ("c.pth"%string, Ok example_data)] (-1) 10 [])
    as (_ & Hneg & added & Hfst & _ & _ & Hlen & _).
  split; [apply Hneg; lia|].
  exists added. split; [exact Hfst | exact Hlen].
Defined.

(** X14.  The list of samples is never cleared: loading starts from the
    samples that are there, so that a second call of [load_test_results]
    with the same files and arguments appends every sample a second
    time. *)
Theorem reload_duplicates (files : list (string * result Visualizer.data))
    (max_samples : Z) (factor : Z) (results : list Visualizer.sample_data) :
  let once := fst (Visualizer.load_test_results files max_samples factor []) in
  fst (Visualizer.load_test_results files max_samples factor results)
  = results ++ once /\
  fst (Visualizer.load_test_results files max_samples factor once) = once ++ once.
Proof.
  assert (H : forall rs,
            fst (Visualizer.load_test_results files max_samples factor rs)
            = rs ++ fst (Visualizer.load_test_results files max_samples factor [])).
  { intros rs. unfold Visualizer.load_test_results. destruct files as [|f r].
    - cbn. now rewrite app_nil_r.
    - cbn [fst]. apply load_from_app. }
  cbv zeta. split; apply H.
Qed.

(** X15.  [main] writes the page and starts the server exactly when one
    of the first 20 result files loads with the factor 10, and then
    serves the samples of these files and no others; otherwise it only
    reports the failure, also when later files would load. *)
Theorem main_serves (files : list (string * result Visualizer.data)) :
  let loadable := fun s =>
    exists k name d,
      (k < 20)%nat /\ nth_error files k = Some (name, Ok d) /\
      Visualizer.load_sample k name d 10 = Ok s in
  ((exists s, loadable s) ->
   exists results,
     Visualizer.main files
     = [Visualizer.GenerateWebInterface; Visualizer.StartWebServer results] /\
     forall s, In s results <-> loadable s) /\
  (~ (exists s, loadable s) -> Visualizer.main files = [Visualizer.ReportFailure]).
Proof.
  cbv zeta.
  destruct (load_test_results_spec files 20 10 [])
    as (added & Hfst & Hin0 & _ & _ & Hflag).
  assert (Hin : forall s, In s added <->
            exists k name d,
              (k < 20)%nat /\ nth_error files k = Some (name, Ok d) /\
              Visualizer.load_sample k name d 10 = Ok s).
  { intros s. rewrite Hin0.
    rewrite (proj1 (clip_cases (length files) 20)) by lia.
    split; intros (k & n & d & Hk & Hn & Hl); exists k, n, d;
      (split; [|split; assumption]).
    - lia.
    - assert (k < length files)%nat by (apply nth_error_Some; congruence). lia. }
  clear Hin0.
  unfold Visualizer.main.
  destruct (Visualizer.load_test_results files 20 10 []) as [results flag].
  cbn [fst snd app] in *. subst results. split.
  - intros (s & Hs). exists added.
    assert (Hf : flag = true).
    { apply Hflag. pose proof (proj2 (Hin s) Hs) as Hadded. split.
      - destruct Hs as (k & n & d & _ & Hk & _). intros ->. destruct k; discriminate.
      - intros E. rewrite E in Hadded. destruct Hadded. }
    rewrite Hf. split; [reflexivity | exact Hin].
  - intros Hno.
    assert (Hf : flag = false).
    { destruct flag; [|reflexivity]. exfalso.
      destruct (proj1 Hflag eq_refl) as [_ Hne].
      destruct added as [|s r]; [congruence|].
      apply Hno. exists s. apply Hin. now left. }
    now rewrite Hf.
Qed.

Lemma main_serves_witness :
  exists results,
    Visualizer.main [("a.pth"%string, Raise ValueError);
                     ("b.pth"%string, Ok example_data)]
    = [Visualizer.GenerateWebInterface; Visualizer.StartWebServer results] /\
    exists s, In s results /\ Visualizer.sample_id s = 1%nat.
Proof.
  destruct (Visualizer.load_sample 1 "b.pth" example_data 10) as [s|e] eqn:E.
  - destruct (proj1 (main_serves [("a.pth"%string, Raise ValueError);
                                  ("b.pth"%string, Ok example_data)]))
      as (results & Hm & Hin).
    + exists s, 1%nat, "b.pth"%string, example_data.
      split; [lia|]. split; [reflexivity | exact E].
    + exists results. split; [exact Hm|]. exists s. split.
      * apply Hin. exists 1%nat, "b.pth"%string, example_data.
        split; [lia|]. split; [reflexivity | exact E].
      * apply load_sample_inv in E. cbv zeta in E. tauto.
  - vm_compute in E. discriminate E.
Defined.

(** ** Files of the expected shapes *)

Lemma load_sample_succeeds (n : nat) (name : string) (d : Visualizer.data)
    (factor : Z) :
  well_shaped d -> factor <> 0 ->
  exists s, Visualizer.load_sample n name d factor = Ok s.
Proof.
  destruct d as [pcd len_src rot trans].
  intros (Hpw & Hpc & Hrw & Hrr & Hrc & Htw & Htr & Htc) Hf.
  cbn [Visualizer.d_rot Visualizer.d_trans Visualizer.d_pcd] in *.
  destruct (shape_3x3 Hrw Hrr Hrc) as (a & b & c & d' & e & f & g & h & i' & ->).
  destruct (shape_3x1 Htw Htr Htc) as (t0 & t1 & t2 & ->).
  destruct (@load_sample_rows a b c d' e f g h i' t0 t1 t2 n name pcd len_src
              factor Hpw Hpc Hf) as (s & Hs & _).
  now exists s.
Qed.

(** X16.  With the identity rotation and a zero translation the
    transformation moves nothing: loading succeeds for a cloud of 3-D
    points and a non-zero factor, the matrix of the sample is the 4 by 4
    identity, and every transformed source point equals the source point
    of the same index. *)
Theorem identity_transform (n : nat) (name : string) (pcd : Arr.mat)
    (len_src factor : Z) :
  Arr.wf pcd -> Arr.ncols pcd = 3%nat -> factor <> 0 ->
  exists s,
    Visualizer.load_sample n name
      {| Visualizer.d_pcd := pcd; Visualizer.d_len_src := len_src;
         Visualizer.d_rot := Arr.eye 3;
         Visualizer.d_trans := Arr.tabulate 3 1 (fun _ _ => 0%Q) |} factor = Ok s /\
    Visualizer.matrix s = Arr.rows (Arr.eye 4) /\
    length (Visualizer.source_transformed s) = length (Visualizer.source_points s) /\
    forall k p, nth_error (Visualizer.source_points s) k = Some p ->
      exists q, nth_error (Visualizer.source_transformed s) k = Some q /\ veq q p.
Proof.
  intros Hpw Hpc Hf.
  destruct (@load_sample_rows 1 0 0 0 1 0 0 0 1 0 0 0 n name pcd len_src factor
              Hpw Hpc Hf) as (s & Hs & Hm & Hlen & H3 & Hrows).
  exists s. split; [exact Hs|]. split; [exact Hm|]. split; [exact Hlen|].
  intros k p Hk.
  assert (Hp : length p = 3%nat).
  { rewrite Forall_forall in H3. apply H3. eapply nth_error_In, Hk. }
  destruct p as [|p0 [|p1 [|p2 [|]]]]; try discriminate.
  eexists. split; [apply Hrows; exact Hk|].
  unfold veq. repeat constructor; ring.
Qed.

Lemma identity_transform_witness :
  exists s,
    Visualizer.load_sample 0 "a.pth"
      {| Visualizer.d_pcd := Visualizer.d_pcd example_data;
         Visualizer.d_len_src := 3;
         Visualizer.d_rot := Arr.eye 3;
         Visualizer.d_trans := Arr.tabulate 3 1 (fun _ _ => 0%Q) |} 2 = Ok s /\
    Visualizer.matrix s = Arr.rows (Arr.eye 4).
Proof.
  destruct (@identity_transform 0 "a.pth" (Visualizer.d_pcd example_data) 3 2)
    as (s & Hs & Hm & _).
  - split; [reflexivity | repeat constructor].
  - reflexivity.
  - discriminate.
  - exists s. split; assumption.
Defined.

Lemma load_from_all (factor : Z) (files : list (string * result Visualizer.data)) :
  factor <> 0 ->
  forall i,
  (forall k name loaded, nth_error files k = Some (name, loaded) ->
     exists d, loaded = Ok d /\ well_shaped d) ->
  length (Visualizer.load_from i files factor []) = length files /\
  forall k s, nth_error (Visualizer.load_from i files factor []) k = Some s ->
    Visualizer.sample_id s = (i + k)%nat /\
    exists loaded, nth_error files k = Some (Visualizer.filename s, loaded).
Proof.
  intros Hf. induction files as [|[name loaded] r IH]; intros i Hall.
  - cbn. split; [reflexivity | intros [|k] s H; discriminate H].
  - rewrite load_from_cons.
    destruct (Hall 0%nat name loaded eq_refl) as (d & -> & Hd).
    destruct (load_sample_succeeds i name Hd Hf) as (s0 & Hs0).
    cbn [bind]. rewrite Hs0.
    destruct (IH (S i) (fun k => Hall (S k))) as [Hlen Hnth].
    split; [cbn [length]; now rewrite Hlen|].
    intros [|k] s Hk; cbn [nth_error] in Hk.
    + injection Hk as <-. apply load_sample_inv in Hs0. cbv zeta in Hs0.
      destruct Hs0 as (_ & _ & -> & -> & _).
      split; [lia|]. now exists (Ok d).
    + destruct (Hnth k s Hk) as [Hid Hname]. split; [lia | exact Hname].
Qed.

(** X17.  When each file of the slice [result_files[:max_samples]]
    loads and has the expected shapes, and the factor is not 0, a fresh
    visualizer loads all of them: as many samples as the slice has files,
    that is [min(max_samples, number of files)] for a bound that is not
    negative and the number of files less [- max_samples] (or 0) for a
    negative one; and the sample at position [k] carries [sample_id = k]
    and the name of the file of index [k]. *)
Theorem all_files_load (files : list (string * result Visualizer.data))
    (max_samples : Z) (factor : Z) :
  factor <> 0 ->
  (forall k name loaded,
     (k < Py.clip (length files) max_samples)%nat ->
     nth_error files k = Some (name, loaded) ->
     exists d, loaded = Ok d /\ well_shaped d) ->
  let results := fst (Visualizer.load_test_results files max_samples factor []) in
  length results = Py.clip (length files) max_samples /\
  (0 <= max_samples ->
   length results = Nat.min (Z.to_nat max_samples) (length files)) /\
  (max_samples < 0 ->
   length results = (length files - Z.to_nat (- max_samples))%nat) /\
  forall k s, nth_error results k = Some s ->
    Visualizer.sample_id s = k /\
    exists loaded, nth_error files k = Some (Visualizer.filename s, loaded).
Proof.
  intros Hf Hall.
  assert (Hall' : forall k name loaded,
            nth_error (Py.slice_to max_samples files) k = Some (name, loaded) ->
            exists d, loaded = Ok d /\ well_shaped d).
  { intros k name loaded Hk. unfold Py.slice_to in Hk.
    apply nth_error_firstn_some in Hk.
    destruct Hk as [Hlt Hk]. eapply Hall; eassumption. }
  destruct (@load_from_all factor (Py.slice_to max_samples files) Hf 0 Hall')
    as [Hlen Hnth].
  assert (E : fst (Visualizer.load_test_results files max_samples factor [])
              = Visualizer.load_from 0 (Py.slice_to max_samples files) factor []).
  { unfold Visualizer.load_test_results. destruct files; [|reflexivity].
    unfold Py.slice_to. now rewrite firstn_nil. }
  cbv zeta. rewrite E, Hlen, length_slice_to.
  split; [reflexivity|]. split; [apply clip_cases|]. split; [apply clip_cases|].
  intros k s Hk. destruct (Hnth k s Hk) as [Hid (loaded & Hname)].
  split; [exact Hid|]. exists loaded.
  unfold Py.slice_to in Hname. now apply nth_error_firstn_some in Hname.
Qed.

Lemma example_data_shaped : well_shaped example_data.
Proof.
  unfold well_shaped, Arr.wf. cbn. repeat split; repeat constructor.
Qed.

Lemma all_files_load_witness :
  length (fst (Visualizer.load_test_results
                 [("a.pth"%string, Ok example_data); ("b.pth"%string, Ok example_data);
                  ("c.pth"%string, Raise ValueError)] (-1) 10 [])) = 2%nat /\
  length (fst (Visualizer.load_test_results
                 [("a.pth"%string, Ok example_data); ("b.pth"%string, Ok example_data);
                  ("c.pth"%string, Raise ValueError)] 2 10 [])) = 2%nat.
Proof.
  assert (Hall : forall m, (m = -1 \/ m = 2) ->
            forall k name loaded,
            (k < Py.clip 3 m)%nat ->
            nth_error [("a.pth"%string, Ok example_data);
                       ("b.pth"%string, Ok example_data);
                       ("c.pth"%string, Raise ValueError)] k = Some (name, loaded) ->
            exists d, loaded = Ok d /\ well_shaped d).
  { intros m Hm k name loaded Hk Hn.
    assert (Hk2 : (k < 2)%nat) by (destruct Hm as [-> | ->]; exact Hk).
    destruct k as [|[|k]]; [| |lia];
      cbn in Hn; injection Hn as <- <-;
      (eexists; split; [reflexivity | exact example_data_shaped]). }
  split.
  - exact (proj1 (@all_files_load
                    [("a.pth"%string, Ok example_data); ("b.pth"%string, Ok example_data);
                     ("c.pth"%string, Raise ValueError)] (-1) 10
                    ltac:(discriminate) (Hall (-1) (or_introl eq_refl)))).
  - exact (proj1 (@all_files_load
                    [("a.pth"%string, Ok example_data); ("b.pth"%string, Ok example_data);
                     ("c.pth"%string, Raise ValueError)] 2 10
                    ltac:(discriminate) (Hall 2 (or_intror eq_refl)))).
Defined.

(** ** Negative factors *)




(** ** Every result of the subsampler *)

(** X19.  Whatever the weights are, a result of the subsampler has one of
    two forms: the cloud and the feature vectors unchanged, with the
    generator untouched, when the cloud has at most [K] points; or, when
    it has more, exactly [K] points ([K >= 0]) taken at pairwise distinct
    indices of the cloud, each with the feature vector of the same index.
    So it never returns more than [min(N, K)] points, and never a point
    twice. *)
Theorem subsample_result (K : Z) (pcd feats : tensor2) (scores : list Q)
    (g g' : Np.rng) (pcd' feats' : tensor2) :
  subsample K pcd feats scores g = Ok (pcd', feats', g') ->
  (Z.of_nat (length pcd) <= K /\ pcd' = pcd /\ feats' = feats /\ g' = g) \/
  (0 <= K < Z.of_nat (length pcd) /\
   exists idx,
     length idx = Z.to_nat K /\ NoDup idx /\
     Forall (fun i => i < length pcd /\ i < length feats)%nat idx /\
     pcd' = map (fun i => nth i pcd []) idx /\
     feats' = map (fun i => nth i feats []) idx).
Proof. apply subsample_result_form. Qed.

Lemma subsample_result_witness :
  match subsample 2 [[0; 0; 0]; [1; 1; 1]; [2; 2; 2]]%Q [[1]; [2]; [3]]%Q
          [1#6; 0; 1#3]%Q example_rng with
  | Ok (pcd', feats', _) => length pcd' = 2%nat /\ length feats' = 2%nat
  | Raise _ => False
  end.
Proof.
  destruct (subsample 2 [[0; 0; 0]; [1; 1; 1]; [2; 2; 2]]%Q [[1]; [2]; [3]]%Q
              [1#6; 0; 1#3]%Q example_rng) as [[[p f] g']|e] eqn:E.
  - destruct (@subsample_result _ _ _ _ _ _ _ _ E)
      as [(H & _) | (_ & idx & Hl & _ & _ & -> & ->)].
    + cbn in H. lia.
    + rewrite !length_map. split; exact Hl.
  - vm_compute in E. discriminate E.
Defined.

(** ** What the pose estimator receives *)

Section ServiceBounds.

Variable collate_fn : config -> list ThreeDMatchDemo.entry -> result batch.

(** X20.  With a non-negative [n_points] and a network that returns one
    feature vector per stacked point, the key point stages, whenever they
    return, hand at most [n_points] source points and at most [n_points]
    target points to the pose estimator, each set with exactly one
    feature vector per point. *)
Theorem keypoints_bounded (cfg : config) (src_points tgt_points : cloud)
    (g g2 : Np.rng) (sp tp sf tf : tensor2) :
  0 <= n_points cfg ->
  (forall inputs feats so ss pcd,
     model cfg inputs = Ok (feats, so, ss) ->
     Py.getitem (points inputs) 0 = Ok pcd ->
     length feats = length pcd) ->
  predator_keypoints collate_fn cfg src_points tgt_points g
  = Ok (sp, tp, sf, tf, g2) ->
  Z.of_nat (length sp) <= n_points cfg /\
  Z.of_nat (length tp) <= n_points cfg /\
  length sf = length sp /\ length tf = length tp.
Proof.
  intros HK Hmodel. unfold predator_keypoints.
  destruct (ThreeDMatchDemo.init src_points tgt_points) as [demo|];
    cbn [bind]; [|discriminate].
  destruct (first_batch collate_fn cfg demo) as [inputs|];
    cbn [bind]; [|discriminate].
  destruct (model cfg inputs) as [[[feats so] ss]|] eqn:Em;
    cbn [bind]; [|discriminate].
  destruct (Py.getitem (points inputs) 0) as [pcd|] eqn:Ep;
    cbn [bind]; [|discriminate].
  destruct (Py.getitem (stack_lengths inputs) 0) as [lens|];
    cbn [bind]; [|discriminate].
  destruct (Py.getitem lens 0) as [len_src|]; cbn [bind]; [|discriminate].
  destruct (Torch.mul _ _) as [src_scores|]; cbn [bind]; [|discriminate].
  destruct (Torch.mul _ _) as [tgt_scores|]; cbn [bind]; [|discriminate].
  cbn [split_outputs src_pcd tgt_pcd src_feats tgt_feats].
  pose proof (Hmodel inputs feats so ss pcd Em Ep) as Hlen.
  destruct (subsample (n_points cfg) (Py.slice_to len_src pcd) _ _ _)
    as [[[p1 f1] g1]|] eqn:E1; cbn [bind]; [|discriminate].
  destruct (subsample (n_points cfg) (Py.slice_from len_src pcd) _ _ _)
    as [[[p2 f2] g3]|] eqn:E2; cbn [bind]; [|discriminate].
  intros [= <- <- <- <- <-].
  assert (Hs : length (Py.slice_to len_src feats) = length (Py.slice_to len_src pcd))
    by now rewrite !length_slice_to, Hlen.
  assert (Ht : length (Py.slice_from len_src feats)
               = length (Py.slice_from len_src pcd)).
  { unfold Py.slice_from. now rewrite !length_skipn, Hlen. }
  apply subsample_result_form in E1, E2.
  destruct E1 as [(H1 & -> & -> & _) | (H1 & idx1 & Hl1 & _ & _ & -> & ->)];
    destruct E2 as [(H2 & -> & -> & _) | (H2 & idx2 & Hl2 & _ & _ & -> & ->)];
    rewrite ?length_map; repeat split; try assumption; try lia.
Qed.

End ServiceBounds.

Lemma keypoints_bounded_witness :
  match predator_keypoints example_collate (example_config 3)
          [[0; 0; 0]; [1; 0; 0]; [0; 1; 0]; [0; 0; 1]]%Q
          [[1; 0; 0]; [2; 0; 0]]%Q example_rng with
  | Ok (sp, tp, sf, tf, _) =>
      Z.of_nat (length sp) <= 3 /\ length sf = length sp /\ length tf = length tp
  | Raise _ => False
  end.
Proof.
  destruct (predator_keypoints example_collate (example_config 3)
              [[0; 0; 0]; [1; 0; 0]; [0; 1; 0]; [0; 0; 1]]%Q
              [[1; 0; 0]; [2; 0; 0]]%Q example_rng)
    as [[[[[sp tp] sf] tf] g2]|e] eqn:E.
  - assert (Hmodel : forall inputs feats so ss pcd,
              model (example_config 3) inputs = Ok (feats, so, ss) ->
              Py.getitem (points inputs) 0 = Ok pcd ->
              length feats = length pcd).
    { intros inputs feats so ss pcd Hm Hp.
      unfold example_config, model, example_model in Hm.
      unfold Py.getitem in Hp.
      destruct (points inputs) as [|pcd0 ps]; [discriminate|].
      cbn in Hp. injection Hp as <-. injection Hm as <- _ _.
      apply length_map. }
    destruct (@keypoints_bounded example_collate (example_config 3) _ _ _ _ _ _ _ _
                ltac:(cbn; lia) Hmodel E) as (H1 & _ & H3 & H4).
    repeat split; assumption.
  - vm_compute in E. discriminate E.
Defined.
